(** * scvi-tools (wscvi fork): importance-weighted loss, differential
      expression helpers and the training runner

    A shallow embedding of

    - [scvi/external/wscvi/_module.py]  (class [WVAE]),
    - [scvi/model/base/_utils.py]       ([_prepare_obs], [_de_core],
                                         [_fdr_de_prediction],
                                         [DistributionsConcatenator],
                                         [_initialize_model]),
    - [scvi/train/_trainrunner.py]      ([TrainRunner._update_history]),

    followed by the properties of these functions.

    Conventions.  Python exceptions are values of [exn]; a function that
    may raise returns [result A].  Python dictionaries with string keys are
    [gmap string _].  The floats that pandas and numpy compute with are
    IEEE 754 binary64 numbers (Rocq's primitive floats), with their
    rounding; a decimal literal stands for the nearest such number, as in
    Python.  Tensor entries are idealised: they are real numbers paired
    with a derivative (forward-mode dual numbers, so that [detach] has a
    meaning).  The values of a training history, which the code moves but
    never computes with, are rationals. *)

From Stdlib Require Import Floats.
From Stdlib Require Import Reals Lra QArith ZArith Lia List String.
From stdpp Require Import gmap strings list fin_maps sorting.
Import ListNotations.
Local Open Scope string_scope.
Local Open Scope list_scope.
Local Open Scope nat_scope.
#[local] Set Warnings "-inexact-float".

(** ** Python results and exceptions *)

Inductive exn : Type :=
| AssertionError
| ValueError (msg : string)
| KeyError (key : string)
| IndexError
| TypeError
| AttributeError (attr : string)
| RuntimeError (msg : string).

Inductive result (A : Type) : Type :=
| Ok (a : A)
| Raise (e : exn).
Arguments Ok {A} a.
Arguments Raise {A} e.

#[global] Instance result_ret : MRet result := fun A a => Ok a.
#[global] Instance result_bind : MBind result :=
  fun A B f m => match m with Ok a => f a | Raise e => Raise e end.
#[global] Instance result_fmap : FMap result :=
  fun A B f m => match m with Ok a => Ok (f a) | Raise e => Raise e end.

Definition is_Ok {A} (r : result A) : Prop := exists a, r = Ok a.

(** [d[key]] on a dictionary: [KeyError] when the key is absent. *)
Definition getitem {V} (d : gmap string V) (key : string) : result V :=
  match d !! key with
  | Some v => Ok v
  | None => Raise (KeyError key)
  end.

(** [assert b] *)
Definition py_assert (b : bool) : result unit :=
  if b then Ok tt else Raise AssertionError.

(** ** Tensors *)

Module Torch.

(** Shapes and broadcasting, shared by the two tensor models below. *)

Definition numel (s : list nat) : nat := foldr Nat.mul 1 s.

Fixpoint broadcast_rev (a b : list nat) : result (list nat) :=
  match a, b with
  | [], _ => Ok b
  | _, [] => Ok a
  | x :: a', y :: b' =>
      r ← broadcast_rev a' b';
      if (x =? y) then Ok (x :: r)
      else if (x =? 1) then Ok (y :: r)
      else if (y =? 1) then Ok (x :: r)
      else Raise (RuntimeError "The size of tensor a must match the size of tensor b")
  end.

(** [torch.broadcast_shapes]: shapes are aligned on their last dimension. *)
Definition broadcast_shapes (a b : list nat) : result (list nat) :=
  reverse <$> broadcast_rev (reverse a) (reverse b).

Definition pad_shape (rank : nat) (s : list nat) : list nat :=
  replicate (rank - length s) 1 ++ s.

Section Data.
Context {A : Type}.

(** The first [n] consecutive blocks of [k] elements of a row-major
    buffer. *)
Fixpoint chunks (k n : nat) (d : list A) : list (list A) :=
  match n with
  | 0 => []
  | S n' => take k d :: chunks k n' (drop k d)
  end.

(** Row-major data of a tensor of shape [s] expanded to shape [t]
    ([length s = length t], each dimension equal or 1 in [s]). *)
Fixpoint expand_data (s t : list nat) (d : list A) : list A :=
  match s, t with
  | n :: s', m :: t' =>
      let rows := (fun r => expand_data s' t' r) <$> chunks (numel s') n d in
      if (n =? m) then concat rows else concat (replicate m (concat rows))
  | _, _ => d
  end.
End Data.

(** *** Entries: a real value and its derivative along one parameter *)

Record dual : Type := Dual { value : R; grad : R }.

Definition dconst (r : R) : dual := Dual r 0.
Definition dzero : dual := dconst 0.
Definition dadd (a b : dual) : dual := Dual (value a + value b) (grad a + grad b).
Definition dsub (a b : dual) : dual := Dual (value a - value b) (grad a - grad b).
Definition dneg (a : dual) : dual := Dual (- value a) (- grad a).
Definition dmul (a b : dual) : dual :=
  Dual (value a * value b) (grad a * value b + value a * grad b).
Definition ddiv (a b : dual) : dual :=
  Dual (value a / value b)
       ((grad a * value b - value a * grad b) / (value b * value b)).
Definition dexp (a : dual) : dual := Dual (exp (value a)) (exp (value a) * grad a).
Definition ddiv_nat (a : dual) (n : nat) : dual :=
  Dual (value a / INR n) (grad a / INR n).
(** [detach]: same value, cut from the graph. *)
Definition ddetach (a : dual) : dual := dconst (value a).

Definition dsum (l : list dual) : dual := foldr dadd dzero l.

(** *** Tensors with data: a shape and a row-major buffer *)

Record tensor : Type := Tensor { shape : list nat; data : list dual }.

Definition wf (t : tensor) : Prop := length (data t) = numel (shape t).

Definition ndim (t : tensor) : nat := length (shape t).

(** [torch.tensor(x)] for a Python float [x]. *)
Definition scalar (x : R) : tensor := Tensor [] [dconst x].

Definition binop (f : dual -> dual -> dual) (a b : tensor) : result tensor :=
  s ← broadcast_shapes (shape a) (shape b);
  let r := length s in
  Ok (Tensor s (zip_with f (expand_data (pad_shape r (shape a)) s (data a))
                           (expand_data (pad_shape r (shape b)) s (data b)))).

Definition sub : tensor -> tensor -> result tensor := binop dsub.
Definition mul : tensor -> tensor -> result tensor := binop dmul.
Definition neg (t : tensor) : tensor := Tensor (shape t) (dneg <$> data t).
Definition detach (t : tensor) : tensor := Tensor (shape t) (ddetach <$> data t).

(** The slices of [t] along dimension 0 (a 0-d tensor is its own only
    slice) and the number of entries of one slice. *)
Definition slice_numel (t : tensor) : nat := numel (tail (shape t)).
Definition slices (t : tensor) : list (list dual) :=
  match shape t with
  | [] => [data t]
  | n :: rest => chunks (numel rest) n (data t)
  end.

(** Entry-wise sum of equally long rows. *)
Definition sum_rows (k : nat) (rows : list (list dual)) : list dual :=
  foldr (zip_with dadd) (replicate k dzero) rows.

(** [t.mean()] *)
Definition mean (t : tensor) : tensor :=
  Tensor [] [ddiv_nat (dsum (data t)) (numel (shape t))].

(** [t.sum(dim=0)] *)
Definition sum_dim0 (t : tensor) : tensor :=
  Tensor (tail (shape t)) (sum_rows (slice_numel t) (slices t)).

(** [t.mean(0)] *)
Definition mean_dim0 (t : tensor) : tensor :=
  Tensor (tail (shape t))
         ((fun d => ddiv_nat d (length (slices t)))
            <$> sum_rows (slice_numel t) (slices t)).

(** [torch.softmax(t, dim=0)]: [exp(t_i) / sum_j exp(t_j)] along dim 0. *)
Definition softmax_dim0 (t : tensor) : tensor :=
  let exps := (fun row => dexp <$> row) <$> slices t in
  let denom := sum_rows (slice_numel t) exps in
  Tensor (shape t) (concat ((fun row => zip_with ddiv row denom) <$> exps)).

End Torch.

(** ** scvi.module.base.LossRecorder (a container of the four terms) *)

Module LossRecorder.
Record t : Type := Build {
  loss : Torch.tensor;
  reconstruction_loss : Torch.tensor;
  kl_local : Torch.tensor;
  kl_global : Torch.tensor
}.
End LossRecorder.

(** ** Tensors known by their shape

    The encoder and decoder networks are opaque, so [inference] and
    [generative] are followed on the shapes of the tensors they build: every
    torch call below is the shape rule of that call, and raises where torch
    raises on shapes. *)

Module Shape.
Import Torch.

Abbreviation dims := (list nat).

(** Values stored in the output dictionaries. *)
Inductive pyval : Type :=
| PyNone
| PyFloat                            (* a Python float such as [0.0] *)
| PyTensor (s : dims)
| PyDist (batch_shape : dims).      (* a torch.distributions object *)

Definition as_tensor (v : pyval) : result dims :=
  match v with
  | PyTensor s => Ok s
  | _ => Raise TypeError
  end.

(** A dimension argument, negative ones counting from the end. *)
Definition norm_dim (rank : nat) (dim : Z) : result nat :=
  if bool_decide (0 <= dim < Z.of_nat rank)%Z then Ok (Z.to_nat dim)
  else if bool_decide (- Z.of_nat rank <= dim < 0)%Z
       then Ok (Z.to_nat (Z.of_nat rank + dim))
       else Raise IndexError.

(** [t.sum(dim)] *)
Definition sum (dim : Z) (s : dims) : result dims :=
  d ← norm_dim (length s) dim;
  Ok (take d s ++ drop (S d) s).

(** [t.unsqueeze(dim)] *)
Definition unsqueeze (dim : Z) (s : dims) : result dims :=
  d ← norm_dim (S (length s)) dim;
  Ok (take d s ++ 1 :: drop d s).

(** [torch.cat((a, b), dim=-1)]: same rank, same sizes but in the last
    dimension. *)
Definition cat_last (a b : dims) : result dims :=
  match reverse a, reverse b with
  | la :: ra, lb :: rb =>
      if bool_decide (ra = rb) then Ok (reverse ra ++ [la + lb])
      else Raise (RuntimeError "Sizes of tensors must match except in dimension -1")
  | _, _ => Raise (RuntimeError "zero-dimensional tensor cannot be concatenated")
  end.

(** [torch.split(t, 1, dim=1)] *)
Definition split1_dim1 (s : dims) : result (list dims) :=
  match s with
  | c :: k :: rest => Ok (replicate k (c :: 1 :: rest))
  | _ => Raise IndexError
  end.

(** [t.expand(sizes)]: every dimension of [t], aligned on the last one,
    is kept or is 1. *)
Definition expand (s sizes : dims) : result dims :=
  if bool_decide (length s <= length sizes
                  /\ Forall2 (fun d m => d = m \/ d = 1)
                             (pad_shape (length sizes) s) sizes)
  then Ok sizes
  else Raise (RuntimeError "The expanded size of the tensor must match the existing size").

(** [n_obs, n_cont = t.shape] *)
Definition unpack2 (s : dims) : result (nat * nat) :=
  match s with
  | [a; b] => Ok (a, b)
  | _ => Raise (ValueError "not enough values to unpack")
  end.

(** [t.shape[0]] *)
Definition size0 (s : dims) : result nat :=
  match s with
  | n :: _ => Ok n
  | [] => Raise IndexError
  end.

(** [Normal(loc, scale)], [d.rsample(sample_shape)], [d.log_prob(v)] *)
Definition Normal (loc scale : dims) : result dims := broadcast_shapes loc scale.
Definition rsample (batch_shape sample_shape : dims) : dims :=
  sample_shape ++ batch_shape.
Definition log_prob (batch_shape v : dims) : result dims :=
  broadcast_shapes v batch_shape.

(** [F.linear(input, weight)] with [weight] of shape [(out, in)]. *)
Definition linear (input weight : dims) : result dims :=
  match reverse input, weight with
  | i :: rest, [out; i'] =>
      if bool_decide (i = i') then Ok (reverse rest ++ [out])
      else Raise (RuntimeError "mat1 and mat2 shapes cannot be multiplied")
  | _, _ => Raise (RuntimeError "linear: bad operand rank")
  end.

(** [a + b] where either side may be a Python float. *)
Definition add (a b : pyval) : result pyval :=
  match a, b with
  | PyFloat, PyFloat => Ok PyFloat
  | PyFloat, PyTensor s | PyTensor s, PyFloat => Ok (PyTensor s)
  | PyTensor s, PyTensor t => PyTensor <$> broadcast_shapes s t
  | _, _ => Raise TypeError
  end.

End Shape.

(** ** scvi/external/wscvi/_module.py *)

Module WVAE.
Import Shape.

(** [scvi.REGISTRY_KEYS]: the names of the fields of a batch.  The constants
    are defined outside this module and are taken as a parameter. *)
Record registry_keys : Type := {
  X_KEY : string;
  BATCH_KEY : string;
  LABELS_KEY : string;
  CONT_COVS_KEY : string;
  CAT_COVS_KEY : string;
  SIZE_FACTOR_KEY : string
}.

(** The attributes of a [WVAE] instance that the methods read. *)
Record t : Type := {
  n_input : nat;
  n_batch : nat;
  n_labels : nat;
  n_latent : nat;
  n_particles : nat;
  loss_type : string;
  n_continuous_cov : nat;
  n_cats_per_cov : option (list nat);
  dispersion : string;
  log_variational : bool;
  encode_covariates : bool;
  use_observed_lib_size : bool
}.

(** *** Collaborators defined in [scvi.nn] and [scvi.module.VAE] *)

(** Modelled from the spec: the dimensions the networks are configured
    for.  The encoder reads the genes, and with them the continuous
    covariates "when covariate-encoding is enabled"; the decoder reads the
    latent code and the continuous covariates; each reads one stream per
    categorical covariate (the encoder when covariate-encoding is
    enabled). *)
Definition n_cat_covs (self : t) : nat := length (default [] (n_cats_per_cov self)).
Definition n_input_encoder (self : t) : nat :=
  n_input self + (if encode_covariates self then n_continuous_cov self else 0).
Definition n_cat_encoder (self : t) : nat :=
  if encode_covariates self then n_cat_covs self else 0.
Definition n_input_decoder (self : t) : nat := n_latent self + n_continuous_cov self.

(** Modelled from the spec: a network "fails if shapes of covariates
    mismatch configured dimensions": its input has the width it is
    configured for, and it is given as many categorical streams. *)
Definition check_configured (width n_cat : nat) (input : dims)
    (categorical_input : list dims) : result unit :=
  if bool_decide (last input = Some width /\ length categorical_input = n_cat)
  then Ok tt
  else Raise (RuntimeError "shapes of covariates mismatch configured dimensions").

(** Modelled from the spec: the encoder behind [self.z_encoder] is not part
    of these sources.  "Encoder produces [qz] and a ... draw [z]"; the latent
    code has shape (cells x latent-dim).  Returns the batch shape of [qz] and
    the shape of the draw. *)
Definition z_encoder (self : t) (encoder_input batch_index : dims)
    (categorical_input : list dims) : result (dims * dims) :=
  _ ← check_configured (n_input_encoder self) (n_cat_encoder self)
        encoder_input categorical_input;
  let s := removelast encoder_input ++ [n_latent self] in Ok (s, s).

(** Modelled from the spec: the second encoder head [self.l_encoder], "a
    second encoder head produces [ql] and a sampled library-size draw", one
    library size per cell. *)
Definition l_encoder (self : t) (encoder_input batch_index : dims)
    (categorical_input : list dims) : result (dims * dims) :=
  _ ← check_configured (n_input_encoder self) (n_cat_encoder self)
        encoder_input categorical_input;
  let s := removelast encoder_input ++ [1] in Ok (s, s).

(** Modelled from the spec: [self.z_encoder.z_transformation], "the
    latent-space link transform", which keeps the shape. *)
Definition z_transformation (untran_z : dims) : dims := untran_z.

(** Modelled from the spec: [scvi.nn.one_hot(index, n_cat)], one row per
    cell and one column per category. *)
Definition one_hot (index : dims) (n_cat : nat) : result dims :=
  n ← size0 index; Ok [n; n_cat].

(** Modelled from the spec: the decoder behind [self.decoder], which "maps
    (z [+covariates], library, batch, categorical covariates) to
    count-likelihood parameters (scale, dispersion, rate, dropout-logit)",
    one row of [n_input] genes per decoded latent; the rate is the scale
    times the exponential of the library size; a dispersion is produced only
    in the per-gene-per-cell mode. *)
Definition decoder (self : t) (dispersion : string)
    (decoder_input library batch_index : dims) (categorical_input : list dims)
    (y : option dims) : result (dims * option dims * dims * dims) :=
  _ ← check_configured (n_input_decoder self) (n_cat_covs self)
        decoder_input categorical_input;
  let px_scale := removelast decoder_input ++ [n_input self] in
  px_rate ← Torch.broadcast_shapes library px_scale;
  let px_r := if bool_decide (dispersion = "gene-cell") then Some px_scale else None in
  Ok (px_scale, px_r, px_rate, px_scale).

(** Modelled from the spec: the parameter [self.px_r], "learned per-gene
    dispersion parameters (mode depends on a dispersion-granularity setting:
    per-gene, per-gene-per-batch, or per-gene-per-label)". *)
Definition px_r_param (self : t) : dims :=
  if bool_decide (dispersion self = "gene-batch") then [n_input self; n_batch self]
  else if bool_decide (dispersion self = "gene-label") then [n_input self; n_labels self]
  else [n_input self].

(** Modelled from the spec: [self._compute_local_library_params], "a
    per-batch log-normal prior whose mean/variance are precomputed summary
    statistics of the training population (looked up by batch index)". *)
Definition _compute_local_library_params (self : t) (batch_index : dims)
    : result (dims * dims) :=
  oh ← one_hot batch_index (n_batch self);
  m ← linear oh [1; n_batch self];
  v ← linear oh [1; n_batch self];
  Ok (m, v).

(** Modelled from the spec: [self.get_reconstruction_loss], "negative
    binomial negative log-likelihood parameterized by rate, dispersion,
    dropout-logit", summed over the genes of each cell. *)
Definition get_reconstruction_loss (self : t) (x px_rate px_r px_dropout : dims)
    : result dims :=
  d ← Torch.broadcast_shapes px_rate px_r;
  lp ← log_prob d x;
  sum (-1) lp.

(** Modelled from the spec: [VAE._get_generative_input] of the parent class,
    which collects the "latent [z], library size, batch index, ... optional
    covariates" of the generative operation. *)
Definition VAE_get_generative_input (keys : registry_keys)
    (tensors inference_outputs : gmap string pyval) : result (gmap string pyval) :=
  z ← getitem inference_outputs "z";
  library ← getitem inference_outputs "library";
  batch_index ← getitem tensors (BATCH_KEY keys);
  y ← getitem tensors (LABELS_KEY keys);
  let cont_covs := default PyNone (tensors !! CONT_COVS_KEY keys) in
  let cat_covs := default PyNone (tensors !! CAT_COVS_KEY keys) in
  let size_factor := default PyNone (tensors !! SIZE_FACTOR_KEY keys) in
  Ok (list_to_map [("z", z); ("library", library); ("batch_index", batch_index);
                   ("y", y); ("cont_covs", cont_covs); ("cat_covs", cat_covs);
                   ("size_factor", size_factor)]).

(** *** Methods of [WVAE] *)

Definition _get_generative_input (self : t) (keys : registry_keys)
    (tensors inference_outputs : gmap string pyval) : result (gmap string pyval) :=
  res ← VAE_get_generative_input keys tensors inference_outputs;
  x ← getitem tensors (X_KEY keys);
  Ok (<["x" := x]> res).

Definition inference (self : t) (x batch_index : dims)
    (cont_covs cat_covs : option dims) (n_samples : option nat)
    : result (gmap string pyval) :=
  let n_samples_ := match n_samples with None => n_particles self | Some n => n end in
  let n_samples_ : dims := if n_samples_ =? 1 then [] else [n_samples_] in
  let x_ := x in
  observed_library ← (if use_observed_lib_size self
                      then s ← sum 1 x; Some <$> unsqueeze 1 s   (* log keeps the shape *)
                      else Ok None);
  let x_ := if log_variational self then x_ (* torch.log(1 + x_) *) else x_ in
  encoder_input ← match cont_covs with
                  | Some c => if encode_covariates self then cat_last x_ c else Ok x_
                  | None => Ok x_
                  end;
  categorical_input ← match cat_covs with
                      | Some c => if encode_covariates self then split1_dim1 c else Ok []
                      | None => Ok []
                      end;
  '(qz, z) ← z_encoder self encoder_input batch_index categorical_input;
  '(ql, library) ← match observed_library with
                   | Some library => Ok (None, library)
                   | None =>
                       '(ql, library_encoded) ←
                         l_encoder self encoder_input batch_index categorical_input;
                       Ok (Some ql, library_encoded)
                   end;
  let untran_z := rsample qz n_samples_ in
  lp ← log_prob qz untran_z;
  log_qz ← sum (-1) lp;
  let z := z_transformation untran_z in
  '(library, log_ql, point_library) ←
    match ql with
    | None => Ok (library, PyFloat, library)
    | Some ql =>
        let library := rsample ql n_samples_ in
        lp ← log_prob ql library;
        log_ql ← sum (-1) lp;
        Ok (library, PyTensor log_ql, ql)                   (* ql.loc *)
    end;
  log_qjoint ← add log_ql (PyTensor log_qz);
  Ok (list_to_map
        [("z", PyTensor z); ("qz", PyDist qz);
         ("ql", from_option PyDist PyNone ql);
         ("library", PyTensor library); ("log_ql", log_ql);
         ("log_qz", PyTensor log_qz); ("log_qjoint", log_qjoint);
         ("point_library", PyTensor point_library)]).

Definition generative (self : t) (z library batch_index x : dims)
    (cont_covs cat_covs size_factor y : option dims) (transform_batch : option nat)
    : result (gmap string pyval) :=
  decoder_input ← match cont_covs with
                  | Some c =>
                      n_samples ← size0 z;
                      '(n_obs, n_cont) ← unpack2 c;
                      u ← unsqueeze 0 c;
                      cont_covs_ ← expand u [n_samples; n_obs; n_cont];
                      cat_last z cont_covs_
                  | None => Ok z
                  end;
  categorical_input ← match cat_covs with
                      | Some c => split1_dim1 c
                      | None => Ok []
                      end;
  let batch_index := match transform_batch with
                     | Some _ => batch_index               (* ones_like(batch_index) * tb *)
                     | None => batch_index
                     end in
  '(px_scale, px_r, px_rate, px_dropout) ←
    decoder self (dispersion self) decoder_input library batch_index categorical_input y;
  px_r ← (if bool_decide (dispersion self = "gene-label")
          then yv ← from_option Ok (Raise (AttributeError "size")) y;  (* [y.size(0)] *)
               oh ← one_hot yv (n_labels self);
               Some <$> linear oh (px_r_param self)
          else if bool_decide (dispersion self = "gene-batch")
          then oh ← one_hot batch_index (n_batch self);
               Some <$> linear oh (px_r_param self)
          else if bool_decide (dispersion self = "gene")
          then Ok (Some (px_r_param self))
          else Ok px_r);
  px_r ← from_option Ok (Raise TypeError) px_r;             (* torch.exp(px_r) *)
  let zmean := z in
  let zstd := z in
  d ← Normal zmean zstd;
  lp ← log_prob d z;
  log_pz ← sum (-1) lp;
  log_pl ← (if use_observed_lib_size self then Ok PyFloat
            else '(local_library_log_means, local_library_log_vars) ←
                   _compute_local_library_params self batch_index;
                 d ← Normal local_library_log_means local_library_log_vars;
                 lp ← log_prob d library;
                 PyTensor <$> sum (-1) lp);
  log_px_latents ← get_reconstruction_loss self x px_rate px_r px_dropout;
  s ← add (PyTensor log_px_latents) (PyTensor log_pz);
  log_pjoint ← add s log_pl;
  Ok (list_to_map
        [("px_scale", PyTensor px_scale); ("px_r", PyTensor px_r);
         ("px_rate", PyTensor px_rate); ("px_dropout", PyTensor px_dropout);
         ("log_pl", log_pl); ("log_px_latents", PyTensor log_px_latents);
         ("log_pz", PyTensor log_pz); ("log_pjoint", log_pjoint)]).

(** [self.generative( **gen_ins )]: the dictionary is passed as keyword
    arguments. *)
Definition opt_tensor (v : pyval) : result (option dims) :=
  match v with
  | PyNone => Ok None
  | PyTensor s => Ok (Some s)
  | _ => Raise TypeError
  end.

Definition call_generative (self : t) (gen_ins : gmap string pyval)
    : result (gmap string pyval) :=
  z ← getitem gen_ins "z" ≫= as_tensor;
  library ← getitem gen_ins "library" ≫= as_tensor;
  batch_index ← getitem gen_ins "batch_index" ≫= as_tensor;
  x ← getitem gen_ins "x" ≫= as_tensor;
  cont_covs ← getitem gen_ins "cont_covs" ≫= opt_tensor;
  cat_covs ← getitem gen_ins "cat_covs" ≫= opt_tensor;
  size_factor ← getitem gen_ins "size_factor" ≫= opt_tensor;
  y ← getitem gen_ins "y" ≫= opt_tensor;
  generative self z library batch_index x cont_covs cat_covs size_factor y None.

Definition estimate_likelihood (self : t) (keys : registry_keys)
    (tensors inference_outputs : gmap string pyval) : result dims :=
  gen_ins ← _get_generative_input self keys tensors inference_outputs;
  outs ← call_generative self gen_ins;
  px ← getitem outs "px";
  x ← getitem tensors "x" ≫= as_tensor;
  match px with
  | PyDist d => log_prob d x
  | _ => Raise (AttributeError "log_prob")
  end.

Definition loss (self : t)
    (tensors inference_outputs generative_outputs : gmap string Torch.tensor)
    (kl_weight : R) : result LossRecorder.t :=
  log_pjoint ← getitem generative_outputs "log_pjoint";
  log_qjoint ← getitem inference_outputs "log_qjoint";
  log_ratios ← Torch.sub log_pjoint log_qjoint;
  _ ← py_assert (bool_decide (Torch.ndim log_ratios = 2));
  loss ← (if bool_decide (loss_type self = "ELBO")
          then Ok (Torch.neg (Torch.mean log_ratios))
          else if bool_decide (loss_type self = "IWELBO")
          then weighted ← Torch.mul (Torch.detach (Torch.softmax_dim0 log_ratios))
                                    log_ratios;
               Ok (Torch.neg (Torch.mean (Torch.sum_dim0 weighted)))
          else Raise (ValueError (String.append "Unknown loss type " (loss_type self))));
  log_px_latents ← getitem generative_outputs "log_px_latents";
  let reconst_loss := Torch.neg (Torch.mean_dim0 log_px_latents) in
  let kl_local := Torch.scalar 0 in
  let kl_global := Torch.scalar 0 in
  Ok (LossRecorder.Build loss reconst_loss kl_local kl_global).

End WVAE.

(** ** Python floats

    A Python float is a binary64 number.  The order of two such numbers,
    neither of them NaN, is the lexicographic order of their keys below
    (sign class, exponent, mantissa); it is what the comparisons of the
    Standard Library's specification compute. *)

Module Binary64.

(** The float of an array position (below 2^63), as numpy converts an
    integer. *)
Definition of_nat (n : nat) : float := PrimFloat.of_uint63 (Uint63.of_Z (Z.of_nat n)).

(** The key of a number: its sign class (-2 for minus infinity, -1 for a
    negative number, 0 for a zero, 1 for a positive number, 2 for plus
    infinity), then its exponent and its mantissa, both negated for a
    negative number. *)
Definition SFkey (f : spec_float) : Z * Z * Z :=
  match f with
  | S754_zero _ => (0, 0, 0)
  | S754_infinity s => (if s then -2 else 2, 0, 0)
  | S754_nan => (0, 0, 0)
  | S754_finite s m e => if s then (-1, - e, - Z.pos m) else (1, e, Z.pos m)
  end%Z.

(** The lexicographic order of keys. *)
Definition key_lt (a b : Z * Z * Z) : Prop :=
  (a.1.1 < b.1.1
   \/ (a.1.1 = b.1.1 /\ (a.1.2 < b.1.2 \/ (a.1.2 = b.1.2 /\ a.2 < b.2))))%Z.

End Binary64.

(** ** pandas and numpy values *)

Module Pandas.
Import Binary64.

(** A [pd.Series]: rows of (index label, value), in order.  Labels may
    repeat. *)
Abbreviation Series A := (list (string * A)).

(** What [_fdr_de_prediction] may be handed: a series or a table of
    floats. *)
Inductive pandas_obj : Type :=
| PdSeries (s : Series float)
| PdFrame (index : list string) (columns : list (string * list float)).

Definition ndim (p : pandas_obj) : nat :=
  match p with
  | PdSeries _ => 1
  | PdFrame _ _ => 2
  end.

(** Descending order on the value [f] of a row: the later row is not
    above the earlier one. *)
Definition desc_by {A} (f : A -> float) : relation A :=
  fun a b => (f a <? f b)%float = false.

#[global] Instance desc_by_dec {A} (f : A -> float) (a b : A) : Decision (desc_by f a b).
Proof. unfold desc_by. apply _. Defined.

(** A row put into rows that are in descending order: behind the rows
    above it, in front of the rows it equals. *)
Fixpoint insert_desc {A} (f : A -> float) (x : A) (l : list A) : list A :=
  match l with
  | [] => [x]
  | y :: l' => if (f x <? f y)%float then y :: insert_desc f x l' else x :: l
  end.

(** [s.sort_values(ascending=False)]: the rows in descending order of
    their values, the rows whose value is NaN last.  Rows with equal
    values, and the NaN rows, keep their relative order, as pandas orders
    them with a stable sort; numpy's default sort is stable on short arrays
    and promises no order between equal values on long ones. *)
Definition sort_values_desc {A} (f : A -> float) (rows : list A) : list A :=
  foldr (insert_desc f) [] (filter (fun r => is_nan (f r) = false) rows)
  ++ filter (fun r => is_nan (f r) = true) rows.

(** [np.cumsum]: the running sums, left to right, each one rounded. *)
Fixpoint cumsum_from (acc : float) (l : list float) : list float :=
  match l with
  | [] => []
  | x :: r => (acc + x)%float :: cumsum_from (acc + x)%float r
  end.
Definition np_cumsum (l : list float) : list float :=
  match l with
  | [] => []
  | x :: r => x :: cumsum_from x r
  end.

(** [s.cumsum()]: a NaN counts as 0 in the sums and stays NaN in the
    result. *)
Definition cumsum (l : list float) : list float :=
  zip_with (fun x c => if is_nan x then nan else c) l
           (np_cumsum ((fun x => if is_nan x then 0%float else x) <$> l)).

(** [np.arange(n)], converted to floats by the addition it enters. *)
Definition arange (n : nat) : list float := of_nat <$> seq 0 n.

(** [s.loc[labels]]: for each label in turn, every row carrying it;
    [KeyError] for a label that no row carries. *)
Definition loc {A} (s : Series A) (labels : list string) : result (Series A) :=
  (fun rows => concat rows) <$> mapM (M := result)
    (fun l => match filter (fun r => r.1 = l) s with
              | [] => Raise (KeyError l)
              | rows => Ok rows
              end) labels.

(** [s.iloc[:d] = v] *)
Definition iloc_set_prefix {A} (d : nat) (v : A) (s : Series A) : Series A :=
  ((fun r => (r.1, v)) <$> take d s) ++ drop d s.

(** A table: index labels and named columns of cells. *)
Inductive cell : Type :=
| CFloat (x : float)
| CBool (b : bool)
| CStr (s : string)
| CNaN.

Record DataFrame : Type := {
  df_index : list string;
  df_columns : gmap string (list cell)
}.

(** [pd.DataFrame(d, index=index)] for a dictionary of float arrays. *)
Definition DataFrame_of_dict (d : gmap string (list float)) (index : list string)
    : result DataFrame :=
  if bool_decide (map_Forall (fun _ col => length col = length index) d)
  then Ok {| df_index := index; df_columns := (fun col : list float => CFloat <$> col) <$> d |}
  else Raise (ValueError "Length of values does not match length of index").

Definition cell_float (c : cell) : result float :=
  match c with
  | CFloat x => Ok x
  | _ => Raise TypeError
  end.

(** [df[key]] as a series. *)
Definition column (df : DataFrame) (key : string) : result (Series cell) :=
  col ← getitem (df_columns df) key;
  Ok (zip (df_index df) col).

Definition float_column (df : DataFrame) (key : string) : result (Series float) :=
  col ← getitem (df_columns df) key;
  vals ← mapM (M := result) cell_float col;
  Ok (zip (df_index df) vals).

(** [df.sort_values(by=key, ascending=False)]: the rows are permuted as the
    key column is. *)
Definition sort_frame_desc (df : DataFrame) (key : string) : result DataFrame :=
  col ← float_column df key;
  let order := (sort_values_desc snd (zip (seq 0 (length col)) col.*2)).*1 in
  let permute {A} (l : list A) : list A := omap (fun i => l !! i) order in
  Ok {| df_index := permute (df_index df);
        df_columns := (fun c : list cell => permute c) <$> df_columns df |}.

(** [df[key] = s] for a series [s]: positional when the two indexes are
    equal, aligned on the labels otherwise. *)
Definition set_column (df : DataFrame) (key : string) (s : Series cell)
    : result DataFrame :=
  if bool_decide (s.*1 = df_index df)
  then Ok {| df_index := df_index df; df_columns := <[key := s.*2]> (df_columns df) |}
  else if bool_decide (NoDup s.*1)
  then Ok {| df_index := df_index df;
             df_columns :=
               <[key := (fun l => default CNaN ((fun ir => snd (snd ir))
                                          <$> list_find (fun r => r.1 = l) s))
                          <$> df_index df]> (df_columns df) |}
  else Raise (ValueError "cannot reindex on an axis with duplicate labels").

(** [df[key] = v] for a scalar [v]. *)
Definition set_column_const (df : DataFrame) (key : string) (v : cell) : DataFrame :=
  {| df_index := df_index df;
     df_columns := <[key := replicate (length (df_index df)) v]> (df_columns df) |}.

(** [pd.concat(frames, axis=0)]: rows in order, columns united, absent
    cells NaN. *)
Definition concat_frames (frames : list DataFrame) : result DataFrame :=
  match frames with
  | [] => Raise (ValueError "No objects to concatenate")
  | _ =>
      let names := elements (⋃ ((fun f => dom (df_columns f)) <$> frames)) in
      let col_of (name : string) (f : DataFrame) : list cell :=
        default (replicate (length (df_index f)) CNaN) (df_columns f !! name) in
      Ok {| df_index := frames ≫= df_index;
            df_columns := list_to_map ((fun name => (name, frames ≫= col_of name)) <$> names) |}
  end.

End Pandas.

(** ** scvi/model/base/_utils.py *)

Module Utils.
Import Binary64 Pandas.

Definition _fdr_de_prediction (posterior_probas : pandas_obj) (fdr : float)
    : result (Series bool) :=
  if negb (ndim posterior_probas =? 1)
  then Raise (ValueError "posterior_probas should be 1-dimensional")
  else
    match posterior_probas with
    | PdFrame _ _ => Raise TypeError                        (* not reached *)
    | PdSeries s =>
        let original_index := s.*1 in
        let sorted_pgs := sort_values_desc snd s in
        let cumulative_fdr :=
          zip_with PrimFloat.div
                   (cumsum ((fun p => 1 - p)%float <$> sorted_pgs.*2))
                   ((fun i => 1 + i)%float <$> arange (length sorted_pgs)) in
        let d := sum_list ((fun c => if (c <=? fdr)%float then 1 else 0)
                             <$> cumulative_fdr) in
        let is_pred_de := (fun l => (l, false)) <$> sorted_pgs.*1 in
        let is_pred_de := iloc_set_prefix d true is_pred_de in
        loc is_pred_de original_index
    end.

(** A column of [adata.obs]: one label per cell and, when the column has
    the categorical dtype, the categories it declares (which may name
    labels that no cell carries). *)
Record obs_column : Type := ObsColumn {
  labels : list string;
  declared : option (list string)
}.

(** A column made from an array of strings. *)
Definition of_array (a : list string) : obs_column :=
  {| labels := a; declared := None |}.

(** The [adata] object: the number of cells and the columns of its [obs]
    table. *)
Record AnnData : Type := {
  n_obs : nat;
  obs : gmap string obs_column
}.

(** A population given by the caller: a boolean mask, an array of cell
    positions, or a query string over the [obs] columns. *)
Inductive population : Type :=
| ByMask (m : list bool)
| ByIndices (l : list Z)
| ByQuery (q : string).

(** A numpy index array of boolean or integer type. *)
Inductive ndarray_index : Type :=
| BoolIndex (m : list bool)
| IntIndex (l : list Z).

(** [a[ix] = v] on a one-dimensional array. *)
Definition np_setitem (a : list string) (ix : ndarray_index) (v : string)
    : result (list string) :=
  match ix with
  | BoolIndex m =>
      if bool_decide (length m = length a)
      then Ok (zip_with (fun (b : bool) old => if b then v else old) m a)
      else Raise IndexError
  | IntIndex l =>
      pos ← mapM (M := result) (Shape.norm_dim (length a)) l;
      Ok (foldl (fun acc i => <[i := v]> acc) a pos)
  end.

(** [a[ix].shape[0]] *)
Definition np_getitem_len (a : list string) (ix : ndarray_index) : result nat :=
  match ix with
  | BoolIndex m =>
      if bool_decide (length m = length a)
      then Ok (length (filter (fun b : bool => b) m))
      else Raise IndexError
  | IntIndex l =>
      pos ← mapM (M := result) (Shape.norm_dim (length a)) l;
      Ok (length pos)
  end.

(** [[c == v for c in col]] *)
Definition eq_mask (col : list string) (v : string) : list bool :=
  (fun c => bool_decide (c = v)) <$> col.

(** [col.astype("category").cat.categories.tolist()]: the categories a
    categorical column declares; for any other column the distinct labels,
    sorted. *)
Definition label_le : relation string := fun a b => Is_true (String.leb a b).
#[global] Instance label_le_dec a b : Decision (label_le a b) := _.
Definition categories (col : obs_column) : list string :=
  match declared col with
  | Some cats => cats
  | None => merge_sort label_le (remove_dups (labels col))
  end.

(** *** The [obs] table as state

    [_de_core] writes to [adata.obs] and may raise afterwards: a computation
    takes the current [adata] and returns the [adata] it leaves behind
    together with its value or exception. *)

Definition de (A : Type) : Type := AnnData -> AnnData * result A.

#[global] Instance de_ret : MRet de := fun A a s => (s, Ok a).
#[global] Instance de_bind : MBind de :=
  fun A B f m s =>
    match m s with
    | (s', Ok a) => f a s'
    | (s', Raise e) => (s', Raise e)
    end.

Definition lift {A} (r : result A) : de A := fun s => (s, r).
Definition get_adata : de AnnData := fun s => (s, Ok s).

(** [adata.obs[key]] *)
Definition obs_getitem (key : option string) : de obs_column :=
  fun s => (s, match key with
               | Some k => getitem (obs s) k
               | None => Raise (KeyError "None")
               end).

(** [adata.obs[key] = col] for an array [col] *)
Definition obs_setitem (key : string) (col : list string) : de unit :=
  fun s =>
    if bool_decide (length col = n_obs s)
    then ({| n_obs := n_obs s; obs := <[key := of_array col]> (obs s) |}, Ok tt)
    else (s, Raise (ValueError "Length of values does not match length of index")).

(** [del adata.obs[key]] *)
Definition obs_delitem (key : string) : de unit :=
  fun s =>
    match obs s !! key with
    | Some _ => ({| n_obs := n_obs s; obs := delete key (obs s) |}, Ok tt)
    | None => (s, Raise (KeyError key))
    end.

(** The [group1] argument: [None], one label, or a list of labels. *)
Inductive group_spec : Type :=
| GNone
| GLabel (g : string)
| GList (l : list string).

Section DE.

(** [obs_df.index.isin(obs_df.query(q).index)]: the evaluation of a query
    string by pandas. *)
Variable query : gmap string obs_column -> string -> result (list bool).

(** [DifferentialComputation(model_fn, representation_fn, adata_manager)
    .get_bayes_factors(cell_idx1, cell_idx2, mode=, delta=, batchid1=,
    batchid2=, use_observed_batches=)], which reads [adata] and returns a
    dictionary of per-gene arrays. *)
Variable get_bayes_factors :
  AnnData -> list bool -> list bool -> string -> float ->
  option (list string) -> option (list string) -> bool ->
  result (gmap string (list float)).

(** [all_stats_fn(adata_manager, cell_idx1, cell_idx2)] *)
Variable all_stats_fn :
  AnnData -> list bool -> list bool -> result (gmap string (list float)).

(** [f"{fdr}"] *)
Variable repr_float : float -> string.

Definition ravel_idx (my_idx : population) (obs_df : gmap string obs_column)
    : result ndarray_index :=
  match my_idx with
  | ByQuery q => BoolIndex <$> query obs_df q
  | ByMask m => Ok (BoolIndex m)
  | ByIndices l => Ok (IntIndex l)
  end.

Definition _prepare_obs (idx1 : population) (idx2 : option population)
    (adata : AnnData) : result (list string * list string * option string) :=
  let obs_df := obs adata in
  idx1 ← ravel_idx idx1 obs_df;
  let g1_key := "one" in
  let obs_col := replicate (n_obs adata) "None" in
  obs_col ← np_setitem obs_col idx1 g1_key;
  let group1 := [g1_key] in
  let group2 := match idx2 with None => None | Some _ => Some "two" end in
  '(obs_col, idx2) ← match idx2 with
                     | Some i2 =>
                         i2 ← ravel_idx i2 obs_df;
                         obs_col ← np_setitem obs_col i2 "two";
                         Ok (obs_col, Some i2)
                     | None => Ok (obs_col, None)
                     end;
  n1 ← np_getitem_len obs_col idx1;
  empty ← (if n1 =? 0 then Ok true
           else n2 ← match idx2 with
                     | Some i2 => np_getitem_len obs_col i2
                     | None => Ok 1               (* obs_col[None] has shape (1, n) *)
                     end;
                Ok (n2 =? 0));
  if empty : bool then Raise (ValueError "One of idx1 or idx2 has size zero.")
  else Ok (obs_col, group1, group2).

Definition _de_core (groupby : option string) (group1 : group_spec)
    (group2 : option string) (idx1 idx2 : option population)
    (all_stats : bool) (col_names : list string) (mode : string)
    (batchid1 batchid2 : option (list string)) (delta : float)
    (batch_correction : bool) (fdr : float) (silent : bool) : de DataFrame :=
  group1 ← match group1, idx1 with
           | GNone, None =>
               col ← obs_getitem groupby;
               let group1 := categories col in
               if length group1 =? 1
               then lift (Raise (ValueError
                      "Only a single group in the data. Can't run DE on a single group."))
               else mret group1
           | GNone, Some _ => mret []            (* [None]; replaced just below *)
           | GLabel g, _ => mret [g]
           | GList l, _ => mret l
           end;
  (* make a temp obs key using indices *)
  '(groupby, group1, group2, temp_key) ←
    match idx1 with
    | Some i1 =>
        adata ← get_adata;
        '(obs_col, group1, group2) ← lift (_prepare_obs i1 idx2 adata);
        let temp_key := "_scvi_temp_de" in
        _ ← obs_setitem temp_key obs_col;
        mret (Some temp_key, group1, group2, Some temp_key)
    | None => mret (groupby, group1, group2, None)
    end;
  df_results ←
    mapM (M := de) (fun g1 =>
      col1 ← obs_getitem groupby;
      let cell_idx1 := eq_mask (labels col1) g1 in
      cell_idx2 ← match group2 with
                  | None => mret (fmap (M := list) negb cell_idx1)
                  | Some g2 => col2 ← obs_getitem groupby; mret (eq_mask (labels col2) g2)
                  end;
      adata ← get_adata;
      all_info ← lift (get_bayes_factors adata cell_idx1 cell_idx2 mode delta
                         batchid1 batchid2 (negb batch_correction));
      all_info ← (if all_stats
                  then genes_properties_dict ←
                         lift (all_stats_fn adata cell_idx1 cell_idx2);
                       mret (genes_properties_dict ∪ all_info)
                  else mret all_info);
      res ← lift (DataFrame_of_dict all_info col_names);
      let sort_key := if bool_decide (mode = "change") then "proba_de"
                      else "bayes_factor" in
      res ← lift (sort_frame_desc res sort_key);
      res ← (if bool_decide (mode = "change")
             then proba_de ← lift (float_column res "proba_de");
                  flags ← lift (_fdr_de_prediction (PdSeries proba_de) fdr);
                  lift (set_column res (String.append "is_de_fdr_" (repr_float fdr))
                                   (fmap (M := list) (fun r => (r.1, CBool r.2)) flags))
             else mret res);
      let res := match idx1 with
                 | None =>
                     let g2 := default "Rest" group2 in
                     let res := set_column_const res "comparison"
                                  (CStr (String.append g1 (String.append " vs " g2))) in
                     let res := set_column_const res "group1" (CStr g1) in
                     set_column_const res "group2" (CStr g2)
                 | Some _ => res
                 end in
      mret res) group1;
  _ ← match temp_key with
      | Some k => obs_delitem k
      | None => mret tt
      end;
  lift (concat_frames df_results).

End DE.
End Utils.

(** ** scvi/train/_trainrunner.py *)

Module TrainRunner.

(** One metric of a training history: a table with a named integer index
    and one value per row. *)
Record Frame : Type := {
  index_name : option string;
  rows : list (Z * Q)
}.

(** [len(df)] *)
Definition len (df : Frame) : nat := length (rows df).

(** [np.arange(a, b)] *)
Definition arange (a b : nat) : list Z := Z.of_nat <$> seq a (b - a).

(** [df.index = index] for an array [index]: the new index has no name. *)
Definition set_index (df : Frame) (index : list Z) : Frame :=
  {| index_name := None; rows := zip index (rows df).*2 |}.

(** [pd.concat([a, b])]: the index keeps its name when both agree. *)
Definition concat (a b : Frame) : Frame :=
  {| index_name := if bool_decide (index_name a = index_name b)
                   then index_name a else None;
     rows := rows a ++ rows b |}.

(** [df.index.name = name] *)
Definition set_index_name (df : Frame) (name : option string) : Frame :=
  {| index_name := name; rows := rows df |}.

(** The value of [model.history_]: [None], a dictionary of metrics, or
    some other object. *)
Inductive history_attr : Type :=
| HistNone
| HistDict (d : gmap string Frame)
| HistOther.

(** The attribute [trainer.logger.history]: absent, a dictionary of its
    own, or the very dictionary that [model.history_] refers to (as after
    [model.history_ = trainer.logger.history]). *)
Inductive logger_history : Type :=
| NoHistoryAttr
| History (d : gmap string Frame)
| SharedWithModel.

(** The objects [_update_history] reads and writes. *)
Record t : Type := {
  model_is_trained_ : bool;
  model_history_ : history_attr;
  trainer_logger_history : logger_history;
  self_history_ : option history_attr       (* the runner's own attribute *)
}.

(** One round of the loop when the logger has a dictionary of its own:
    [st] is ([model.history_], [new_history]). *)
Definition merge_step (st : gmap string Frame * gmap string Frame)
    (item : string * Frame) : gmap string Frame * gmap string Frame :=
  let '(history_, new_history) := st in
  let '(key, val) := item in
  match new_history !! key with
  | None => st                                              (* continue *)
  | Some new =>
      let prev_len := len val in
      let new_len := len new in
      let index := arange prev_len (prev_len + new_len) in
      let new := set_index new index in
      let new_history := <[key := new]> new_history in
      let merged := set_index_name (concat val new) (index_name val) in
      (<[key := merged]> history_, new_history)
  end.

(** One round of the loop when [new_history] is [model.history_] itself:
    [val] and [new_history[key]] are one object, whose index is replaced
    before the concatenation. *)
Definition merge_step_shared (history_ : gmap string Frame)
    (item : string * Frame) : gmap string Frame :=
  let '(key, val) := item in
  let prev_len := len val in
  let new_len := len val in
  let index := arange prev_len (prev_len + new_len) in
  let val := set_index val index in
  let merged := set_index_name (concat val val) (index_name val) in
  <[key := merged]> history_.

(** The loop assigns only to the key it is visiting, so the items it sees
    are those of the dictionary before the loop. *)
Definition _update_history (self : t) : result (t * list string) :=
  if model_is_trained_ self then
    match model_history_ self with
    | HistDict history_ =>
        match trainer_logger_history self with
        | NoHistoryAttr => Raise (AttributeError "history")
        | History new_history =>
            let '(history_, new_history) :=
              foldl merge_step (history_, new_history) (map_to_list history_) in
            Ok ({| model_is_trained_ := model_is_trained_ self;
                   model_history_ := HistDict history_;
                   trainer_logger_history := History new_history;
                   self_history_ := self_history_ self |}, [])
        | SharedWithModel =>
            let history_ := foldl merge_step_shared history_ (map_to_list history_) in
            Ok ({| model_is_trained_ := model_is_trained_ self;
                   model_history_ := HistDict history_;
                   trainer_logger_history := SharedWithModel;
                   self_history_ := self_history_ self |}, [])
        end
    | _ =>
        Ok (self, ["Training history cannot be updated. Logger can be accessed from model.trainer.logger"])
    end
  else
    match trainer_logger_history self with
    | History d =>
        Ok ({| model_is_trained_ := model_is_trained_ self;
               model_history_ := HistDict d;
               trainer_logger_history := SharedWithModel;
               self_history_ := self_history_ self |}, [])
    | SharedWithModel => Ok (self, [])
    | NoHistoryAttr =>
        Ok ({| model_is_trained_ := model_is_trained_ self;
               model_history_ := model_history_ self;
               trainer_logger_history := NoHistoryAttr;
               self_history_ := Some HistNone |}, [])
    end.

End TrainRunner.

(** ** Python dictionaries in insertion order *)

Module PyDict.
Section Dict.
Context {V : Type}.

(** A [dict] with string keys: its items in insertion order, no key
    twice. *)
Definition dict : Type := list (string * V).

Definition wf (d : dict) : Prop := NoDup d.*1.

(** [d.get(k)] *)
Fixpoint get (d : dict) (k : string) : option V :=
  match d with
  | [] => None
  | (k', v) :: r => if decide (k' = k) then Some v else get r k
  end.

(** [d[k] = v]: in place when the key is present, at the end otherwise. *)
Fixpoint set (d : dict) (k : string) (v : V) : dict :=
  match d with
  | [] => [(k, v)]
  | (k', v') :: r => if decide (k' = k) then (k, v) :: r else (k', v') :: set r k v
  end.

(** [del d[k]] for a key that is present. *)
Fixpoint remove (d : dict) (k : string) : dict :=
  match d with
  | [] => []
  | (k', v') :: r => if decide (k' = k) then r else (k', v') :: remove r k
  end.

(** [d.pop(k)]: the value and the dictionary without the key. *)
Definition pop (d : dict) (k : string) : result (V * dict) :=
  match get d k with
  | Some v => Ok (v, remove d k)
  | None => Raise (KeyError k)
  end.

(** [{k: v for (k, v) in items}] *)
Definition of_items (items : list (string * V)) : dict :=
  foldl (fun acc kv => set acc kv.1 kv.2) [] items.

End Dict.
Arguments dict : clear implicits.
End PyDict.

(** ** scvi/model/base/_utils.py: [DistributionsConcatenator] *)

Module Concatenator.
Import Shape PyDict.

(** A [torch.distributions] object: its class and, under each name of
    [arg_constraints], the tensor [getattr] returns. *)
Record distribution : Type := Distribution {
  dist_cls : string;
  dist_args : list (string * dims)
}.

(** A value of a forward-output dictionary:
    [isinstance(v, torch.distributions.Distribution)] or not. *)
Inductive output : Type :=
| OutDistribution (d : distribution)
| OutOther.

(** A value of [self.storage[key]]: the class under "cls", a list of
    tensors under each parameter name. *)
Inductive slot : Type :=
| SlotCls (c : string)
| SlotList (ts : list dims).

Definition entry : Type := dict slot.
Definition storage : Type := dict entry.

(** [dict(cls=c, **params)]: a parameter named "cls" is a repeated keyword. *)
Definition new_entry (d : distribution) : result entry :=
  let params := of_items ((fun name => (name, SlotList [])) <$> (dist_args d).*1) in
  if bool_decide ("cls" ∈ params.*1) then Raise TypeError
  else Ok (("cls", SlotCls (dist_cls d)) :: params).

(** [e[name].append(t)] *)
Definition append_param (e : entry) (name : string) (t : dims) : result entry :=
  match get e name with
  | None => Raise (KeyError name)
  | Some (SlotList ts) => Ok (set e name (SlotList (ts ++ [t])))
  | Some (SlotCls _) => Raise (AttributeError "append")
  end.

(** [for param_name, param in new_params.items():
       self.storage[key][param_name].append(param)]: the storage as the
    loop leaves it, and [None] or the exception that ended it. *)
Fixpoint append_all (st : storage) (key : string) (new_params : dict dims)
    : storage * result unit :=
  match new_params with
  | [] => (st, Ok tt)
  | (name, t) :: rest =>
      match get st key with
      | None => (st, Raise (KeyError key))
      | Some e =>
          match append_param e name t with
          | Raise x => (st, Raise x)
          | Ok e' => append_all (set st key e') key rest
          end
      end
  end.

(** One round of the loop of [add_distributions]. *)
Definition add_item (st : storage) (key : string) (o : output) : storage * result unit :=
  match o with
  | OutOther => (st, Ok tt)
  | OutDistribution d =>
      match (match get st key with
             | Some _ => Ok st
             | None => e ← new_entry d; Ok (set st key e)
             end) with
      | Raise x => (st, Raise x)
      | Ok st => append_all st key (of_items (dist_args d))      (* [.cpu()] keeps shapes *)
      end
  end.

Fixpoint add_distributions (st : storage) (forward_outputs : dict output)
    : storage * result unit :=
  match forward_outputs with
  | [] => (st, Ok tt)
  | (key, o) :: rest =>
      match add_item st key o with
      | (st, Ok _) => add_distributions st rest
      | (st, Raise x) => (st, Raise x)
      end
  end.

(** [torch.cat(ts, dim)]: the tensors have the same shape but in dimension
    [dim], or are 1-D and empty (those are skipped). *)
Definition cat (ts : list dims) (dim : nat) : result dims :=
  match ts with
  | [] => Raise (RuntimeError "torch.cat(): expected a non-empty list of Tensors")
  | _ =>
      match filter (fun t => t <> [0]) ts with
      | [] => Ok [0]
      | t :: rest =>
          if bool_decide (dim < length t
                          /\ Forall (fun u => <[dim := 0]> u = <[dim := 0]> t) rest)
          then Ok (<[dim := sum_list ((fun u => default 0 (u !! dim)) <$> t :: rest)]> t)
          else Raise (RuntimeError "Sizes of tensors must match except in the cat dimension")
      end
  end.

Definition _find_concat_dim (my_list : list dims) : result nat :=
  match my_list with
  | [] => Raise IndexError                                 (* [my_list[0]] *)
  | t :: _ =>
      let ndims := length t in
      if ndims =? 2 then Ok 0
      else if ndims =? 3 then Ok 1
      else Raise (ValueError "Only 2D and 3D tensors are supported.")
  end.

(** [torch.cat(value, dim=self._find_concat_dim(value))] for one item of
    [dist_props]. *)
Definition concat_param (item : string * slot) : result (string * dims) :=
  match item.2 with
  | SlotList value =>
      dim ← _find_concat_dim value;
      t ← cat value dim;
      Ok (item.1, t)
  | SlotCls _ => Raise TypeError
  end.

Section Classes.

(** The distribution classes: [init c kwargs] is the call [c( **kwargs )]
    of the class named [c], which returns the tensors of the object it
    builds, under the names of [arg_constraints], or raises when the class
    rejects the keywords (as [Bernoulli] does when it is given both [probs]
    and [logits]). *)
Variable init : string -> dict dims -> result (dict dims).

(** [dist_cls( **concat_params )]: the class is called with the
    concatenated parameters as keywords. *)
Definition construct (dist_cls : slot) (concat_params : dict dims) : result distribution :=
  match dist_cls with
  | SlotCls c => args ← init c concat_params; Ok (Distribution c args)
  | SlotList _ => Raise TypeError                           (* a list is not callable *)
  end.

(** [get_concatenated_distributions]: the storage as the call leaves it
    (["cls"] is popped from every entry it visits) and the dictionary of
    distributions or the exception. *)
Fixpoint get_concatenated_distributions (st : storage)
    : storage * result (dict distribution) :=
  match st with
  | [] => ([], Ok [])
  | (dist_name, dist_props) :: rest =>
      match pop dist_props "cls" with
      | Raise x => (st, Raise x)
      | Ok (dist_cls, dist_props) =>
          match (concat_params ← mapM (M := result) concat_param dist_props;
                 construct dist_cls (of_items concat_params)) with
          | Raise x => ((dist_name, dist_props) :: rest, Raise x)
          | Ok dist =>
              let '(rest, dists) := get_concatenated_distributions rest in
              ((dist_name, dist_props) :: rest,
               (fun ds => (dist_name, dist) :: ds) <$> dists)
          end
      end
  end.

End Classes.

End Concatenator.

(** ** scvi/model/base/_utils.py: [_initialize_model] *)

Module Loading.
Import PyDict.

#[local] Unset Elimination Schemes.
(** The values of a saved attribute dictionary: a dictionary, or any other
    object (known by its [repr]). *)
Inductive pyobj : Type :=
| PyAtom (repr : string)
| PyDictObj (items : list (string * pyobj)).
#[local] Set Elimination Schemes.

(** [isinstance(v, dict)] *)
Definition is_dict (v : pyobj) : bool :=
  match v with
  | PyDictObj _ => true
  | PyAtom _ => false
  end.

(** The dictionary behind [o], for the method [attr] called on it;
    [AttributeError] when [o] is no dictionary. *)
Definition as_dict (attr : string) (o : pyobj) : result (dict pyobj) :=
  match o with
  | PyDictObj d => Ok d
  | PyAtom _ => Raise (AttributeError attr)
  end.

(** [d[k]] *)
Definition item (d : dict pyobj) (k : string) : result pyobj :=
  match get d k with
  | Some v => Ok v
  | None => Raise (KeyError k)
  end.

(** [{k: v for (i, j) in kwargs.items() for (k, v) in j.items()}] *)
Definition expand_kwargs (kwargs : dict pyobj) : result (dict pyobj) :=
  groups ← mapM (M := result) (fun ij => as_dict "items" ij.2) kwargs;
  Ok (of_items (concat groups)).

(** [if k in d.keys(): d.pop(k)] *)
Definition discard (d : dict pyobj) (k : string) : dict pyobj :=
  if bool_decide (k ∈ d.*1) then remove d k else d.

Definition no_init_params : string :=
  "No init_params_ were saved by the model. Check out the developers guide if creating custom models.".

Section InitializeModel.

(** The model class and the data it is given: [cls adata kw] is
    [cls(adata, **kw)]; [setattr model attr val] is the model after
    [setattr(model, attr, val)]. *)
Context {Data Model : Type}.
Variable cls : Data -> dict pyobj -> result Model.
Variable setattr : Model -> string -> pyobj -> result Model.

(** [cls(adata, **non_kwargs, **kwargs)]: a key in both dictionaries is a
    repeated keyword argument. *)
Definition keyword_call (adata : Data) (non_kwargs kwargs : dict pyobj) : result Model :=
  if bool_decide (Exists (fun k => k ∈ kwargs.*1) non_kwargs.*1)
  then Raise TypeError
  else cls adata (non_kwargs ++ kwargs).

(** [for attr, val in attr_dict.items(): setattr(model, attr, val)] *)
Fixpoint set_attributes (model : Model) (attrs : dict pyobj) : result Model :=
  match attrs with
  | [] => Ok model
  | (attr, val) :: rest => model ← setattr model attr val; set_attributes model rest
  end.

(** The caller's [attr_dict] as the call leaves it, and the model or the
    exception. *)
Definition _initialize_model (adata : Data) (attr_dict : dict pyobj)
    : dict pyobj * result Model :=
  if bool_decide ("init_params_" ∉ attr_dict.*1)
  then (attr_dict, Raise (ValueError no_init_params))
  else
    match pop attr_dict "init_params_" with
    | Raise x => (attr_dict, Raise x)
    | Ok (init_params, attr_dict) =>
        (attr_dict,
         init_params ← as_dict "keys" init_params;
         '(non_kwargs, kwargs) ←
           (if bool_decide ("non_kwargs" ∈ init_params.*1)
            then non_kwargs ← item init_params "non_kwargs";
                 kwargs ← item init_params "kwargs";
                 kwargs ← as_dict "items" kwargs;
                 kwargs ← expand_kwargs kwargs;
                 Ok (non_kwargs, kwargs)
            else let non_kwargs := filter (fun kv => is_dict kv.2 = false) init_params in
                 let kwargs := filter (fun kv => is_dict kv.2 = true) init_params in
                 kwargs ← expand_kwargs kwargs;
                 popped ← pop non_kwargs "use_cuda";
                 Ok (PyDictObj popped.2, kwargs));
         non_kwargs ← as_dict "keys" non_kwargs;
         let non_kwargs := discard non_kwargs "unlabeled_category" in
         let non_kwargs := discard non_kwargs "pretrained_model" in
         model ← keyword_call adata non_kwargs kwargs;
         set_attributes model attr_dict)
    end.

End InitializeModel.

(** Every dictionary in [o] has each key once, as Python dictionaries
    have. *)
Fixpoint dicts_wf (o : pyobj) : Prop :=
  match o with
  | PyAtom _ => True
  | PyDictObj items =>
      NoDup items.*1
      /\ (fix all (l : list (string * pyobj)) : Prop :=
            match l with
            | [] => True
            | kv :: r => dicts_wf kv.2 /\ all r
            end) items
  end.

End Loading.

(** * Statements

    The notions the properties below are stated with. *)

(** ** The loss as the spec words it, entry by entry *)

Module Estimator.
Import Torch.

(** [sum_{i < n} f i] *)
Definition Rsum (n : nat) (f : nat -> R) : R := foldr Rplus 0%R (f <$> seq 0 n).

(** Entry [(p, c)] of a (particles x cells) matrix stored row-major. *)
Definition entry (t : tensor) (C p c : nat) : dual :=
  default dzero (data t !! (p * C + c)).

(** ELBO: the negative mean of the log-ratios over all entries. *)
Definition elbo_value (P C : nat) (lr : tensor) : R :=
  (- (Rsum P (fun p => Rsum C (fun c => value (entry lr C p c))) / INR (P * C)))%R.

Definition elbo_grad (P C : nat) (lr : tensor) : R :=
  (- (Rsum P (fun p => Rsum C (fun c => grad (entry lr C p c))) / INR (P * C)))%R.

(** Self-normalised importance weight of particle [p] for cell [c]: the
    softmax of the log-ratios of that cell over the particles. *)
Definition importance_weight (P C : nat) (lr : tensor) (p c : nat) : R :=
  (exp (value (entry lr C p c)) / Rsum P (fun q => exp (value (entry lr C q c))))%R.

(** IWELBO: the negative mean over cells of the weighted sum of the
    log-ratios over particles. *)
Definition iwelbo_value (P C : nat) (lr : tensor) : R :=
  (- (Rsum C (fun c => Rsum P (fun p =>
        importance_weight P C lr p c * value (entry lr C p c))) / INR C))%R.

(** Its derivative when the weights are detached: they enter as
    constants. *)
Definition iwelbo_grad (P C : nat) (lr : tensor) : R :=
  (- (Rsum C (fun c => Rsum P (fun p =>
        importance_weight P C lr p c * grad (entry lr C p c))) / INR C))%R.

(** A matrix given by its entries: rows [ps], columns [0 .. C-1]. *)
Definition tab {A} (ps : list nat) (C : nat) (g : nat -> nat -> A) : list (list A) :=
  (fun p => (fun c => g p c) <$> seq 0 C) <$> ps.

End Estimator.

(** ** One inference call followed by the matching generative call *)

Module Forward.
Import Shape WVAE.

(** The tensors of one batch. *)
Record batch : Type := {
  x : dims;
  batch_index : dims;
  y : option dims;
  cont_covs : option dims;
  cat_covs : option dims
}.

(** A batch of [C] cells for the module [self]. *)
Definition batch_of (self : WVAE.t) (C : nat) (b : batch) : Prop :=
  x b = [C; n_input self] /\ batch_index b = [C; 1]
  /\ (y b = None \/ y b = Some [C; 1])
  /\ (cont_covs b = None \/ exists k, cont_covs b = Some [C; k])
  /\ (cat_covs b = None \/ exists m, cat_covs b = Some [C; m]).

(** [generative] receives [z] and [library] from the outputs of
    [inference], and the tensors of the same batch. *)
Definition inference_then_generative (self : WVAE.t) (b : batch) (n_samples : option nat)
    : result (gmap string pyval * gmap string pyval) :=
  io ← inference self (x b) (batch_index b) (cont_covs b) (cat_covs b) n_samples;
  z ← getitem io "z" ≫= as_tensor;
  library ← getitem io "library" ≫= as_tensor;
  go ← generative self z library (batch_index b) (x b) (cont_covs b) (cat_covs b)
         None (y b) None;
  Ok (io, go).

(** The particle count of a call. *)
Definition particles (self : WVAE.t) (n_samples : option nat) : nat :=
  match n_samples with
  | None => n_particles self
  | Some n => n
  end.

(** The leading particle dimension: present unless there is one particle. *)
Definition particle_dims (P : nat) : dims := if P =? 1 then [] else [P].

(** A shape that carries the particle dimension in front: absent for one
    particle, leading and one rank higher otherwise. *)
Definition particle_dim_leading (P base_rank : nat) (s : dims) : Prop :=
  if P =? 1 then length s = base_rank
  else head s = Some P /\ length s = S base_rank.

Definition library_of (self : WVAE.t) (b : batch) (n_samples : option nat) : result pyval :=
  r ← inference_then_generative self b n_samples; getitem r.1 "library".

End Forward.

(** ** Posterior expected FDR, rank by rank *)

Module FDR.
Import Binary64 Pandas.

(** The sum of the first [k + 1] numbers of [l], added one after the
    other from the left, each sum rounded. *)
Definition running_sum (l : list float) (k : nat) : float :=
  match take (S k) l with
  | [] => 0%float
  | x :: r => foldl PrimFloat.add x r
  end.

(** The terms [1 - p] of the rows of the sorted series, a NaN counting
    as 0. *)
Definition terms (sorted : Series float) : list float :=
  (fun r => if is_nan (1 - r.2) then 0 else 1 - r.2)%float <$> sorted.

(** Cumulative expected FDR at position [k] of the sorted series, that is
    at rank [k + 1]: the running sum of [1 - p] over the first [k + 1]
    rows divided by the rank, in floating point; NaN where [p] is. *)
Definition cumulative_fdr_at (sorted : Series float) (k : nat) : float :=
  match sorted !! k with
  | Some r => ((if is_nan (1 - r.2) then nan else running_sum (terms sorted) k)
               / (1 + of_nat k))%float
  | None => nan
  end.

(** The cumulative expected FDR at position [k] does not exceed the
    threshold. *)
Definition within (fdr : float) (sorted : Series float) (k : nat) : Prop :=
  (cumulative_fdr_at sorted k <=? fdr)%float = true.

#[global] Instance within_dec fdr sorted k : Decision (within fdr sorted k).
Proof. unfold within. apply _. Defined.

(** The number of positions at which it does not. *)
Definition n_within (fdr : float) (sorted : Series float) : nat :=
  length (filter (within fdr sorted) (seq 0 (length sorted))).

(** The same list as [_fdr_de_prediction] builds it. *)
Definition cumulative_fdr_code (sorted : Series float) : list float :=
  zip_with PrimFloat.div
           (cumsum ((fun p => 1 - p)%float <$> sorted.*2))
           ((fun i => 1 + i)%float <$> arange (length sorted)).

(** The number of entries not above the threshold, as the code counts
    them. *)
Definition count_le (fdr : float) (cs : list float) : nat :=
  sum_list ((fun c => if (c <=? fdr)%float then 1 else 0) <$> cs).

End FDR.

(** ** Populations and the [obs] table *)

Module Masks.
Import Utils.

(** Cell [i] is selected by the index array [ix] of an array of [n]
    cells. *)
Definition selects (n : nat) (ix : ndarray_index) (i : nat) : Prop :=
  match ix with
  | BoolIndex m => m !! i = Some true
  | IntIndex l => exists z, z ∈ l /\ Shape.norm_dim n z = Ok i
  end.

(** A computation that leaves [adata] as it found it. *)
Definition readonly {A} (m : de A) : Prop := forall s, (m s).1 = s.

End Masks.

(** ** Merged histories *)

Module History.
Import TrainRunner.

(** What the loop stores for a metric present in both histories. *)
Definition merged (val new : Frame) : Frame :=
  set_index_name (concat val (set_index new (arange (len val) (len val + len new))))
                 (index_name val).

(** The same when both are one object. *)
Definition merged_shared (val : Frame) : Frame :=
  let val' := set_index val (arange (len val) (len val + len val)) in
  set_index_name (concat val' val') (index_name val').

Definition warning : string :=
  "Training history cannot be updated. Logger can be accessed from model.trainer.logger".

End History.

(** ** The reconstruction term of the loss *)

Module LossTerms.
Import Torch Estimator.

(** The mean over the particles of column [c] of a (particles x cells)
    matrix, for the value or the derivative of its entries. *)
Definition particle_mean (proj : dual -> R) (P C : nat) (t : tensor) (c : nat) : R :=
  (Rsum P (fun p => proj (entry t C p c)) / INR P)%R.

End LossTerms.

(** ** Batches the forward pass accepts *)

Module Ready.
Import Shape WVAE.

(** The dispersion settings [generative] knows, with the labels that the
    per-label setting needs. *)
Definition dispersion_ready (self : WVAE.t) (y : option dims) : Prop :=
  dispersion self = "gene" \/ dispersion self = "gene-batch"
  \/ dispersion self = "gene-cell"
  \/ (dispersion self = "gene-label" /\ y <> None).

(** The number of columns of a covariate tensor, 0 when there is none. *)
Definition n_columns (c : option dims) : nat :=
  match c with
  | Some s => default 0 (last s)
  | None => 0
  end.

(** The covariates of a batch are those the module is configured for:
    as many continuous covariates, and as many categorical ones. *)
Definition covariates_ready (self : WVAE.t) (cont_covs cat_covs : option dims) : Prop :=
  n_columns cont_covs = n_continuous_cov self /\ n_columns cat_covs = n_cat_covs self.

(** The same for the encoder, which reads the covariates only when
    covariate-encoding is enabled. *)
Definition encoder_ready (self : WVAE.t) (cont_covs cat_covs : option dims) : Prop :=
  encode_covariates self = true -> covariates_ready self cont_covs cat_covs.

End Ready.

(** ** Cells selected by a population *)

Module Labels.
Import Utils Masks.

(** Cell [i] is selected by the population [idx] of a call on [adata]
    ([None] selects no cell). *)
Definition selected_by (query : gmap string obs_column -> string -> result (list bool))
    (adata : AnnData) (idx : option population) (i : nat) : Prop :=
  match idx with
  | None => False
  | Some p => exists ix, ravel_idx query p (obs adata) = Ok ix /\ selects (n_obs adata) ix i
  end.

End Labels.

(** ** The index of a metric *)

Module Epochs.
Import TrainRunner.

(** The index of a metric counts its rows from 0. *)
Definition contiguous (f : Frame) : Prop := (rows f).*1 = arange 0 (len f).

(** A frame with its rows re-indexed from [start]. *)
Definition reindexed (start : nat) (f : Frame) : Frame :=
  set_index f (arange start (start + len f)).

End Epochs.

(** ** Minibatches fed to the concatenator *)

Module Minibatches.
Import Shape PyDict Concatenator.

(** The forward outputs of one minibatch of [cells] cells: under [key], a
    distribution of class [c] whose parameters have the shapes
    [lead ++ [cells; g]], one trailing size [g] per parameter name. *)
Definition batch_output (key c : string) (lead : dims) (template : list (string * nat))
    (cells : nat) : dict output :=
  [(key, OutDistribution
           (Distribution c ((fun p => (p.1, lead ++ [cells; p.2])) <$> template)))].

(** [for outputs in batches: concatenator.add_distributions(outputs)] *)
Fixpoint feed (st : storage) (batches : list (dict output)) : storage * result unit :=
  match batches with
  | [] => (st, Ok tt)
  | b :: rest =>
      match add_distributions st b with
      | (st, Ok _) => feed st rest
      | (st, Raise x) => (st, Raise x)
      end
  end.

(** The parameters stored for one key: for each name the tensors of the
    minibatches seen so far. *)
Definition stored (lead : dims) (template : list (string * nat)) (cells : list nat)
    : dict slot :=
  (fun p => (p.1, SlotList ((fun n => lead ++ [n; p.2]) <$> cells))) <$> template.

End Minibatches.

(** ** The keywords a saved model is rebuilt with *)

Module Keywords.
Import PyDict Loading.

(** The dictionary [d] without the keys [ks], in the order of [d]. *)
Definition without (ks : list string) (d : dict pyobj) : dict pyobj :=
  filter (fun kv => kv.1 ∉ ks) d.

(** The items of the dictionaries that are the values of [groups], group
    after group. *)
Definition group_items (groups : dict pyobj) : list (string * pyobj) :=
  groups ≫= (fun ij => match ij.2 with PyDictObj d => d | PyAtom _ => [] end).

(** What saved initial parameters hold: the parameters passed by name and
    the groups of keyword parameters.  In the current format they are the
    dictionaries under "non_kwargs" and "kwargs"; in the legacy format, the
    values that are no dictionary, "use_cuda" apart, and the values that
    are one. *)
Definition saved_parameters (init_params non_kwargs groups : dict pyobj) : Prop :=
  if bool_decide ("non_kwargs" ∈ init_params.*1)
  then get init_params "non_kwargs" = Some (PyDictObj non_kwargs)
       /\ get init_params "kwargs" = Some (PyDictObj groups)
  else "use_cuda" ∈ init_params.*1
       /\ non_kwargs = without ["use_cuda"]
                         (filter (fun kv => is_dict kv.2 = false) init_params)
       /\ groups = filter (fun kv => is_dict kv.2 = true) init_params.

End Keywords.

(** ** Concrete inputs *)

Module Examples.

Definition wvae (loss_type : string) (observed : bool) : WVAE.t :=
  {| WVAE.n_input := 4; WVAE.n_batch := 2; WVAE.n_labels := 3; WVAE.n_latent := 5;
     WVAE.n_particles := 25; WVAE.loss_type := loss_type;
     WVAE.n_continuous_cov := 0; WVAE.n_cats_per_cov := None; WVAE.dispersion := "gene";
     WVAE.log_variational := true; WVAE.encode_covariates := false;
     WVAE.use_observed_lib_size := observed |}.

Definition keys : WVAE.registry_keys :=
  {| WVAE.X_KEY := "X"; WVAE.BATCH_KEY := "batch"; WVAE.LABELS_KEY := "labels";
     WVAE.CONT_COVS_KEY := "extra_continuous_covs";
     WVAE.CAT_COVS_KEY := "extra_categorical_covs";
     WVAE.SIZE_FACTOR_KEY := "size_factor" |}.

(** Three cells over four genes. *)
Definition batch3 : Forward.batch :=
  {| Forward.x := [3; 4]; Forward.batch_index := [3; 1]; Forward.y := Some [3; 1];
     Forward.cont_covs := None; Forward.cat_covs := None |}.

Definition tensors3 : gmap string Shape.pyval :=
  {[ "X" := Shape.PyTensor [3; 4]; "batch" := Shape.PyTensor [3; 1];
     "labels" := Shape.PyTensor [3; 1] ]}.

Definition latents3 : gmap string Shape.pyval :=
  {[ "z" := Shape.PyTensor [100; 3; 5]; "library" := Shape.PyTensor [100; 3; 1] ]}.

(** Constant tensors of rank 1 and 2. *)
Definition vector (l : list R) : Torch.tensor :=
  Torch.Tensor [length l] (Torch.dconst <$> l).
Definition matrix (rows cols : nat) (l : list R) : Torch.tensor :=
  Torch.Tensor [rows; cols] (Torch.dconst <$> l).

Definition outputs (t : Torch.tensor) : gmap string Torch.tensor * gmap string Torch.tensor :=
  ({[ "log_qjoint" := t ]}, {[ "log_pjoint" := t; "log_px_latents" := t ]}).

Definition probas : Pandas.Series float :=
  [("gene1", 0.9); ("gene2", 0.8); ("gene3", 0.7); ("gene4", 0.1); ("gene5", 0.05)]%float.

Definition query : gmap string Utils.obs_column -> string -> result (list bool) :=
  fun _ _ => Raise (ValueError "query").

Definition bayes_factors :
    Utils.AnnData -> list bool -> list bool -> string -> float ->
    option (list string) -> option (list string) -> bool ->
    result (gmap string (list float)) :=
  fun _ _ _ _ _ _ _ _ => Ok {[ "bayes_factor" := [1; 3]%float ]}.

Definition all_stats :
    Utils.AnnData -> list bool -> list bool -> result (gmap string (list float)) :=
  fun _ _ _ => Ok ∅.

Definition repr : float -> string := fun _ => "0.05".

(** A mask-based call on three cells: cell 0 against cell 1. *)
Definition de_masks (adata : Utils.AnnData) : Utils.AnnData * result Pandas.DataFrame :=
  Utils._de_core query bayes_factors all_stats repr None Utils.GNone None
    (Some (Utils.ByMask [true; false; false])) (Some (Utils.ByMask [false; true; false]))
    false ["gene_a"; "gene_b"] "vanilla" None None 0.25%float true 0.05%float true adata.

Definition history_frame (l : list (Z * Q)) : TrainRunner.Frame :=
  {| TrainRunner.index_name := Some "epoch"; TrainRunner.rows := l |}.

Definition trained (logger : TrainRunner.logger_history) : TrainRunner.t :=
  {| TrainRunner.model_is_trained_ := true;
     TrainRunner.model_history_ :=
       TrainRunner.HistDict
         {[ "elbo_train" := history_frame [(0, 5#1); (1, 4#1)]%Z;
            "elbo_validation" := history_frame [(0, 6#1)]%Z ]};
     TrainRunner.trainer_logger_history := logger;
     TrainRunner.self_history_ := None |}.

End Examples.

Module Cases.
(** Three cells over four genes, with two continuous covariates, and a
    module configured for them. *)
Definition batch3_covs : Forward.batch :=
  {| Forward.x := [3; 4]; Forward.batch_index := [3; 1]; Forward.y := Some [3; 1];
     Forward.cont_covs := Some [3; 2]; Forward.cat_covs := None |}.

Definition wvae_covs : WVAE.t :=
  {| WVAE.n_input := 4; WVAE.n_batch := 2; WVAE.n_labels := 3; WVAE.n_latent := 5;
     WVAE.n_particles := 25; WVAE.loss_type := "IWELBO";
     WVAE.n_continuous_cov := 2; WVAE.n_cats_per_cov := None; WVAE.dispersion := "gene";
     WVAE.log_variational := true; WVAE.encode_covariates := true;
     WVAE.use_observed_lib_size := false |}.
End Cases.

Module Failing.
(** A differential computation that fails. *)
Definition bayes_factors :
    Utils.AnnData -> list bool -> list bool -> string -> float ->
    option (list string) -> option (list string) -> bool ->
    result (gmap string (list float)) :=
  fun _ _ _ _ _ _ _ _ => Raise (RuntimeError "sampling failed").
End Failing.

Module Classes.
Import Shape PyDict.

(** Two classes of [torch.distributions]: [Normal] keeps the tensors it is
    given; [Bernoulli], whose [arg_constraints] name both [probs] and
    [logits], refuses to be given both. *)
Definition torch_init (c : string) (kwargs : dict dims) : result (dict dims) :=
  if bool_decide (c = "Bernoulli" /\ "probs" ∈ kwargs.*1 /\ "logits" ∈ kwargs.*1)
  then Raise (ValueError "Either `probs` or `logits` must be specified, but not both.")
  else Ok kwargs.

End Classes.

Module Saved.
Import PyDict Loading.

(** A model class that accepts every keyword and records them, with
    attributes that can all be set. *)
Definition record_cls (adata : unit) (kw : dict pyobj) : result (dict pyobj) := Ok kw.
Definition record_setattr (model : dict pyobj) (attr : string) (val : pyobj)
    : result (dict pyobj) := Ok (set model attr val).

(** A saved attribute dictionary in the current format. *)
Definition attr_dict : dict pyobj :=
  [("init_params_",
    PyDictObj [("non_kwargs", PyDictObj [("n_latent", PyAtom "10");
                                         ("unlabeled_category", PyAtom "Unknown")]);
               ("kwargs", PyDictObj [("model_kwargs",
                                      PyDictObj [("dropout_rate", PyAtom "0.1")])])]);
   ("is_trained_", PyAtom "True")].

(** One in the legacy format, saved without "use_cuda". *)
Definition legacy_attr_dict : dict pyobj :=
  [("init_params_",
    PyDictObj [("n_latent", PyAtom "10");
               ("model_kwargs", PyDictObj [("dropout_rate", PyAtom "0.1")])]);
   ("is_trained_", PyAtom "True")].

End Saved.

(** * Properties *)

(** ** Results *)

Lemma bind_Ok {A B} (m : result A) (f : A -> result B) b :
  m ≫= f = Ok b -> exists a, m = Ok a /\ f a = Ok b.
Proof. destruct m as [a|e]; simpl; [eauto | discriminate]. Qed.

Lemma fmap_Ok {A B} (m : result A) (f : A -> B) b :
  f <$> m = Ok b -> exists a, m = Ok a /\ b = f a.
Proof. destruct m as [a|e]; simpl; [intros [= <-]; eauto | discriminate]. Qed.

Lemma mapM_Ok_Forall2 {A B} (f : A -> result B) l k :
  mapM (M := result) f l = Ok k -> Forall2 (fun a b => f a = Ok b) l k.
Proof.
  revert k. induction l as [|a l IH]; simpl; intros k H.
  - injection H as <-. constructor.
  - apply bind_Ok in H as (b & Hb & H). apply bind_Ok in H as (k' & Hk & H).
    injection H as <-. constructor; auto.
Qed.

(** [step H x Hx]: the first call of a sequence [H] that returned. *)
Ltac step H x Hx :=
  apply bind_Ok in H as (x & Hx & H); cbv beta in H.

Ltac inv_binds :=
  repeat match goal with
         | H : _ ≫= _ = Ok _ |- _ =>
             let a := fresh "v" in
             let Ha := fresh "Hv" in
             apply bind_Ok in H as (a & Ha & H)
         | H : (let '(_, _) := ?p in _) = Ok _ |- _ => destruct p
         | H : Ok _ = Ok _ |- _ => injection H as H
         end.

(** ** Broadcasting *)

Lemma broadcast_rev_prefix_r a b : Torch.broadcast_rev a (a ++ b) = Ok (a ++ b).
Proof.
  induction a as [|x a IH]; simpl; [reflexivity|].
  rewrite IH. simpl. rewrite Nat.eqb_refl. reflexivity.
Qed.

Lemma broadcast_rev_prefix_l a b : Torch.broadcast_rev (a ++ b) a = Ok (a ++ b).
Proof.
  induction a as [|x a IH]; simpl; [destruct b; reflexivity|].
  rewrite IH. simpl. rewrite Nat.eqb_refl. reflexivity.
Qed.

Lemma broadcast_suffix_r p s : Torch.broadcast_shapes s (p ++ s) = Ok (p ++ s).
Proof.
  unfold Torch.broadcast_shapes. rewrite reverse_app, broadcast_rev_prefix_r. simpl.
  rewrite <- reverse_app, reverse_involutive. reflexivity.
Qed.

Lemma broadcast_suffix_l p s : Torch.broadcast_shapes (p ++ s) s = Ok (p ++ s).
Proof.
  unfold Torch.broadcast_shapes. rewrite reverse_app, broadcast_rev_prefix_l. simpl.
  rewrite <- reverse_app, reverse_involutive. reflexivity.
Qed.

Lemma broadcast_same s : Torch.broadcast_shapes s s = Ok s.
Proof. apply (broadcast_suffix_r [] s). Qed.

(** A trailing dimension of size 1 takes the size of the other side. *)
Lemma broadcast_rev_unit a b g :
  Torch.broadcast_rev (1 :: a) (g :: a ++ b) = Ok (g :: a ++ b).
Proof.
  cbn [Torch.broadcast_rev]. rewrite broadcast_rev_prefix_r. cbn [mbind result_bind].
  destruct (Nat.eqb_spec 1 g) as [<-|]; reflexivity.
Qed.

Lemma broadcast_unit_last p s g :
  Torch.broadcast_shapes (s ++ [1]) (p ++ s ++ [g]) = Ok (p ++ s ++ [g]).
Proof.
  unfold Torch.broadcast_shapes.
  replace (reverse (s ++ [1])) with (1 :: reverse s)
    by (rewrite reverse_app; reflexivity).
  replace (reverse (p ++ s ++ [g])) with (g :: reverse s ++ reverse p)
    by (rewrite !reverse_app; reflexivity).
  rewrite broadcast_rev_unit. simpl. f_equal.
  rewrite reverse_cons, reverse_app, !reverse_involutive, <- app_assoc. reflexivity.
Qed.


(** ** The loss ([WVAE.loss]) *)

Section LossProperties.
Import Torch Estimator.

Section Lists.
Context {A B D : Type}.

Lemma zip_with_fmap_same (f : A -> B -> D) {X} (g : X -> A) (h : X -> B) (l : list X) :
  zip_with f (g <$> l) (h <$> l) = (fun x => f (g x) (h x)) <$> l.
Proof. induction l as [|x l IH]; cbn; [|rewrite IH]; reflexivity. Qed.

Lemma replicate_fmap_seq (x : A) n : replicate n x = (fun _ => x) <$> seq 0 n.
Proof.
  generalize 0. induction n as [|n IH]; intros s; cbn; [|rewrite (IH (S s))]; reflexivity.
Qed.

Lemma tab_fmap (f : A -> B) ps C (g : nat -> nat -> A) :
  (fun row : list A => f <$> row) <$> tab ps C g = tab ps C (fun p c => f (g p c)).
Proof.
  unfold tab. rewrite <- list_fmap_compose. apply list_fmap_ext. intros _ p _.
  unfold compose. rewrite <- list_fmap_compose. reflexivity.
Qed.

Lemma tab_length ps C (g : nat -> nat -> A) :
  Forall (fun r => length r = C) (tab ps C g).
Proof.
  unfold tab. apply Forall_fmap, Forall_forall. intros p _. simpl.
  rewrite length_fmap, length_seq. reflexivity.
Qed.

Lemma chunks_concat C (rows : list (list A)) :
  Forall (fun r => length r = C) rows -> chunks C (length rows) (concat rows) = rows.
Proof.
  induction 1 as [|r rows Hr _ IH]; [reflexivity|].
  cbn [length chunks concat].
  rewrite take_app_length' by (symmetry; exact Hr).
  rewrite drop_app_length' by (symmetry; exact Hr).
  rewrite IH. reflexivity.
Qed.

Lemma concat_zip_with_tab (f : A -> B -> D) ps C g h :
  zip_with f (concat (tab ps C g)) (concat (tab ps C h))
  = concat (tab ps C (fun p c => f (g p c) (h p c))).
Proof.
  induction ps as [|p ps IH]; [reflexivity|].
  unfold tab in *. cbn [fmap list_fmap concat].
  rewrite zip_with_app by (rewrite !length_fmap; reflexivity).
  rewrite zip_with_fmap_same. f_equal. exact IH.
Qed.

Lemma concat_fmap_tab (f : A -> B) ps C g :
  f <$> concat (tab ps C g) = concat (tab ps C (fun p c => f (g p c))).
Proof.
  induction ps as [|p ps IH]; [reflexivity|].
  unfold tab in *. cbn [fmap list_fmap concat].
  rewrite fmap_app, <- list_fmap_compose. f_equal. exact IH.
Qed.

Lemma length_concat_tab ps C (g : nat -> nat -> A) :
  length (concat (tab ps C g)) = length ps * C.
Proof.
  induction ps as [|p ps IH]; [reflexivity|].
  unfold tab in *. cbn [fmap list_fmap concat length].
  rewrite length_app, length_fmap, length_seq, IH. lia.
Qed.
End Lists.

Lemma chunks_fmap_seq {A} k n (d : list A) :
  chunks k n d = (fun p => take k (drop (p * k) d)) <$> seq 0 n.
Proof.
  revert d. induction n as [|n IH]; intros d; [reflexivity|].
  cbn [chunks seq fmap list_fmap]. rewrite Nat.mul_0_l, drop_0. f_equal.
  rewrite IH, <- fmap_S_seq, <- list_fmap_compose.
  apply list_fmap_ext. intros _ p _. unfold compose.
  rewrite drop_drop. replace (k + p * k) with (S p * k) by lia. reflexivity.
Qed.

Lemma chunks_tab (d : list dual) P C :
  length d = P * C ->
  chunks C P d = tab (seq 0 P) C (fun p c => default dzero (d !! (p * C + c))).
Proof.
  intros Hlen. rewrite chunks_fmap_seq. unfold tab.
  apply list_fmap_ext. intros p p' Hp. apply lookup_seq in Hp as [-> Hp]. cbn [Nat.add].
  apply list_eq. intros c. rewrite list_lookup_fmap.
  destruct (decide (c < C)) as [Hc | Hc].
  - rewrite lookup_take_lt by exact Hc. rewrite lookup_drop.
    rewrite lookup_seq_lt by exact Hc. cbn [fmap option_fmap option_map Nat.add].
    destruct (lookup_lt_is_Some_2 d (p * C + c)) as [x ->]; [nia | reflexivity].
  - rewrite lookup_take_ge by lia. rewrite lookup_seq_ge by lia. reflexivity.
Qed.

Lemma concat_chunks {A} k n (d : list A) :
  length d = n * k -> concat (chunks k n d) = d.
Proof.
  revert d. induction n as [|n IH]; intros d Hlen.
  - destruct d; [reflexivity | discriminate].
  - cbn [chunks concat]. rewrite IH by (rewrite length_drop; lia).
    apply take_drop.
Qed.

Lemma data_tab (d : list dual) P C :
  length d = P * C ->
  d = concat (tab (seq 0 P) C (fun p c => default dzero (d !! (p * C + c)))).
Proof.
  intros Hlen. rewrite <- (chunks_tab d P C Hlen). symmetry.
  apply concat_chunks. exact Hlen.
Qed.

(** Sums over the entries of a matrix given by [tab]. *)
Lemma sum_rows_tab ps C (g : nat -> nat -> dual) :
  sum_rows C (tab ps C g) = (fun c => dsum ((fun p => g p c) <$> ps)) <$> seq 0 C.
Proof.
  unfold sum_rows. induction ps as [|p ps IH].
  - cbn [tab fmap list_fmap foldr]. apply replicate_fmap_seq.
  - unfold tab in *. cbn [fmap list_fmap foldr]. rewrite IH.
    rewrite zip_with_fmap_same. reflexivity.
Qed.

Lemma Rsum_ext n f g : (forall i, i < n -> f i = g i) -> Rsum n f = Rsum n g.
Proof.
  intros H. unfold Rsum. f_equal. apply list_fmap_ext. intros i i' Hi.
  apply lookup_seq in Hi as [-> Hi]. apply H. exact Hi.
Qed.

Section Additive.
Variable proj : dual -> R.
Hypothesis proj_zero : proj dzero = 0%R.
Hypothesis proj_add : forall a b, proj (dadd a b) = (proj a + proj b)%R.

Lemma proj_dsum l : proj (dsum l) = foldr Rplus 0%R (proj <$> l).
Proof.
  induction l as [|x l IH]; [exact proj_zero|].
  cbn [dsum foldr fmap list_fmap]. rewrite proj_add. f_equal. exact IH.
Qed.

Lemma proj_dsum_seq n (g : nat -> dual) :
  proj (dsum (g <$> seq 0 n)) = Rsum n (fun i => proj (g i)).
Proof. rewrite proj_dsum, <- list_fmap_compose. reflexivity. Qed.

Lemma foldr_Rplus_app l1 l2 :
  foldr Rplus 0%R (l1 ++ l2) = (foldr Rplus 0%R l1 + foldr Rplus 0%R l2)%R.
Proof.
  induction l1 as [|x l1 IH]; simpl.
  - rewrite Rplus_0_l. reflexivity.
  - rewrite IH, Rplus_assoc. reflexivity.
Qed.

Lemma proj_dsum_app a b : proj (dsum (a ++ b)) = (proj (dsum a) + proj (dsum b))%R.
Proof. rewrite !proj_dsum, fmap_app. apply foldr_Rplus_app. Qed.

Lemma proj_dsum_concat_tab P C (g : nat -> nat -> dual) :
  proj (dsum (concat (tab (seq 0 P) C g)))
  = Rsum P (fun p => Rsum C (fun c => proj (g p c))).
Proof.
  unfold Rsum at 1. unfold tab. generalize (seq 0 P) as ps.
  induction ps as [|p ps IH].
  - exact proj_zero.
  - cbn [fmap list_fmap concat foldr].
    rewrite proj_dsum_app, IH, proj_dsum_seq. reflexivity.
Qed.
End Additive.

Lemma chunks_Forall_length {A} k n (d : list A) :
  length d = n * k -> Forall (fun r => length r = k) (chunks k n d).
Proof.
  revert d. induction n as [|n IH]; intros d Hlen; [constructor|].
  cbn [chunks]. constructor.
  - rewrite length_take. lia.
  - apply IH. rewrite length_drop. lia.
Qed.

Lemma expand_data_same {A} s (d : list A) :
  length d = numel s -> expand_data s s d = d.
Proof.
  revert d. induction s as [|n s IH]; intros d Hlen; [reflexivity|].
  cbn [expand_data]. rewrite Nat.eqb_refl.
  cbn [numel foldr] in Hlen. fold (numel s) in Hlen.
  rewrite <- (concat_chunks (numel s) n d Hlen) at 2. f_equal.
  rewrite <- (list_fmap_id (chunks (numel s) n d)) at 2.
  apply Forall_fmap_ext_1.
  eapply Forall_impl; [apply chunks_Forall_length; exact Hlen|].
  intros r Hr. apply IH. exact Hr.
Qed.

Lemma binop_same_shape f a b :
  shape a = shape b -> wf a -> wf b ->
  binop f a b = Ok (Tensor (shape b) (zip_with f (data a) (data b))).
Proof.
  intros Hs Ha Hb. unfold binop. rewrite Hs.
  rewrite broadcast_same. cbn [mbind result_bind]. unfold pad_shape.
  rewrite Nat.sub_diag. cbn [replicate app].
  rewrite !expand_data_same; [reflexivity | exact Hb | rewrite <- Hs; exact Ha].
Qed.

Section Matrix.
Variables (lr : tensor) (P C : nat).
Hypothesis Hshape : shape lr = [P; C].
Hypothesis Hwf : wf lr.

Let e (p c : nat) : dual := entry lr C p c.
Let D (c : nat) : dual := dsum ((fun p => dexp (e p c)) <$> seq 0 P).

Lemma data_length : length (data lr) = P * C.
Proof. unfold wf in Hwf. rewrite Hwf, Hshape. cbn. lia. Qed.

Lemma slices_tab : slices lr = tab (seq 0 P) C e.
Proof.
  unfold slices. rewrite Hshape. cbn [numel foldr]. rewrite Nat.mul_1_r.
  apply chunks_tab. exact data_length.
Qed.

Lemma slice_numel_cells : slice_numel lr = C.
Proof. unfold slice_numel. rewrite Hshape. cbn. lia. Qed.

Lemma softmax_tab :
  softmax_dim0 lr
  = Tensor [P; C] (concat (tab (seq 0 P) C (fun p c => ddiv (dexp (e p c)) (D c)))).
Proof.
  unfold softmax_dim0. rewrite slices_tab, slice_numel_cells, Hshape.
  rewrite tab_fmap, sum_rows_tab. f_equal. f_equal.
  unfold tab. rewrite <- list_fmap_compose. apply list_fmap_ext. intros i p _.
  unfold compose. apply zip_with_fmap_same.
Qed.

Lemma weighted_tab :
  mul (detach (softmax_dim0 lr)) lr
  = Ok (Tensor [P; C]
          (concat (tab (seq 0 P) C
                     (fun p c => dmul (ddetach (ddiv (dexp (e p c)) (D c))) (e p c))))).
Proof.
  unfold mul. rewrite binop_same_shape.
  - rewrite Hshape. f_equal. f_equal. rewrite softmax_tab. cbn [detach data].
    rewrite concat_fmap_tab. rewrite (data_tab (data lr) P C data_length) at 1.
    apply concat_zip_with_tab.
  - rewrite softmax_tab, Hshape. reflexivity.
  - rewrite softmax_tab. unfold wf, detach. cbn [data shape].
    rewrite length_fmap. 
    rewrite length_concat_tab, length_seq. cbn. lia.
  - exact Hwf.
Qed.

Lemma value_D c : value (D c) = Rsum P (fun q => exp (value (e q c))).
Proof. unfold D. apply (proj_dsum_seq value); reflexivity. Qed.

Lemma sum_dim0_tab (g : nat -> nat -> dual) :
  sum_dim0 (Tensor [P; C] (concat (tab (seq 0 P) C g)))
  = Tensor [C] ((fun c => dsum ((fun p => g p c) <$> seq 0 P)) <$> seq 0 C).
Proof.
  unfold sum_dim0, slices, slice_numel. cbn [shape data tail numel foldr].
  rewrite Nat.mul_1_r. f_equal.
  replace P with (length (tab (seq 0 P) C g)) at 1
    by (unfold tab; rewrite length_fmap, length_seq; reflexivity).
  rewrite chunks_concat by apply tab_length. apply sum_rows_tab.
Qed.

Lemma iwelbo_loss :
  neg (mean (sum_dim0 (Tensor [P; C]
         (concat (tab (seq 0 P) C
                    (fun p c => dmul (ddetach (ddiv (dexp (e p c)) (D c))) (e p c)))))))
  = Tensor [] [Dual (iwelbo_value P C lr) (iwelbo_grad P C lr)].
Proof.
  rewrite sum_dim0_tab. unfold neg, mean. cbn [shape data fmap list_fmap numel foldr].
  rewrite Nat.mul_1_r. f_equal. f_equal.
  unfold dneg, ddiv_nat. cbn [value grad]. f_equal.
  - unfold iwelbo_value. f_equal. f_equal.
    rewrite (proj_dsum_seq value) by reflexivity.
    apply Rsum_ext. intros c _.
    rewrite (proj_dsum_seq value) by reflexivity.
    apply Rsum_ext. intros p _. cbn [dmul ddetach dconst ddiv dexp value].
    rewrite value_D. reflexivity.
  - unfold iwelbo_grad. f_equal. f_equal.
    rewrite (proj_dsum_seq grad) by reflexivity.
    apply Rsum_ext. intros c _.
    rewrite (proj_dsum_seq grad) by reflexivity.
    apply Rsum_ext. intros p _. cbn [dmul ddetach dconst ddiv dexp value grad].
    rewrite value_D, Rmult_0_l, Rplus_0_l. reflexivity.
Qed.

Lemma elbo_loss :
  neg (mean lr) = Tensor [] [Dual (elbo_value P C lr) (elbo_grad P C lr)].
Proof.
  unfold neg, mean. cbn [shape data fmap list_fmap]. rewrite Hshape.
  cbn [numel foldr]. rewrite Nat.mul_1_r. f_equal. f_equal.
  unfold dneg, ddiv_nat. cbn [value grad].
  assert (Hsum : forall proj : dual -> R,
             proj dzero = 0%R ->
             (forall a b, proj (dadd a b) = (proj a + proj b)%R) ->
             proj (dsum (data lr)) = Rsum P (fun p => Rsum C (fun c => proj (e p c)))).
  { intros proj H0 Hadd. rewrite <- (proj_dsum_concat_tab proj H0 Hadd).
    exact (f_equal (fun l => proj (dsum l)) (data_tab (data lr) P C data_length)). }
  rewrite (Hsum value), (Hsum grad) by reflexivity. reflexivity.
Qed.
End Matrix.


(** C1.  For every log-ratio matrix [log_pjoint - log_qjoint] of shape
    (particles x cells), [loss] returns: in ELBO mode the negative mean of
    the log-ratios over all entries; in IWELBO mode the negative mean over
    cells of the sum over particles of (softmax over the particle axis,
    detached) times the log-ratio.  Detached: the derivative of the loss
    is the same weighted sum of the derivatives of the log-ratios, with no
    term for the derivative of the weights. *)
Theorem loss_is_ratio_estimator self tensors inference_outputs generative_outputs
    kl_weight log_pjoint log_qjoint log_px_latents log_ratios P C :
  generative_outputs !! "log_pjoint" = Some log_pjoint ->
  inference_outputs !! "log_qjoint" = Some log_qjoint ->
  generative_outputs !! "log_px_latents" = Some log_px_latents ->
  sub log_pjoint log_qjoint = Ok log_ratios ->
  shape log_ratios = [P; C] ->
  wf log_ratios ->
  (WVAE.loss_type self = "ELBO" ->
   exists r, WVAE.loss self tensors inference_outputs generative_outputs kl_weight = Ok r
     /\ LossRecorder.loss r
        = Tensor [] [Dual (elbo_value P C log_ratios) (elbo_grad P C log_ratios)])
  /\ (WVAE.loss_type self = "IWELBO" ->
      exists r, WVAE.loss self tensors inference_outputs generative_outputs kl_weight = Ok r
        /\ LossRecorder.loss r
           = Tensor [] [Dual (iwelbo_value P C log_ratios) (iwelbo_grad P C log_ratios)]).
Proof.
  intros Hp Hq Hx Hsub Hshape Hwf. unfold WVAE.loss, getitem.
  rewrite Hp, Hq, Hx. cbn [mbind result_bind]. rewrite Hsub. cbn [mbind result_bind].
  rewrite (bool_decide_eq_true_2 (ndim log_ratios = 2))
    by (unfold ndim; rewrite Hshape; reflexivity).
  cbn [py_assert mbind result_bind].
  split; intros Hmode; rewrite Hmode.
  - rewrite (bool_decide_eq_true_2 ("ELBO" = "ELBO")) by reflexivity.
    cbn [mbind result_bind]. eexists. split; [reflexivity|].
    cbn [LossRecorder.loss]. apply elbo_loss; assumption.
  - rewrite (bool_decide_eq_false_2 ("IWELBO" = "ELBO")) by discriminate.
    rewrite (bool_decide_eq_true_2 ("IWELBO" = "IWELBO")) by reflexivity.
    rewrite (weighted_tab log_ratios P C Hshape Hwf). cbn [mbind result_bind].
    eexists. split; [reflexivity|].
    cbn [LossRecorder.loss]. apply iwelbo_loss; assumption.
Qed.

Lemma loss_is_ratio_estimator_witness :
  let t := Examples.matrix 2 1 [0; 1]%R in
  let lr := Tensor [2; 1] [dsub (dconst 0) (dconst 0); dsub (dconst 1) (dconst 1)] in
  exists r,
    WVAE.loss (Examples.wvae "IWELBO" false) ∅
      (Examples.outputs t).1 (Examples.outputs t).2 1 = Ok r
    /\ LossRecorder.loss r = Tensor [] [Dual (iwelbo_value 2 1 lr) (iwelbo_grad 2 1 lr)].
Proof.
  intros t lr.
  refine (proj2 (loss_is_ratio_estimator (Examples.wvae "IWELBO" false) ∅
            (Examples.outputs t).1 (Examples.outputs t).2 1%R t t t lr 2 1
            _ _ _ _ _ _) _); reflexivity.
Defined.

(** C5 (as amended).  [loss] raises the assertion error whenever
    [log_pjoint - log_qjoint] does not have exactly 2 dimensions; it raises
    the unknown-loss-type [ValueError] whenever the difference has 2
    dimensions and the mode is neither "ELBO" nor "IWELBO"; it returns in
    every other case. *)
Theorem loss_failure_modes self tensors inference_outputs generative_outputs kl_weight
    log_pjoint log_qjoint log_px_latents log_ratios :
  generative_outputs !! "log_pjoint" = Some log_pjoint ->
  inference_outputs !! "log_qjoint" = Some log_qjoint ->
  generative_outputs !! "log_px_latents" = Some log_px_latents ->
  sub log_pjoint log_qjoint = Ok log_ratios ->
  let outcome := WVAE.loss self tensors inference_outputs generative_outputs kl_weight in
  (ndim log_ratios <> 2 -> outcome = Raise AssertionError)
  /\ (ndim log_ratios = 2 ->
      WVAE.loss_type self <> "ELBO" -> WVAE.loss_type self <> "IWELBO" ->
      outcome = Raise (ValueError (String.append "Unknown loss type " (WVAE.loss_type self))))
  /\ (ndim log_ratios = 2 ->
      WVAE.loss_type self = "ELBO" \/ WVAE.loss_type self = "IWELBO" ->
      is_Ok outcome).
Proof.
  intros Hp Hq Hx Hsub outcome. subst outcome. unfold WVAE.loss, getitem.
  rewrite Hp, Hq, Hx. simpl. rewrite Hsub. simpl.
  split; [|split].
  - intros Hnd.
    rewrite (bool_decide_eq_false_2 (ndim log_ratios = 2)) by exact Hnd.
    reflexivity.
  - intros Hnd H1 H2.
    rewrite (bool_decide_eq_true_2 (ndim log_ratios = 2)) by exact Hnd. simpl.
    rewrite (bool_decide_eq_false_2 (WVAE.loss_type self = "ELBO")) by exact H1.
    rewrite (bool_decide_eq_false_2 (WVAE.loss_type self = "IWELBO")) by exact H2.
    reflexivity.
  - intros Hnd Hmode.
    rewrite (bool_decide_eq_true_2 (ndim log_ratios = 2)) by exact Hnd. simpl.
    destruct Hmode as [Hm | Hm]; rewrite Hm; simpl.
    + eexists. reflexivity.
    + unfold mul, binop. cbn [detach softmax_dim0 shape].
      rewrite broadcast_same. simpl. eexists. reflexivity.
Qed.

Lemma loss_failure_modes_witness :
  let t := Examples.matrix 2 1 [0; 0]%R in
  is_Ok (WVAE.loss (Examples.wvae "IWELBO" false) ∅
           (Examples.outputs t).1 (Examples.outputs t).2 1).
Proof.
  intros t.
  refine (proj2 (proj2 (loss_failure_modes (Examples.wvae "IWELBO" false) ∅
            (Examples.outputs t).1 (Examples.outputs t).2 1%R t t t
            (Tensor [2; 1] [dsub (dconst 0) (dconst 0); dsub (dconst 0) (dconst 0)])
            _ _ _ _)) _ _).
  - reflexivity.
  - reflexivity.
  - reflexivity.
  - reflexivity.
  - reflexivity.
  - right. reflexivity.
Defined.

(** C5 as stated fails: with a mode that is neither "ELBO" nor "IWELBO"
    and log-ratios of one dimension, [loss] raises the assertion error, not
    the unknown-loss-type error. *)
Lemma loss_unknown_mode_rank1 :
  let self := Examples.wvae "L1" false in
  let t := Examples.vector [0; 0; 0]%R in
  WVAE.loss_type self <> "ELBO" /\ WVAE.loss_type self <> "IWELBO"
  /\ WVAE.loss self ∅ (Examples.outputs t).1 (Examples.outputs t).2 1
     = Raise AssertionError.
Proof. split; [discriminate|]. split; [discriminate|]. reflexivity. Qed.

(** C8.  Two calls of [loss] that differ only in the KL annealing weight
    return the same thing: the same loss, reconstruction loss and KL
    placeholders, or the same exception. *)
Theorem loss_ignores_kl_weight self tensors inference_outputs generative_outputs
    (kl_weight kl_weight' : R) :
  WVAE.loss self tensors inference_outputs generative_outputs kl_weight
  = WVAE.loss self tensors inference_outputs generative_outputs kl_weight'.
Proof. reflexivity. Qed.

End LossProperties.

(** ** Shapes through [inference] and [generative] *)

Section ShapeProperties.
Import Shape WVAE Forward.

Lemma sum_last s d : Shape.sum (-1) (s ++ [d]) = Ok s.
Proof.
  unfold Shape.sum, norm_dim. rewrite length_app. simpl.
  rewrite bool_decide_eq_true_2 by lia. simpl.
  replace (Z.to_nat (Z.of_nat (length s + 1) + -1)) with (length s) by lia.
  rewrite take_app_length.
  replace (S (length s)) with (length (s ++ [d])) by (rewrite length_app; simpl; lia).
  rewrite drop_all, app_nil_r. reflexivity.
Qed.

Lemma sum_1_rank2 a b : Shape.sum 1 [a; b] = Ok [a].
Proof. reflexivity. Qed.
Lemma sum_last_rank1 a : Shape.sum (-1) [a] = Ok [].
Proof. reflexivity. Qed.
Lemma sum_last_rank2 a b : Shape.sum (-1) [a; b] = Ok [a].
Proof. reflexivity. Qed.
Lemma sum_last_rank3 a b c : Shape.sum (-1) [a; b; c] = Ok [a; b].
Proof. reflexivity. Qed.
Lemma unsqueeze_1_rank1 a : unsqueeze 1 [a] = Ok [a; 1].
Proof. reflexivity. Qed.
Lemma unsqueeze_0_rank2 a b : unsqueeze 0 [a; b] = Ok [1; a; b].
Proof. reflexivity. Qed.

Ltac shape_crunch :=
  repeat (progress (cbn -[Shape.sum unsqueeze check_configured];
                    rewrite ?Nat.eqb_refl, ?sum_1_rank2, ?sum_last_rank1, ?sum_last_rank2,
                      ?sum_last_rank3, ?unsqueeze_1_rank1, ?unsqueeze_0_rank2;
                    try rewrite bool_decide_eq_true_2 by reflexivity)).

Lemma check_configured_Ok width n_cat input categorical_input u :
  check_configured width n_cat input categorical_input = Ok u ->
  last input = Some width /\ length categorical_input = n_cat.
Proof. unfold check_configured. case_bool_decide as H; [auto | discriminate]. Qed.

Lemma check_configured_intro width n_cat input categorical_input :
  last input = Some width -> length categorical_input = n_cat ->
  check_configured width n_cat input categorical_input = Ok tt.
Proof. intros H1 H2. unfold check_configured. rewrite bool_decide_eq_true_2; auto. Qed.

(** [inference] on a batch of [C] cells: the check of the encoders on
    their input, then the outputs. *)
Lemma inference_run self C G cc ct ns :
  (cc = None \/ exists k, cc = Some [C; k]) ->
  (ct = None \/ exists m, ct = Some [C; m]) ->
  let pd := particle_dims (particles self ns) in
  let observed := use_observed_lib_size self in
  inference self [C; G] [C; 1] cc ct ns
  = (_ ← check_configured (n_input_encoder self) (n_cat_encoder self)
           match cc with
           | Some c => if encode_covariates self then [C; G + default 0 (last c)] else [C; G]
           | None => [C; G]
           end
           match ct with
           | Some c => if encode_covariates self then replicate (default 0 (last c)) [C; 1]
                       else []
           | None => []
           end;
     Ok (list_to_map
           [("z", PyTensor (pd ++ [C; n_latent self]));
            ("qz", PyDist [C; n_latent self]);
            ("ql", if observed then PyNone else PyDist [C; 1]);
            ("library", PyTensor (if observed then [C; 1] else pd ++ [C; 1]));
            ("log_ql", if observed then PyFloat else PyTensor (pd ++ [C]));
            ("log_qz", PyTensor (pd ++ [C]));
            ("log_qjoint", PyTensor (pd ++ [C]));
            ("point_library", PyTensor [C; 1])])).
Proof.
  intros Hcc Hct pd observed. subst pd observed. unfold particle_dims, particles.
  unfold inference, z_encoder, l_encoder.
  destruct Hcc as [-> | [k ->]], Hct as [-> | [m ->]];
    destruct (use_observed_lib_size self), (encode_covariates self),
      (log_variational self);
    destruct ns as [n|].
  all: match goal with |- context [?P =? 1] => destruct (P =? 1) eqn:EP end.
  all: shape_crunch.
  all: match goal with
       | |- context [check_configured ?a ?b ?c ?d] =>
           destruct (check_configured a b c d) as [[]|e]; [|reflexivity]
       end.
  all: shape_crunch.
  all: reflexivity.
Qed.

(** What [inference] returns, when it returns, on a batch of [C] cells. *)
Lemma inference_Ok self C G cc ct ns io :
  (cc = None \/ exists k, cc = Some [C; k]) ->
  (ct = None \/ exists m, ct = Some [C; m]) ->
  inference self [C; G] [C; 1] cc ct ns = Ok io ->
  let pd := particle_dims (particles self ns) in
  let observed := use_observed_lib_size self in
  io = list_to_map
         [("z", PyTensor (pd ++ [C; n_latent self]));
          ("qz", PyDist [C; n_latent self]);
          ("ql", if observed then PyNone else PyDist [C; 1]);
          ("library", PyTensor (if observed then [C; 1] else pd ++ [C; 1]));
          ("log_ql", if observed then PyFloat else PyTensor (pd ++ [C]));
          ("log_qz", PyTensor (pd ++ [C]));
          ("log_qjoint", PyTensor (pd ++ [C]));
          ("point_library", PyTensor [C; 1])].
Proof.
  intros Hcc Hct H pd observed. rewrite (inference_run self C G cc ct ns Hcc Hct) in H.
  step H u Hu. injection H as <-. reflexivity.
Qed.

Lemma inference_shapes self C G cc ct ns io :
  (cc = None \/ exists k, cc = Some [C; k]) ->
  (ct = None \/ exists m, ct = Some [C; m]) ->
  inference self [C; G] [C; 1] cc ct ns = Ok io ->
  let pd := particle_dims (particles self ns) in
  io !! "z" = Some (PyTensor (pd ++ [C; n_latent self]))
  /\ io !! "library"
     = Some (PyTensor (if use_observed_lib_size self then [C; 1] else pd ++ [C; 1]))
  /\ io !! "log_qjoint" = Some (PyTensor (pd ++ [C])).
Proof.
  intros Hcc Hct H pd.
  rewrite (inference_Ok self C G cc ct ns io Hcc Hct H). repeat split; reflexivity.
Qed.

Lemma removelast_snoc {A} (s : list A) a : removelast (s ++ [a]) = s.
Proof. apply removelast_last. Qed.

Lemma cat_last_removelast s a b di :
  cat_last (s ++ [a]) b = Ok di -> removelast di = s.
Proof.
  unfold cat_last. rewrite reverse_app. change (reverse [a]) with [a]. cbn [app].
  destruct (reverse b) as [|lb rb]; [discriminate|].
  case_bool_decide; [|discriminate]. intros [= <-].
  rewrite removelast_snoc, reverse_involutive. reflexivity.
Qed.

Lemma linear_one_hot C n out : linear [C; n] [out; n] = Ok [C; out].
Proof.
  unfold linear. cbn. rewrite bool_decide_eq_true_2 by reflexivity. reflexivity.
Qed.

Lemma local_library_params self C m v :
  _compute_local_library_params self [C; 1] = Ok (m, v) -> m = [C; 1] /\ v = [C; 1].
Proof.
  unfold _compute_local_library_params, one_hot. cbn [size0 mbind result_bind].
  rewrite linear_one_hot. cbn [mbind result_bind]. intros [= <- <-]. auto.
Qed.

Lemma broadcast_unit_cells pd C G :
  Torch.broadcast_shapes [C; 1] (pd ++ [C; G]) = Ok (pd ++ [C; G]).
Proof. exact (broadcast_unit_last pd [C] G). Qed.

Lemma broadcast_unit_particles pd C G :
  Torch.broadcast_shapes (pd ++ [C; 1]) (pd ++ [C; G]) = Ok (pd ++ [C; G]).
Proof.
  pose proof (broadcast_unit_last [] (pd ++ [C]) G) as E.
  rewrite <- !app_assoc in E. exact E.
Qed.

Lemma sum_last_cells pd C L : Shape.sum (-1) (pd ++ [C; L]) = Ok (pd ++ [C]).
Proof. pose proof (sum_last (pd ++ [C]) L) as E. rewrite <- app_assoc in E. exact E. Qed.

Lemma removelast_cells (pd : dims) (C L : nat) : removelast (pd ++ [C; L]) = pd ++ [C].
Proof.
  pose proof (removelast_snoc (pd ++ [C]) L) as E. rewrite <- app_assoc in E. exact E.
Qed.

Lemma cat_last_cells pd C L b di :
  cat_last (pd ++ [C; L]) b = Ok di -> removelast di = pd ++ [C].
Proof.
  pose proof (cat_last_removelast (pd ++ [C]) L b di) as E.
  rewrite <- app_assoc in E. exact E.
Qed.

Lemma generative_shapes self C pd library cc ct y go :
  (y = None \/ y = Some [C; 1]) ->
  library = (if use_observed_lib_size self then [C; 1] else pd ++ [C; 1]) ->
  generative self (pd ++ [C; n_latent self]) library [C; 1] [C; n_input self]
    cc ct None y None = Ok go ->
  go !! "log_pjoint" = Some (PyTensor (pd ++ [C])).
Proof.
  intros Hy Hlib H. unfold generative in H.
  set (G := n_input self) in *. set (L := n_latent self) in *.
  step H decoder_input Hdi.
  assert (Hrl : removelast decoder_input = pd ++ [C]).
  { destruct cc as [c|].
    - step Hdi n_samples Hn. step Hdi nn Hnn. destruct nn as [n_obs n_cont].
      step Hdi u Hu. step Hdi cont_covs_ Hcc.
      eapply cat_last_cells; exact Hdi.
    - injection Hdi as <-. apply removelast_cells. }
  clear Hdi.
  step H categorical_input Hci. clear Hci.
  step H dec Hdec. destruct dec as [[[px_scale px_r0] px_rate] px_dropout].
  cbv beta iota in H.
  assert (Hdecoder : px_rate = pd ++ [C; G]
                     /\ (px_r0 = None \/ px_r0 = Some (pd ++ [C; G]))).
  { unfold decoder in Hdec. step Hdec u Hu. clear u Hu.
    rewrite Hrl in Hdec. fold G in Hdec.
    rewrite <- app_assoc in Hdec. cbn [app] in Hdec.
    step Hdec r Hr. injection Hdec as _ <- <- _.
    split; [|destruct (bool_decide (dispersion self = "gene-cell")); auto].
    rewrite Hlib in Hr. destruct (use_observed_lib_size self).
    - rewrite broadcast_unit_cells in Hr. injection Hr as <-. reflexivity.
    - rewrite broadcast_unit_particles in Hr. injection Hr as <-. reflexivity. }
  clear Hdec. destruct Hdecoder as [-> Hr0].
  step H px_r1 Hr1. step H px_r Hr.
  assert (Hsuf : exists q, pd ++ [C; G] = q ++ px_r).
  { destruct px_r1 as [r|]; [|discriminate]. injection Hr as <-.
    case_bool_decide as Hd1.
    - step Hr1 yv Hyv. destruct Hy as [-> | ->]; [discriminate|]. injection Hyv as <-.
      step Hr1 oh Hoh. injection Hoh as <-.
      unfold px_r_param in Hr1. rewrite Hd1 in Hr1.
      rewrite bool_decide_eq_false_2 in Hr1 by discriminate.
      rewrite bool_decide_eq_true_2 in Hr1 by reflexivity.
      rewrite linear_one_hot in Hr1. injection Hr1 as <-. exists pd. reflexivity.
    - case_bool_decide as Hd2.
      + step Hr1 oh Hoh. injection Hoh as <-.
        unfold px_r_param in Hr1. rewrite Hd2 in Hr1.
        rewrite bool_decide_eq_true_2 in Hr1 by reflexivity.
        rewrite linear_one_hot in Hr1. injection Hr1 as <-. exists pd. reflexivity.
      + case_bool_decide as Hd3.
        * injection Hr1 as <-. unfold px_r_param.
          rewrite bool_decide_eq_false_2 by exact Hd2.
          rewrite bool_decide_eq_false_2 by exact Hd1.
          exists (pd ++ [C]). rewrite <- app_assoc. reflexivity.
        * injection Hr1 as ->. destruct Hr0 as [[=] | [= <-]].
          exists []. reflexivity. }
  clear Hr1 Hr Hr0.
  step H d Hd. unfold Normal in Hd. rewrite broadcast_same in Hd. injection Hd as <-.
  step H lp Hlp. unfold log_prob in Hlp. rewrite broadcast_same in Hlp. injection Hlp as <-.
  step H log_pz Hpz. rewrite sum_last_cells in Hpz. injection Hpz as <-.
  step H log_pl Hpl.
  assert (Hlpl : log_pl = PyFloat \/ log_pl = PyTensor (pd ++ [C])).
  { destruct (use_observed_lib_size self).
    - injection Hpl as <-. left. reflexivity.
    - right. step Hpl mv Hmv. destruct mv as [m v]. cbv beta iota in Hpl.
      apply local_library_params in Hmv as [-> ->].
      step Hpl d Hd. unfold Normal in Hd. rewrite broadcast_same in Hd. injection Hd as <-.
      step Hpl lp Hlp. unfold log_prob in Hlp. rewrite Hlib in Hlp.
      rewrite broadcast_suffix_l in Hlp. injection Hlp as <-.
      apply fmap_Ok in Hpl as (s & Hs & ->).
      rewrite sum_last_cells in Hs. injection Hs as <-. reflexivity. }
  clear Hpl.
  step H log_px_latents Hpx.
  assert (log_px_latents = pd ++ [C]) as ->.
  { unfold get_reconstruction_loss in Hpx. destruct Hsuf as [q Hq].
    step Hpx d Hd. rewrite Hq in Hd at 1. rewrite broadcast_suffix_l in Hd. injection Hd as <-.
    step Hpx lp Hlp. unfold log_prob in Hlp. rewrite <- Hq in Hlp.
    rewrite (broadcast_suffix_r pd [C; G]) in Hlp. injection Hlp as <-.
    rewrite sum_last_cells in Hpx. injection Hpx as <-. reflexivity. }
  step H s Hs. cbn [add] in Hs. rewrite broadcast_same in Hs. injection Hs as <-.
  step H log_pjoint Hpj.
  assert (log_pjoint = PyTensor (pd ++ [C])) as ->.
  { destruct Hlpl as [-> | ->]; cbn [add] in Hpj.
    - injection Hpj as <-. reflexivity.
    - rewrite broadcast_same in Hpj. injection Hpj as <-. reflexivity. }
  injection H as <-. reflexivity.
Qed.


(** C4 (as amended).  For every particle count and every configuration, the
    outputs of one inference call followed by the matching generative call
    on a batch of [C] cells have: [z] of shape (P x C x latent),
    [log_qjoint] and [log_pjoint] of shape (P x C), where the leading P is
    absent when there is one particle; [library] of shape (P x C x 1), P
    absent for one particle, when the library size is sampled, and of
    shape (C x 1) for every P when it is observed. *)
Theorem particle_dimension_shapes self b C n_samples io go :
  batch_of self C b ->
  inference_then_generative self b n_samples = Ok (io, go) ->
  let pd := particle_dims (particles self n_samples) in
  io !! "z" = Some (PyTensor (pd ++ [C; n_latent self]))
  /\ io !! "log_qjoint" = Some (PyTensor (pd ++ [C]))
  /\ go !! "log_pjoint" = Some (PyTensor (pd ++ [C]))
  /\ io !! "library"
     = Some (PyTensor (if use_observed_lib_size self then [C; 1] else pd ++ [C; 1])).
Proof.
  intros (Hx & Hbi & Hy & Hcc & Hct) H pd.
  unfold inference_then_generative in H. rewrite Hx, Hbi in H.
  step H io' Hinf.
  destruct (inference_shapes _ _ _ _ _ _ _ Hcc Hct Hinf) as (Hz & Hlib & Hq).
  fold pd in Hz, Hlib, Hq.
  unfold getitem in H. rewrite Hz, Hlib in H. cbn [mbind result_bind as_tensor] in H.
  step H go' Hgen. injection H as <- <-.
  repeat split; try assumption.
  eapply generative_shapes; [exact Hy | reflexivity | exact Hgen].
Qed.

Lemma particle_dimension_shapes_witness :
  exists io go,
    inference_then_generative (Examples.wvae "IWELBO" true) Examples.batch3 (Some 2)
      = Ok (io, go)
    /\ io !! "z" = Some (PyTensor [2; 3; 5])
    /\ io !! "log_qjoint" = Some (PyTensor [2; 3])
    /\ go !! "log_pjoint" = Some (PyTensor [2; 3])
    /\ io !! "library" = Some (PyTensor [3; 1]).
Proof.
  assert (E : exists io go,
             inference_then_generative (Examples.wvae "IWELBO" true) Examples.batch3 (Some 2)
               = Ok (io, go))
    by (eexists _, _; reflexivity).
  destruct E as (io & go & E). exists io, go. split; [exact E|].
  refine (particle_dimension_shapes (Examples.wvae "IWELBO" true) Examples.batch3 3
            (Some 2) io go _ E).
  repeat split; auto.
Defined.

(** C4 as stated fails: with the library size observed, [library] has
    shape (cells x 1) for 2 particles as for 1; the particle dimension is
    not its leading dimension and its rank does not change. *)
Lemma observed_library_lacks_particle_dim :
  library_of (Examples.wvae "IWELBO" true) Examples.batch3 (Some 2) = Ok (PyTensor [3; 1])
  /\ library_of (Examples.wvae "IWELBO" true) Examples.batch3 (Some 1) = Ok (PyTensor [3; 1])
  /\ ~ particle_dim_leading 2 2 [3; 1].
Proof.
  split; [vm_compute; reflexivity|]. split; [vm_compute; reflexivity|].
  unfold particle_dim_leading. simpl. intros [H _]. discriminate H.
Qed.

Lemma generative_no_px self z library batch_index x cont_covs cat_covs size_factor y tb outs :
  generative self z library batch_index x cont_covs cat_covs size_factor y tb = Ok outs ->
  outs !! "px" = None.
Proof.
  unfold generative. intros H. inv_binds. subst outs. reflexivity.
Qed.

(** C3.  The code does not do what the claim says: whenever the generative
    step it runs succeeds, [estimate_likelihood] raises [KeyError "px"],
    because the dictionary [generative] returns has no such key. *)
Theorem estimate_likelihood_px_missing self keys tensors inference_outputs gen_ins outs :
  _get_generative_input self keys tensors inference_outputs = Ok gen_ins ->
  call_generative self gen_ins = Ok outs ->
  estimate_likelihood self keys tensors inference_outputs = Raise (KeyError "px").
Proof.
  intros Hin Hgen.
  assert (Hpx : getitem outs "px" = Raise (KeyError "px")).
  { unfold call_generative in Hgen. inv_binds.
    apply generative_no_px in Hgen. unfold getitem. rewrite Hgen. reflexivity. }
  unfold estimate_likelihood.
  rewrite Hin. simpl. rewrite Hgen. simpl. rewrite Hpx. reflexivity.
Qed.

Lemma estimate_likelihood_px_missing_witness :
  estimate_likelihood (Examples.wvae "IWELBO" false) Examples.keys
    Examples.tensors3 Examples.latents3 = Raise (KeyError "px").
Proof.
  eapply estimate_likelihood_px_missing; reflexivity.
Defined.

(** It never returns, whatever the inputs. *)
Lemma estimate_likelihood_never_returns self keys tensors inference_outputs v :
  estimate_likelihood self keys tensors inference_outputs <> Ok v.
Proof.
  intros H. unfold estimate_likelihood in H.
  apply bind_Ok in H as (gen_ins & Hin & H).
  apply bind_Ok in H as (outs & Hgen & H).
  apply bind_Ok in H as (px & Hpx & H).
  unfold call_generative in Hgen. inv_binds.
  apply generative_no_px in Hgen. unfold getitem in Hpx. rewrite Hgen in Hpx. discriminate.
Qed.

End ShapeProperties.

(** ** The order of floats *)

Section FloatOrder.
Import Binary64.

Lemma SFcompare_key a b :
  a <> S754_nan -> b <> S754_nan ->
  match SFcompare a b with
  | Some Lt => key_lt (SFkey a) (SFkey b)
  | Some Eq => SFkey a = SFkey b
  | Some Gt => key_lt (SFkey b) (SFkey a)
  | None => False
  end.
Proof.
  intros Ha Hb. unfold key_lt.
  destruct a as [sa|sa| |sa ma ea], b as [sb|sb| |sb mb eb]; try contradiction;
    try destruct sa; try destruct sb; cbn; try lia; try reflexivity.
  - change (Pos.compare_cont Eq ma mb) with (Pos.compare ma mb).
    destruct (Z.compare_spec ea eb); [|lia|lia].
    destruct (Pos.compare_spec ma mb); cbn; [subst; reflexivity | lia | lia].
  - change (Pos.compare_cont Eq ma mb) with (Pos.compare ma mb).
    destruct (Z.compare_spec ea eb); [|lia|lia].
    destruct (Pos.compare_spec ma mb); cbn; [subst; reflexivity | lia | lia].
Qed.

Lemma is_nan_spec x : is_nan x = true <-> Prim2SF x = S754_nan.
Proof.
  unfold is_nan. rewrite FloatAxioms.eqb_spec. unfold SFeqb.
  destruct (Prim2SF x) as [s|s| |s m e] eqn:E.
  - cbn. split; discriminate.
  - destruct s; cbn; split; discriminate.
  - cbn. split; reflexivity.
  - pose proof (SFcompare_key (S754_finite s m e) (S754_finite s m e)) as H.
    destruct (SFcompare (S754_finite s m e) (S754_finite s m e)) as [[]|].
    + cbn. split; discriminate.
    + exfalso. unfold key_lt in H. specialize (H ltac:(discriminate) ltac:(discriminate)). lia.
    + exfalso. unfold key_lt in H. specialize (H ltac:(discriminate) ltac:(discriminate)). lia.
    + exfalso. apply H; discriminate.
Qed.

Lemma is_nan_false x : is_nan x = false <-> Prim2SF x <> S754_nan.
Proof. rewrite <- is_nan_spec. destruct (is_nan x); split; congruence. Qed.

Lemma ltb_true x y :
  (x <? y)%float = true <->
  is_nan x = false /\ is_nan y = false /\ key_lt (SFkey (Prim2SF x)) (SFkey (Prim2SF y)).
Proof.
  rewrite FloatAxioms.ltb_spec, !is_nan_false. unfold SFltb.
  destruct (Prim2SF x) as [sa|sa| |sa ma ea] eqn:Ex;
  destruct (Prim2SF y) as [sb|sb| |sb mb eb] eqn:Ey.
  all: try (cbn; split; [discriminate | intros (H1 & H2 & _); congruence]).
  all: match goal with
       | |- context [SFcompare ?a ?b] =>
           pose proof (SFcompare_key a b ltac:(discriminate) ltac:(discriminate)) as H;
           destruct (SFcompare a b) as [[]|]
       end.
  all: unfold key_lt in *.
  all: try (split; [discriminate | intros (_ & _ & H'); exfalso; rewrite ?H in H'; lia]).
  all: try (split; [intros _; repeat split; try discriminate; exact H | reflexivity]).
  all: try contradiction.
Qed.

Lemma leb_true x y :
  (x <=? y)%float = true <->
  is_nan x = false /\ is_nan y = false
  /\ ~ key_lt (SFkey (Prim2SF y)) (SFkey (Prim2SF x)).
Proof.
  rewrite FloatAxioms.leb_spec, !is_nan_false. unfold SFleb.
  destruct (Prim2SF x) as [sa|sa| |sa ma ea] eqn:Ex;
  destruct (Prim2SF y) as [sb|sb| |sb mb eb] eqn:Ey.
  all: try (cbn; split; [discriminate | intros (H1 & H2 & _); congruence]).
  all: match goal with
       | |- context [SFcompare ?a ?b] =>
           pose proof (SFcompare_key a b ltac:(discriminate) ltac:(discriminate)) as H;
           destruct (SFcompare a b) as [[]|]
       end.
  all: unfold key_lt in *.
  all: try (split; [discriminate | intros (_ & _ & H'); exfalso; apply H'; lia]).
  all: try (split; [intros _; repeat split; try discriminate; rewrite ?H; lia | reflexivity]).
  all: try contradiction.
Qed.

(** The three facts about the order of floats that the sort and the
    threshold need. *)
Lemma ltb_asym x y : (x <? y)%float = true -> (y <? x)%float = false.
Proof.
  intros H. apply ltb_true in H as (Hx & Hy & H).
  destruct (y <? x)%float eqn:E; [|reflexivity].
  apply ltb_true in E as (_ & _ & E). unfold key_lt in *. lia.
Qed.

Lemma not_ltb_trans x y z :
  is_nan y = false ->
  (x <? y)%float = false -> (y <? z)%float = false -> (x <? z)%float = false.
Proof.
  intros Hy Hxy Hyz. destruct (x <? z)%float eqn:E; [|reflexivity]. exfalso.
  apply ltb_true in E as (Hx & Hz & E).
  assert (H1 : ~ key_lt (SFkey (Prim2SF x)) (SFkey (Prim2SF y))).
  { intros H. rewrite (proj2 (ltb_true x y)) in Hxy by auto. discriminate. }
  assert (H2 : ~ key_lt (SFkey (Prim2SF y)) (SFkey (Prim2SF z))).
  { intros H. rewrite (proj2 (ltb_true y z)) in Hyz by auto. discriminate. }
  unfold key_lt in *. lia.
Qed.

Lemma leb_trans x y z :
  (x <=? y)%float = true -> (y <=? z)%float = true -> (x <=? z)%float = true.
Proof.
  intros Hxy Hyz. apply leb_true in Hxy as (Hx & Hy & Hxy).
  apply leb_true in Hyz as (_ & Hz & Hyz). apply leb_true.
  split; [exact Hx|]. split; [exact Hz|]. unfold key_lt in *. lia.
Qed.

Lemma ltb_nan_r x y : is_nan y = true -> (x <? y)%float = false.
Proof.
  intros Hy. destruct (x <? y)%float eqn:E; [|reflexivity].
  apply ltb_true in E as (_ & Hy' & _). congruence.
Qed.

Lemma ltb_nan_l x y : is_nan x = true -> (x <? y)%float = false.
Proof.
  intros Hx. destruct (x <? y)%float eqn:E; [|reflexivity].
  apply ltb_true in E as (Hx' & _ & _). congruence.
Qed.

End FloatOrder.

(** ** Sorting ([sort_values]) *)

Section SortProperties.
Import Binary64 Pandas.
Context {A : Type} (f : A -> float).

Lemma insert_desc_Permutation x l : insert_desc f x l ≡ₚ x :: l.
Proof.
  induction l as [|y l IH]; [reflexivity|]. cbn [insert_desc].
  destruct (f x <? f y)%float; [|reflexivity].
  rewrite IH. apply Permutation_swap.
Qed.

Lemma insert_desc_sorted x l :
  is_nan (f x) = false -> Forall (fun y => is_nan (f y) = false) l ->
  StronglySorted (desc_by f) l -> StronglySorted (desc_by f) (insert_desc f x l).
Proof.
  intros Hx Hl Hs. induction Hs as [|y l Hs IH Hy]; cbn [insert_desc].
  - repeat constructor.
  - apply Forall_cons in Hl as [Hyn Hl].
    destruct (f x <? f y)%float eqn:E.
    + constructor; [apply IH; exact Hl|].
      rewrite insert_desc_Permutation. constructor; [|exact Hy].
      unfold desc_by. apply ltb_asym. exact E.
    + constructor; [constructor; assumption|].
      constructor; [exact E|].
      apply Forall_forall. intros z Hz. unfold desc_by.
      apply (not_ltb_trans _ (f y)); [exact Hyn | exact E|].
      rewrite Forall_forall in Hy. apply Hy. exact Hz.
Qed.

Lemma filter_nan_Permutation (rows : list A) :
  filter (fun r => is_nan (f r) = false) rows ++ filter (fun r => is_nan (f r) = true) rows
  ≡ₚ rows.
Proof.
  induction rows as [|r rows IH]; [reflexivity|].
  destruct (is_nan (f r)) eqn:E.
  - rewrite filter_cons_False by (rewrite E; discriminate).
    rewrite filter_cons_True by exact E.
    rewrite <- Permutation_middle. constructor. exact IH.
  - rewrite filter_cons_True by exact E.
    rewrite filter_cons_False by (rewrite E; discriminate).
    cbn [app]. constructor. exact IH.
Qed.

Lemma sort_values_desc_sorted (rows : list A) :
  StronglySorted (desc_by f) (sort_values_desc f rows)
  /\ sort_values_desc f rows ≡ₚ rows.
Proof.
  unfold sort_values_desc.
  set (good := filter (fun r => is_nan (f r) = false) rows).
  set (bad := filter (fun r => is_nan (f r) = true) rows).
  assert (Hgood : Forall (fun y => is_nan (f y) = false) good).
  { apply Forall_forall. intros y Hy. apply list_elem_of_filter in Hy as [Hy _]. exact Hy. }
  assert (Hbad : Forall (fun y => is_nan (f y) = true) bad).
  { apply Forall_forall. intros y Hy. apply list_elem_of_filter in Hy as [Hy _]. exact Hy. }
  assert (Hperm : foldr (insert_desc f) [] good ≡ₚ good).
  { clear Hgood. induction good as [|x good IH]; [reflexivity|].
    cbn [foldr]. rewrite insert_desc_Permutation, IH. reflexivity. }
  split.
  - apply StronglySorted_app_2.
    + intros x y _ Hy. unfold desc_by. apply ltb_nan_r.
      rewrite Forall_forall in Hbad. apply Hbad. exact Hy.
    + clear Hperm. induction good as [|x good IH]; [constructor|].
      apply Forall_cons in Hgood as [Hx Hgood]. cbn [foldr].
      apply insert_desc_sorted; [exact Hx | | apply IH; exact Hgood].
      clear IH. induction good as [|y good IH]; [constructor|].
      apply Forall_cons in Hgood as [Hy Hgood]. cbn [foldr].
      rewrite insert_desc_Permutation. constructor; [exact Hy | apply IH; exact Hgood].
    + clear -Hbad. induction bad as [|x bad IH]; [constructor|].
      apply Forall_cons in Hbad as [Hx Hbad]. constructor; [apply IH; exact Hbad|].
      apply Forall_forall. intros y _. unfold desc_by. apply ltb_nan_l. exact Hx.
  - rewrite Hperm. apply filter_nan_Permutation.
Qed.

End SortProperties.

(** ** Posterior expected FDR ([_fdr_de_prediction]) *)

Section FDRProperties.
Import Binary64 Pandas Utils FDR.

Lemma cumsum_from_length acc l : length (cumsum_from acc l) = length l.
Proof. revert acc. induction l as [|x l IH]; intros acc; simpl; [|rewrite IH]; reflexivity. Qed.

Lemma cumsum_from_lookup acc l k v :
  cumsum_from acc l !! k = Some v -> v = foldl PrimFloat.add acc (take (S k) l).
Proof.
  revert acc k v. induction l as [|x l IH]; intros acc k v H; [discriminate|].
  destruct k as [|k]; cbn [cumsum_from lookup list_lookup] in H.
  - injection H as <-. cbn [firstn]. rewrite take_0. reflexivity.
  - apply IH in H. rewrite H. reflexivity.
Qed.

Lemma np_cumsum_length l : length (np_cumsum l) = length l.
Proof. destruct l as [|x l]; [reflexivity|]. simpl. rewrite cumsum_from_length. reflexivity. Qed.

Lemma np_cumsum_lookup l k v : np_cumsum l !! k = Some v -> v = running_sum l k.
Proof.
  destruct l as [|x l]; [discriminate|]. unfold running_sum.
  destruct k as [|k]; cbn [np_cumsum lookup list_lookup firstn]; intros H.
  - injection H as <-. rewrite take_0. reflexivity.
  - apply cumsum_from_lookup in H. exact H.
Qed.

Lemma cumulative_fdr_code_length sorted :
  length (cumulative_fdr_code sorted) = length sorted.
Proof.
  unfold cumulative_fdr_code, cumsum, arange.
  rewrite !length_zip_with, np_cumsum_length, !length_fmap, length_seq. lia.
Qed.

Lemma cumulative_fdr_code_lookup sorted k c :
  cumulative_fdr_code sorted !! k = Some c -> c = cumulative_fdr_at sorted k.
Proof.
  unfold cumulative_fdr_code, cumsum, arange. intros H.
  apply lookup_zip_with_Some in H as (v & i & -> & Hv & Hi).
  apply lookup_zip_with_Some in Hv as (x & s & -> & Hx & Hs).
  apply np_cumsum_lookup in Hs.
  rewrite !list_lookup_fmap in Hx.
  destruct (sorted !! k) as [r|] eqn:Hr; [|discriminate]. injection Hx as <-.
  rewrite list_lookup_fmap in Hi. apply fmap_Some in Hi as (j & Hj & ->).
  rewrite list_lookup_fmap in Hj. apply fmap_Some in Hj as (j' & Hj' & ->).
  apply lookup_seq in Hj' as [-> _]. cbn [Nat.add].
  unfold cumulative_fdr_at. rewrite Hr. subst s.
  replace ((fun x => if is_nan x then 0%float else x) <$> ((fun p => (1 - p)%float) <$> sorted.*2))
    with (terms sorted)
    by (unfold terms; rewrite <- !list_fmap_compose; reflexivity).
  reflexivity.
Qed.

Lemma cumulative_fdr_code_eq sorted :
  cumulative_fdr_code sorted = cumulative_fdr_at sorted <$> seq 0 (length sorted).
Proof.
  apply list_eq. intros k. rewrite list_lookup_fmap.
  destruct (decide (k < length sorted)) as [Hk | Hk].
  - rewrite (lookup_seq_lt _ _ _ Hk). cbn.
    destruct (lookup_lt_is_Some_2 (cumulative_fdr_code sorted) k) as [c Hc];
      [rewrite cumulative_fdr_code_length; exact Hk|].
    rewrite Hc. f_equal. eapply cumulative_fdr_code_lookup. exact Hc.
  - rewrite (lookup_ge_None_2 (cumulative_fdr_code sorted))
      by (rewrite cumulative_fdr_code_length; lia).
    rewrite (lookup_ge_None_2 (seq _ _)) by (rewrite length_seq; lia). reflexivity.
Qed.

Lemma count_le_fmap fdr (g : nat -> float) (l : list nat) :
  count_le fdr (g <$> l) = length (filter (fun k => (g k <=? fdr)%float = true) l).
Proof.
  unfold count_le. induction l as [|k l IH]; [reflexivity|].
  cbn [fmap list_fmap sum_list_with Datatypes.id]. change (list_fmap nat float g l)
    with (g <$> l). rewrite IH.
  destruct (g k <=? fdr)%float eqn:E.
  - rewrite filter_cons_True by exact E. reflexivity.
  - rewrite filter_cons_False by (rewrite E; discriminate). reflexivity.
Qed.

Lemma count_le_code fdr sorted :
  count_le fdr (cumulative_fdr_code sorted) = n_within fdr sorted.
Proof. rewrite cumulative_fdr_code_eq. apply count_le_fmap. Qed.

(** Counting the positions that satisfy a property that holds on an
    initial segment. *)
Lemma prefix_count (P : nat -> Prop) `{!forall k, Decision (P k)} n :
  (forall j k, k <= j < n -> P j -> P k) ->
  forall k, k < n -> (k < length (filter P (seq 0 n)) <-> P k).
Proof.
  induction n as [|n IH]; intros Hdown k Hk; [lia|].
  rewrite seq_S, filter_app, length_app. cbn [Nat.add].
  assert (Hle : length (filter P (seq 0 n)) <= n).
  { etrans; [apply length_filter|]. rewrite length_seq. reflexivity. }
  destruct (decide (P n)) as [Hn | Hn].
  - rewrite (filter_cons_True P) by exact Hn. cbn [filter list_filter length].
    assert (Hall : forall i, i <= n -> P i) by (intros i Hi; apply (Hdown n i); [lia | exact Hn]).
    assert (Hfull : filter P (seq 0 n) = seq 0 n).
    { assert (HF : Forall P (seq 0 n)).
      { apply Forall_forall. intros i Hi. apply elem_of_seq in Hi. apply Hall. lia. }
      clear -HF. induction HF as [|i l Hi _ IHl]; [reflexivity|].
      rewrite filter_cons_True by exact Hi. f_equal. exact IHl. }
    rewrite Hfull, length_seq. split; [intros _; apply Hall; lia | lia].
  - rewrite (filter_cons_False P) by exact Hn. cbn [filter list_filter length].
    rewrite Nat.add_0_r.
    destruct (decide (k = n)) as [->|Hne].
    + split; [lia | contradiction].
    + apply IH; [|lia]. intros j i Hji. apply Hdown. lia.
Qed.

Lemma iloc_set_prefix_lookup d (labels : list string) k :
  iloc_set_prefix d true ((fun l => (l, false)) <$> labels) !! k
  = (fun l => (l, bool_decide (k < d))) <$> labels !! k.
Proof.
  unfold iloc_set_prefix.
  destruct (decide (k < d)) as [Hlt | Hge].
  - rewrite bool_decide_eq_true_2 by exact Hlt.
    destruct (decide (k < length labels)) as [Hin | Hout].
    + rewrite lookup_app_l by (rewrite length_fmap, length_take, length_fmap; lia).
      rewrite list_lookup_fmap, lookup_take_lt by exact Hlt.
      rewrite list_lookup_fmap. destruct (labels !! k); reflexivity.
    + rewrite (lookup_ge_None_2 labels) by lia.
      apply lookup_ge_None_2.
      rewrite length_app, length_fmap, length_take, length_drop, length_fmap. lia.
  - rewrite bool_decide_eq_false_2 by exact Hge.
    destruct (decide (d <= length labels)) as [Hd | Hd].
    + rewrite lookup_app_r by (rewrite length_fmap, length_take, length_fmap; lia).
      rewrite length_fmap, length_take, length_fmap, lookup_drop.
      replace (d + (k - d `min` length labels)) with k by lia.
      rewrite list_lookup_fmap. reflexivity.
    + rewrite (lookup_ge_None_2 labels) by lia.
      apply lookup_ge_None_2.
      rewrite length_app, length_fmap, length_take, length_drop, length_fmap. lia.
Qed.


Lemma filter_key_absent {A} (t : Series A) l :
  l ∉ t.*1 -> filter (fun r => r.1 = l) t = [].
Proof.
  induction t as [|[l0 v0] t IH]; intros Hl; [reflexivity|].
  cbn [fmap list_fmap fst] in Hl. apply not_elem_of_cons in Hl as [Hne Hl].
  rewrite filter_cons_False by (simpl; congruence). apply IH. exact Hl.
Qed.

Lemma filter_unique_key {A} (t : Series A) l v :
  NoDup t.*1 -> (l, v) ∈ t -> filter (fun r => r.1 = l) t = [(l, v)].
Proof.
  induction t as [|[l0 v0] t IH]; intros Hnd Hin; [inversion Hin|].
  cbn [fmap list_fmap fst] in Hnd. apply NoDup_cons in Hnd as [Hl0 Hnd].
  apply elem_of_cons in Hin as [[= <- <-] | Hin].
  - rewrite filter_cons_True by reflexivity. f_equal.
    apply filter_key_absent. exact Hl0.
  - rewrite filter_cons_False; [apply IH; assumption|].
    simpl. intros ->. apply Hl0. apply list_elem_of_fmap. exists (l, v). auto.
Qed.

Lemma unique_key {A} (t : Series A) l v v' :
  NoDup t.*1 -> (l, v) ∈ t -> (l, v') ∈ t -> v = v'.
Proof.
  intros Hnd H1 H2.
  pose proof (filter_unique_key t l v Hnd H1) as E1.
  pose proof (filter_unique_key t l v' Hnd H2) as E2.
  congruence.
Qed.

Lemma loc_unique {A} (t : Series A) (labels : list string) :
  NoDup t.*1 -> (forall l, l ∈ labels -> l ∈ t.*1) ->
  exists out, loc t labels = Ok out
    /\ out.*1 = labels
    /\ forall r, r ∈ out <-> r ∈ t /\ r.1 ∈ labels.
Proof.
  intros Hnd. unfold loc.
  induction labels as [|l labels IH]; intros Hin.
  - exists []. cbn. split; [reflexivity|]. split; [reflexivity|].
    intros r. split; [intros H; inversion H | intros [_ H]; inversion H].
  - destruct IH as (out & Hout & Hfst & Hmem).
    { intros l' Hl'. apply Hin. apply elem_of_cons. auto. }
    assert (Hl : l ∈ t.*1) by (apply Hin; apply elem_of_cons; auto).
    apply list_elem_of_fmap in Hl as ([l' v] & Heq & Hlv). simpl in Heq. subst l'.
    apply fmap_Ok in Hout as (rows & Hrows & ->).
    exists ((l, v) :: concat rows).
    cbn [mapM]. rewrite (filter_unique_key t l v Hnd Hlv).
    cbn [mbind result_bind]. rewrite Hrows. cbn [mbind result_bind mret result_ret fmap result_fmap].
    split; [reflexivity|]. split; [cbn; f_equal; exact Hfst|].
    intros r. rewrite !elem_of_cons, Hmem. split.
    + intros [-> | [Hr Hrl]]; [split; [exact Hlv | left; reflexivity] | auto].
    + intros [Hr [Hrl | Hrl]]; [|auto].
      left. destruct r as [l' v']. simpl in Hrl. subst l'.
      f_equal. eapply unique_key; eauto.
Qed.


(** The flag of every gene, by its position in the sorted series. *)
Lemma fdr_flag_by_position (s : Series float) (fdr : float) :
  NoDup s.*1 ->
  let sorted := sort_values_desc snd s in
  let d := n_within fdr sorted in
  exists flags,
    _fdr_de_prediction (PdSeries s) fdr = Ok flags
    /\ flags.*1 = s.*1
    /\ forall l b, (l, b) ∈ flags <->
         exists k p, sorted !! k = Some (l, p) /\ b = bool_decide (k < d).
Proof.
  intros Hnd sorted d.
  destruct (sort_values_desc_sorted snd s) as [Hsort Hperm]. fold sorted in Hsort, Hperm.
  unfold _fdr_de_prediction. cbn [ndim Nat.eqb negb].
  fold sorted. fold (cumulative_fdr_code sorted).
  fold (count_le fdr (cumulative_fdr_code sorted)).
  rewrite count_le_code. fold d.
  set (is_pred_de := iloc_set_prefix d true ((fun l => (l, false)) <$> sorted.*1)).
  assert (Hlk : forall k, is_pred_de !! k
              = (fun r : string * float => (r.1, bool_decide (k < d))) <$> sorted !! k).
  { intros k. unfold is_pred_de. rewrite iloc_set_prefix_lookup, list_lookup_fmap.
    destruct (sorted !! k); reflexivity. }
  assert (Hfst : is_pred_de.*1 = sorted.*1).
  { apply list_eq. intros k. rewrite !list_lookup_fmap, Hlk.
    destruct (sorted !! k); reflexivity. }
  assert (Hperm1 : sorted.*1 ≡ₚ s.*1) by (apply fmap_Permutation; exact Hperm).
  destruct (loc_unique is_pred_de s.*1) as (flags & Hloc & Hidx & Hmem).
  { rewrite Hfst, Hperm1. exact Hnd. }
  { intros l Hl. rewrite Hfst, Hperm1. exact Hl. }
  exists flags. split; [exact Hloc|]. split; [exact Hidx|].
  intros l b. rewrite Hmem. split.
  - intros [Hin _]. apply list_elem_of_lookup in Hin as [k Hk].
    rewrite Hlk in Hk. destruct (sorted !! k) as [[l' p]|] eqn:Hs; [|discriminate].
    injection Hk as <- <-. exists k, p. auto.
  - intros (k & p & Hk & ->). split.
    + apply list_elem_of_lookup. exists k. rewrite Hlk, Hk. reflexivity.
    + simpl. rewrite <- Hperm1. apply list_elem_of_fmap. exists (l, p).
      split; [reflexivity | eapply list_elem_of_lookup_2; eauto].
Qed.




End FDRProperties.

(** ** Populations and the [obs] table ([_prepare_obs], [_de_core]) *)

Section DEProperties.
Import Pandas Utils Masks.

Lemma norm_dim_lt n z i : Shape.norm_dim n z = Ok i -> i < n.
Proof.
  unfold Shape.norm_dim. repeat case_bool_decide; intros [= <-]; lia.
Qed.

Lemma foldl_insert_length (v : string) (pos : list nat) (a : list string) :
  length (foldl (fun acc i => <[i := v]> acc) a pos) = length a.
Proof.
  revert a. induction pos as [|p pos IH]; simpl; intros a; [reflexivity|].
  rewrite IH. apply length_insert.
Qed.

Lemma foldl_insert_keeps (v : string) (pos : list nat) (a : list string) (i : nat) :
  a !! i = Some v -> foldl (fun acc i => <[i := v]> acc) a pos !! i = Some v.
Proof.
  revert a. induction pos as [|p pos IH]; simpl; intros a Ha; [exact Ha|].
  apply IH. destruct (decide (p = i)) as [->|Hne].
  - apply list_lookup_insert_eq. eapply lookup_lt_Some; eauto.
  - rewrite list_lookup_insert_ne by exact Hne. exact Ha.
Qed.

Lemma foldl_insert_hit (v : string) (pos : list nat) (a : list string) (i : nat) :
  i ∈ pos -> i < length a -> foldl (fun acc i => <[i := v]> acc) a pos !! i = Some v.
Proof.
  revert a. induction pos as [|p pos IH]; simpl; intros a Hin Hlt.
  - inversion Hin.
  - apply elem_of_cons in Hin as [->|Hin].
    + apply foldl_insert_keeps. apply list_lookup_insert_eq. exact Hlt.
    + apply IH; [exact Hin|]. rewrite length_insert. exact Hlt.
Qed.

Lemma np_setitem_length a ix v a' :
  np_setitem a ix v = Ok a' -> length a' = length a.
Proof.
  destruct ix as [m|l]; simpl.
  - case_bool_decide; [|discriminate]. intros [= <-].
    rewrite length_zip_with. lia.
  - intros H. apply bind_Ok in H as (pos & Hpos & H). injection H as <-.
    apply foldl_insert_length.
Qed.

Lemma np_setitem_selected a ix v a' i :
  np_setitem a ix v = Ok a' -> selects (length a) ix i -> a' !! i = Some v.
Proof.
  destruct ix as [m|l]; simpl.
  - case_bool_decide as Hlen; [|discriminate]. intros [= <-] Hi.
    assert (Hlt : i < length a) by (rewrite <- Hlen; eapply lookup_lt_Some; eauto).
    apply lookup_lt_is_Some in Hlt as [old Hold].
    rewrite lookup_zip_with, Hi. simpl. rewrite Hold. reflexivity.
  - intros H (z & Hz & Hn). apply bind_Ok in H as (pos & Hpos & H). injection H as <-.
    apply mapM_Ok_Forall2 in Hpos.
    apply foldl_insert_hit; [|eapply norm_dim_lt; eauto].
    apply list_elem_of_lookup in Hz as [j Hj].
    destruct (Forall2_lookup_l _ _ _ _ _ Hpos Hj) as (i' & Hi' & Hf).
    rewrite Hn in Hf. injection Hf as <-.
    eapply list_elem_of_lookup_2; eauto.
Qed.

(** C9.  When both [idx1] and [idx2] are given and a cell is selected by
    both, [_prepare_obs] labels that cell "two": the masks [_de_core] then
    builds put it in the second population and not in the first. *)
Theorem prepare_obs_overlap_is_two query idx1 idx2 adata obs_col group1 group2 ix1 ix2 i :
  _prepare_obs query idx1 (Some idx2) adata = Ok (obs_col, group1, group2) ->
  ravel_idx query idx1 (obs adata) = Ok ix1 ->
  ravel_idx query idx2 (obs adata) = Ok ix2 ->
  selects (n_obs adata) ix1 i ->
  selects (n_obs adata) ix2 i ->
  group1 = ["one"] /\ group2 = Some "two"
  /\ obs_col !! i = Some "two"
  /\ eq_mask obs_col "one" !! i = Some false
  /\ eq_mask obs_col "two" !! i = Some true.
Proof.
  intros H H1 H2 Hs1 Hs2. unfold _prepare_obs in H.
  rewrite H1 in H. simpl in H.
  apply bind_Ok in H as (col1 & Hc1 & H).
  rewrite H2 in H. simpl in H.
  apply bind_Ok in H as ([col2 oix] & Hc2 & H).
  apply bind_Ok in Hc2 as (col2' & Hc2 & Hret). injection Hret as <- <-.
  apply bind_Ok in H as (n1 & Hn1 & H).
  apply bind_Ok in H as (empty & He & H).
  destruct empty; [discriminate|]. injection H as <- <- <-.
  assert (Hcol : col2' !! i = Some "two").
  { eapply np_setitem_selected; [exact Hc2|].
    rewrite (np_setitem_length _ _ _ _ Hc1), length_replicate. exact Hs2. }
  repeat split; [exact Hcol| |]; unfold eq_mask; rewrite list_lookup_fmap, Hcol; reflexivity.
Qed.


Lemma prepare_obs_overlap_is_two_witness :
  let adata := {| n_obs := 4; obs := ∅ |} in
  exists obs_col,
    _prepare_obs Examples.query (ByMask [true; true; false; false])
      (Some (ByIndices [1; -1]%Z)) adata
      = Ok (obs_col, ["one"], Some "two")
    /\ obs_col !! 1 = Some "two".
Proof.
  intros adata. exists ["one"; "two"; "None"; "two"].
  split; [reflexivity|].
  refine (proj1 (proj2 (proj2 (prepare_obs_overlap_is_two Examples.query
    (ByMask [true; true; false; false]) (ByIndices [1; -1]%Z) adata
    ["one"; "two"; "None"; "two"] ["one"] (Some "two")
    (BoolIndex [true; true; false; false]) (IntIndex [1; -1]%Z) 1 _ _ _ _ _)))).
  - reflexivity.
  - reflexivity.
  - reflexivity.
  - reflexivity.
  - exists 1%Z. split; [apply list_elem_of_here|reflexivity].
Defined.

Lemma readonly_ret {A} (a : A) : readonly (mret a).
Proof. intros s. reflexivity. Qed.

Lemma readonly_lift {A} (r : result A) : readonly (lift r).
Proof. intros s. reflexivity. Qed.

Lemma readonly_get_adata : readonly get_adata.
Proof. intros s. reflexivity. Qed.

Lemma readonly_obs_getitem key : readonly (obs_getitem key).
Proof. intros s. reflexivity. Qed.

Lemma readonly_bind {A B} (m : de A) (f : A -> de B) :
  readonly m -> (forall a, readonly (f a)) -> readonly (m ≫= f).
Proof.
  intros Hm Hf s. unfold mbind, de_bind. specialize (Hm s).
  destruct (m s) as [s' [a|e]]; simpl in *; subst s'; [apply Hf | reflexivity].
Qed.

Lemma readonly_mapM {A B} (f : A -> de B) l :
  (forall a, readonly (f a)) -> readonly (mapM (M := de) f l).
Proof.
  intros Hf. induction l as [|a l IH]; simpl.
  - apply readonly_ret.
  - apply readonly_bind; [apply Hf|]. intros b.
    apply readonly_bind; [exact IH|]. intros k. apply readonly_ret.
Qed.

Create HintDb readonly.
#[local] Hint Resolve readonly_ret readonly_lift readonly_get_adata
  readonly_obs_getitem : readonly.

Ltac readonly_step :=
  match goal with
  | |- readonly (_ ≫= _) => apply readonly_bind; [|intros]
  | |- readonly (mapM _ _) => apply readonly_mapM; intros
  | |- readonly (match ?x with _ => _ end) => destruct x
  | |- readonly (if ?b then _ else _) => destruct b
  | |- readonly (let _ := _ in _) => cbv zeta
  | |- _ => solve [auto with readonly]
  end.

Lemma de_bind_Ok {A B} (m : de A) (f : A -> de B) s s' b :
  (m ≫= f) s = (s', Ok b) ->
  exists s1 a, m s = (s1, Ok a) /\ f a s1 = (s', Ok b).
Proof.
  unfold mbind, de_bind. destruct (m s) as [s1 [a|e]]; [eauto | discriminate].
Qed.

Lemma readonly_run {A} (m : de A) s s' r : readonly m -> m s = (s', r) -> s' = s.
Proof. intros Hm H. specialize (Hm s). rewrite H in Hm. exact Hm. Qed.

Section Restore.
Variable query : gmap string obs_column -> string -> result (list bool).
Variable get_bayes_factors :
  AnnData -> list bool -> list bool -> string -> float ->
  option (list string) -> option (list string) -> bool ->
  result (gmap string (list float)).
Variable all_stats_fn :
  AnnData -> list bool -> list bool -> result (gmap string (list float)).
Variable repr_float : float -> string.

(** C6 (as amended).  A mask-based call of [_de_core] that completes
    normally, on an [obs] table that has no column named
    "_scvi_temp_de" before the call, leaves [adata] as it was: the
    columns of [obs] after the call are those before the call. *)
Theorem de_core_restores_obs groupby group1 group2 idx1 idx2 all_stats col_names
    mode batchid1 batchid2 delta batch_correction fdr silent adata adata' res :
  obs adata !! "_scvi_temp_de" = None ->
  _de_core query get_bayes_factors all_stats_fn repr_float groupby group1 group2
    (Some idx1) idx2 all_stats col_names mode batchid1 batchid2 delta
    batch_correction fdr silent adata = (adata', Ok res) ->
  adata' = adata /\ dom (obs adata') = dom (obs adata).
Proof.
  intros Hfresh H.
  enough (adata' = adata) as -> by (split; reflexivity).
  unfold _de_core in H.
  apply de_bind_Ok in H as (s1 & g1 & H1 & H).
  assert (s1 = adata) as ->.
  { eapply readonly_run; [|exact H1]. destruct group1; auto with readonly. }
  clear H1.
  apply de_bind_Ok in H as (s2 & [[[gb g1'] g2'] tk] & H2 & H).
  apply de_bind_Ok in H2 as (s3 & ad & Hget & H2).
  injection Hget as <- <-.
  apply de_bind_Ok in H2 as (s4 & [[obs_col g1''] g2''] & Hprep & H2).
  assert (s4 = adata) as -> by (eapply readonly_run; [|exact Hprep]; auto with readonly).
  apply de_bind_Ok in H2 as (s5 & [] & Hset & H2).
  cbv [mret de_ret] in H2. simplify_eq.
  unfold obs_setitem in Hset.
  destruct (bool_decide (length obs_col = n_obs adata)); [|discriminate].
  injection Hset as <-.
  apply de_bind_Ok in H as (s6 & dfs & Hloop & H).
  apply readonly_run in Hloop; [|repeat readonly_step]. subst s6.
  apply de_bind_Ok in H as (s7 & [] & Hdel & H).
  apply readonly_run in H; [|auto with readonly]. subst s7.
  unfold obs_delitem in Hdel. simpl in Hdel.
  rewrite lookup_insert_eq in Hdel. injection Hdel as <-.
  rewrite delete_insert_id by exact Hfresh. destruct adata; reflexivity.
Qed.
End Restore.


Lemma de_core_restores_obs_witness :
  let adata := {| n_obs := 3; obs := {[ "batch" := of_array ["u"; "v"; "w"] ]} |} in
  exists res, Examples.de_masks adata = (adata, Ok res).
Proof.
  intros adata.
  assert (E : exists adata' res, Examples.de_masks adata = (adata', Ok res))
    by (eexists _, _; reflexivity).
  destruct E as (adata' & res & E). exists res.
  destruct (de_core_restores_obs Examples.query Examples.bayes_factors Examples.all_stats
              Examples.repr None GNone None
              (ByMask [true; false; false]) (Some (ByMask [false; true; false]))
              false ["gene_a"; "gene_b"] "vanilla" None None 0.25%float true 0.05%float true
              adata adata' res eq_refl E) as [<- _].
  exact E.
Defined.

(** C6 as stated fails when [obs] already has a column named
    "_scvi_temp_de": the call completes and the column is gone. *)
Lemma de_core_drops_existing_column :
  let adata := {| n_obs := 3; obs := {[ "_scvi_temp_de" := of_array ["u"; "v"; "w"] ]} |} in
  is_Ok (Examples.de_masks adata).2
  /\ dom (obs (Examples.de_masks adata).1) <> dom (obs adata).
Proof.
  split.
  - vm_compute. eexists. reflexivity.
  - vm_compute. discriminate.
Qed.

End DEProperties.

(** ** The history merge ([TrainRunner._update_history]) *)

Section HistoryProperties.
Import TrainRunner History.

Lemma foldl_merge_step_lookup (l : list (string * Frame)) (hist newh : gmap string Frame) key :
  NoDup l.*1 ->
  (foldl merge_step (hist, newh) l).1 !! key
  = match (list_to_map l : gmap string Frame) !! key, newh !! key with
    | Some val, Some new => Some (merged val new)
    | _, _ => hist !! key
    end.
Proof.
  revert hist newh. induction l as [|[k0 v0] l IH]; intros hist newh Hnd.
  - simpl. rewrite lookup_empty. reflexivity.
  - apply NoDup_cons in Hnd as [Hk0 Hnd]. simpl in Hk0.
    assert (Hl0 : (list_to_map l : gmap string Frame) !! k0 = None)
      by (apply not_elem_of_list_to_map_1; exact Hk0).
    cbn [foldl list_to_map foldr]. unfold merge_step at 2.
    destruct (decide (key = k0)) as [->|Hne].
    + rewrite lookup_insert_eq.
      destruct (newh !! k0) as [new|] eqn:Hnew.
      * rewrite IH by exact Hnd. rewrite Hl0, lookup_insert_eq. reflexivity.
      * rewrite IH by exact Hnd. rewrite Hl0. reflexivity.
    + rewrite (lookup_insert_ne _ k0 key) by congruence.
      destruct (newh !! k0) as [new|] eqn:Hnew.
      * rewrite IH by exact Hnd. rewrite !(lookup_insert_ne _ k0 key) by congruence.
        reflexivity.
      * rewrite IH by exact Hnd. reflexivity.
Qed.

Lemma foldl_merge_step_shared_lookup (l : list (string * Frame)) (hist : gmap string Frame) key :
  NoDup l.*1 ->
  foldl merge_step_shared hist l !! key
  = match (list_to_map l : gmap string Frame) !! key with
    | Some val => Some (merged_shared val)
    | None => hist !! key
    end.
Proof.
  revert hist. induction l as [|[k0 v0] l IH]; intros hist Hnd.
  - simpl. rewrite lookup_empty. reflexivity.
  - apply NoDup_cons in Hnd as [Hk0 Hnd]. simpl in Hk0.
    assert (Hl0 : (list_to_map l : gmap string Frame) !! k0 = None)
      by (apply not_elem_of_list_to_map_1; exact Hk0).
    cbn [foldl list_to_map foldr]. rewrite IH by exact Hnd.
    unfold merge_step_shared.
    destruct (decide (key = k0)) as [->|Hne].
    + rewrite Hl0, !lookup_insert_eq. reflexivity.
    + rewrite !(lookup_insert_ne _ k0 key) by congruence. reflexivity.
Qed.

Lemma merge_loop_lookup (h n : gmap string Frame) key :
  (foldl merge_step (h, n) (map_to_list h)).1 !! key
  = match h !! key, n !! key with
    | Some val, Some new => Some (merged val new)
    | _, _ => h !! key
    end.
Proof.
  rewrite foldl_merge_step_lookup by apply NoDup_fst_map_to_list.
  rewrite list_to_map_to_list. reflexivity.
Qed.

Lemma merge_loop_shared_lookup (h : gmap string Frame) key :
  foldl merge_step_shared h (map_to_list h) !! key = merged_shared <$> h !! key.
Proof.
  rewrite foldl_merge_step_shared_lookup by apply NoDup_fst_map_to_list.
  rewrite list_to_map_to_list. destruct (h !! key); reflexivity.
Qed.

Lemma same_keys_dom (h h' : gmap string Frame) :
  (forall k, is_Some (h' !! k) <-> is_Some (h !! k)) -> dom h' = dom h.
Proof. intros H. apply set_eq. intros k. rewrite !elem_of_dom. apply H. Qed.

(** C10.  After the merge on a second fit call the stored history has the
    keys it had before: a metric absent from it is not added, and a metric
    absent from the new logger history keeps its value. *)
Theorem update_history_keeps_keys self self' warnings h :
  model_is_trained_ self = true ->
  model_history_ self = HistDict h ->
  _update_history self = Ok (self', warnings) ->
  exists h', model_history_ self' = HistDict h'
    /\ dom h' = dom h
    /\ (forall key, h !! key = None -> h' !! key = None)
    /\ (forall new_history key,
          trainer_logger_history self = History new_history ->
          new_history !! key = None -> h' !! key = h !! key).
Proof.
  intros Htr Hh H. unfold _update_history in H. rewrite Htr, Hh in H.
  destruct (trainer_logger_history self) as [|n|] eqn:Hlog; [discriminate| |].
  - destruct (foldl merge_step (h, n) (map_to_list h)) as [h1 n1] eqn:Hloop.
    injection H as <- <-. exists h1. simpl.
    assert (Hlk : forall key, h1 !! key
              = match h !! key, n !! key with
                | Some val, Some new => Some (merged val new)
                | _, _ => h !! key
                end).
    { intros key. rewrite <- merge_loop_lookup, Hloop. reflexivity. }
    split; [reflexivity|]. split; [|split].
    + apply same_keys_dom. intros k. rewrite Hlk.
      destruct (h !! k), (n !! k); split; intros [? ?]; eauto; discriminate.
    + intros key Hk. rewrite Hlk, Hk. reflexivity.
    + intros n' key [= <-] Hk. rewrite Hlk, Hk. destruct (h !! key); reflexivity.
  - injection H as <- <-. eexists. simpl. split; [reflexivity|]. split; [|split].
    + apply same_keys_dom. intros k. rewrite merge_loop_shared_lookup.
      destruct (h !! k); split; intros [? ?]; eauto; discriminate.
    + intros key Hk. rewrite merge_loop_shared_lookup, Hk. reflexivity.
    + intros n' key [=].
Qed.

(** X26.  On a second fit call on a trained model whose stored history is a
    dictionary, with a logger whose history is a dictionary of its own,
    every metric of the stored history that the new history also has gets
    the new rows appended, indexed from the number of rows it had, under
    the index name it had; the other metrics are kept; when the stored
    history is not a dictionary the merge is skipped with a warning. *)
Theorem update_history_second_fit self :
  model_is_trained_ self = true ->
  (forall h new_history,
     model_history_ self = HistDict h ->
     trainer_logger_history self = History new_history ->
     exists self' h',
       _update_history self = Ok (self', [])
       /\ model_history_ self' = HistDict h'
       /\ forall key val, h !! key = Some val ->
            h' !! key
            = Some match new_history !! key with
                   | Some new =>
                       {| index_name := index_name val;
                          rows := rows val
                                  ++ zip (Z.of_nat <$> seq (len val) (len new)) (rows new).*2 |}
                   | None => val
                   end)
  /\ ((forall h, model_history_ self <> HistDict h) ->
      _update_history self = Ok (self, [warning])).
Proof.
  intros Htr. split.
  - intros h n Hh Hlog. unfold _update_history. rewrite Htr, Hh, Hlog.
    destruct (foldl merge_step (h, n) (map_to_list h)) as [h1 n1] eqn:Hloop.
    eexists _, h1. split; [reflexivity|]. split; [reflexivity|].
    intros key val Hval.
    assert (Hlk := merge_loop_lookup h n key). rewrite Hloop in Hlk. simpl in Hlk.
    rewrite Hlk, Hval. destruct (n !! key) as [new|]; [|reflexivity].
    unfold merged, set_index_name, concat, set_index, arange. simpl.
    replace (len val + len new - len val) with (len new) by lia. reflexivity.
  - intros Hnd. unfold _update_history. rewrite Htr.
    destruct (model_history_ self) as [|h|] eqn:Hh; try reflexivity.
    exfalso. apply (Hnd h). reflexivity.
Qed.


Lemma update_history_keeps_keys_witness :
  exists self' warnings h',
    _update_history
      (Examples.trained (History {[ "elbo_train" := Examples.history_frame [(0, 3#1)]%Z ]}))
      = Ok (self', warnings)
    /\ model_history_ self' = HistDict h'
    /\ dom h' = {[ "elbo_train"; "elbo_validation" ]}.
Proof.
  assert (E : exists r,
             _update_history
               (Examples.trained
                  (History {[ "elbo_train" := Examples.history_frame [(0, 3#1)]%Z ]}))
             = Ok r) by (eexists; reflexivity).
  destruct E as ([self' warnings] & E).
  destruct (update_history_keeps_keys
              (Examples.trained
                 (History {[ "elbo_train" := Examples.history_frame [(0, 3#1)]%Z ]}))
              self' warnings _ eq_refl eq_refl E)
    as (h' & Hh' & Hdom & _).
  exists self', warnings, h'. split; [exact E|]. split; [exact Hh'|].
  rewrite Hdom. vm_compute. reflexivity.
Defined.

Lemma update_history_second_fit_witness :
  let new := Examples.history_frame [(0, 3#1); (1, 2#1)]%Z in
  exists self' h',
    _update_history (Examples.trained (History {[ "elbo_train" := new ]})) = Ok (self', [])
    /\ model_history_ self' = HistDict h'
    /\ h' !! "elbo_train"
       = Some (Examples.history_frame [(0, 5#1); (1, 4#1); (2, 3#1); (3, 2#1)]%Z)
    /\ h' !! "elbo_validation" = Some (Examples.history_frame [(0, 6#1)]%Z).
Proof.
  intros new.
  destruct (proj1 (update_history_second_fit
                     (Examples.trained (History {[ "elbo_train" := new ]})) eq_refl)
              _ _ eq_refl eq_refl) as (self' & h' & Hrun & Hh' & Hrows).
  exists self', h'. split; [exact Hrun|]. split; [exact Hh'|]. split.
  - exact (Hrows "elbo_train" _ eq_refl).
  - exact (Hrows "elbo_validation" _ eq_refl).
Defined.

(** C7.  The code does not do what the claim says when the logger of the
    second fit exposes no history: on a trained model whose stored history
    is a dictionary, [_update_history] reads [self.trainer.logger.history]
    unguarded and raises [AttributeError], where the claim has the merge
    skipped with a warning; on a model not yet trained the same logger is
    tolerated (the [try ... except AttributeError] of the other branch)
    and the call returns. *)
Theorem update_history_logger_without_history self :
  trainer_logger_history self = NoHistoryAttr ->
  (forall h,
     model_is_trained_ self = true ->
     model_history_ self = HistDict h ->
     _update_history self = Raise (AttributeError "history"))
  /\ (model_is_trained_ self = false ->
      exists self',
        _update_history self = Ok (self', [])
        /\ self_history_ self' = Some HistNone
        /\ model_history_ self' = model_history_ self).
Proof.
  intros Hlog. split.
  - intros h Htr Hh. unfold _update_history. rewrite Htr, Hh, Hlog. reflexivity.
  - intros Htr. unfold _update_history. rewrite Htr, Hlog.
    eexists. split; [reflexivity|]. split; reflexivity.
Qed.

Lemma update_history_logger_without_history_witness :
  _update_history (Examples.trained NoHistoryAttr) = Raise (AttributeError "history").
Proof.
  refine (proj1 (update_history_logger_without_history (Examples.trained NoHistoryAttr) _)
            _ eq_refl eq_refl).
  reflexivity.
Defined.

End HistoryProperties.

(** ** The reconstruction term ([WVAE.loss]) *)

Section LossTermProperties.
Import Torch Estimator LossTerms.

Lemma mean_dim0_matrix (t : tensor) P C :
  shape t = [P; C] -> wf t ->
  neg (mean_dim0 t)
  = Tensor [C] ((fun c => Dual (- particle_mean value P C t c)
                               (- particle_mean grad P C t c)) <$> seq 0 C).
Proof.
  intros Hs Hwf. unfold neg, mean_dim0. cbn [shape data].
  rewrite (slices_tab t P C Hs Hwf), (slice_numel_cells t P C Hs), Hs. cbn [tail].
  f_equal. rewrite sum_rows_tab, <- !list_fmap_compose.
  apply list_fmap_ext. intros _ c _. unfold compose.
  replace (length (tab (seq 0 P) C (fun p c0 => entry t C p c0))) with P
    by (unfold tab; rewrite length_fmap, length_seq; reflexivity).
  unfold dneg, ddiv_nat, particle_mean. cbn [value grad].
  rewrite (proj_dsum_seq value), (proj_dsum_seq grad) by reflexivity. reflexivity.
Qed.

(** X1.  The reconstruction term that [loss] reports is, cell by cell, the
    negative mean over the particles of [log_px_latents]; the two KL terms
    are the constant 0. *)
Theorem loss_reconstruction_term self tensors inference_outputs generative_outputs
    kl_weight r log_px_latents P C :
  generative_outputs !! "log_px_latents" = Some log_px_latents ->
  shape log_px_latents = [P; C] ->
  wf log_px_latents ->
  WVAE.loss self tensors inference_outputs generative_outputs kl_weight = Ok r ->
  LossRecorder.reconstruction_loss r
  = Tensor [C] ((fun c => Dual (- particle_mean value P C log_px_latents c)
                               (- particle_mean grad P C log_px_latents c)) <$> seq 0 C)
  /\ LossRecorder.kl_local r = scalar 0
  /\ LossRecorder.kl_global r = scalar 0.
Proof.
  intros Hx Hs Hwf H. unfold WVAE.loss in H.
  step H log_pjoint Hp. step H log_qjoint Hq. step H log_ratios Hsub.
  step H u Hassert. step H loss Hloss. step H lpx Hlpx.
  unfold getitem in Hlpx. rewrite Hx in Hlpx. injection Hlpx as <-.
  injection H as <-. cbn [LossRecorder.reconstruction_loss LossRecorder.kl_local
                            LossRecorder.kl_global].
  split; [apply mean_dim0_matrix; assumption | split; reflexivity].
Qed.

Lemma loss_reconstruction_term_witness :
  let t := Examples.matrix 2 1 [0; 1]%R in
  exists r,
    WVAE.loss (Examples.wvae "ELBO" false) ∅ (Examples.outputs t).1 (Examples.outputs t).2 1
    = Ok r
    /\ LossRecorder.reconstruction_loss r
       = Tensor [1] [Dual (- particle_mean value 2 1 t 0) (- particle_mean grad 2 1 t 0)].
Proof.
  intros t.
  assert (E : exists r, WVAE.loss (Examples.wvae "ELBO" false) ∅
                          (Examples.outputs t).1 (Examples.outputs t).2 1 = Ok r)
    by (eexists; reflexivity).
  destruct E as [r E]. exists r. split; [exact E|].
  refine (proj1 (loss_reconstruction_term (Examples.wvae "ELBO" false) ∅
                   (Examples.outputs t).1 (Examples.outputs t).2 1%R r t 2 1 _ _ _ E));
    reflexivity.
Defined.

End LossTermProperties.

(** ** The two modes of the loss compared ([WVAE.loss]) *)

Section LossOrderProperties.
Import Torch Estimator.

Local Open Scope R_scope.

Lemma Rsum_S n f : Rsum (S n) f = Rsum n f + f n.
Proof.
  unfold Rsum. rewrite seq_S, fmap_app. cbn [Nat.add fmap list_fmap].
  generalize (f <$> seq 0 n) as l. intros l.
  induction l as [|x l IH]; cbn [foldr app]; [Lra.lra | rewrite IH; Lra.lra].
Qed.

Lemma Rsum_0 f : Rsum 0 f = 0.
Proof. reflexivity. Qed.

Lemma Rsum_plus n f g : Rsum n (fun i => f i + g i) = Rsum n f + Rsum n g.
Proof. induction n as [|n IH]; [rewrite !Rsum_0; Lra.lra | rewrite !Rsum_S, IH; Lra.lra]. Qed.

Lemma Rsum_scal n c f : Rsum n (fun i => c * f i) = c * Rsum n f.
Proof. induction n as [|n IH]; [rewrite !Rsum_0; Lra.lra | rewrite !Rsum_S, IH; Lra.lra]. Qed.

Lemma Rsum_scal_r n c f : Rsum n (fun i => f i * c) = Rsum n f * c.
Proof. induction n as [|n IH]; [rewrite !Rsum_0; Lra.lra | rewrite !Rsum_S, IH; Lra.lra]. Qed.

Lemma Rsum_const n c : Rsum n (fun _ => c) = INR n * c.
Proof.
  induction n as [|n IH]; [rewrite Rsum_0; simpl; Lra.lra | rewrite Rsum_S, IH, S_INR; Lra.lra].
Qed.

Lemma Rsum_le n f g : (forall i, (i < n)%nat -> f i <= g i) -> Rsum n f <= Rsum n g.
Proof.
  induction n as [|n IH]; intros H; [rewrite !Rsum_0; Lra.lra|].
  rewrite !Rsum_S. specialize (H n (Nat.lt_succ_diag_r n)) as Hn.
  assert (Rsum n f <= Rsum n g) by (apply IH; intros i Hi; apply H; lia). Lra.lra.
Qed.

Lemma Rsum_nonneg n f : (forall i, 0 <= f i) -> 0 <= Rsum n f.
Proof.
  intros Hf. induction n as [|n IH]; [rewrite Rsum_0; Lra.lra|].
  rewrite Rsum_S. specialize (Hf n). Lra.lra.
Qed.

Lemma Rsum_pos n f : (0 < n)%nat -> (forall i, 0 < f i) -> 0 < Rsum n f.
Proof.
  intros Hn Hf. destruct n as [|n]; [lia|]. clear Hn.
  induction n as [|n IH].
  - rewrite Rsum_S, Rsum_0. specialize (Hf 0%nat). Lra.lra.
  - rewrite Rsum_S. specialize (Hf (S n)). Lra.lra.
Qed.

Lemma Rsum_swap n m (f : nat -> nat -> R) :
  Rsum n (fun i => Rsum m (fun j => f i j)) = Rsum m (fun j => Rsum n (fun i => f i j)).
Proof.
  induction n as [|n IH].
  - rewrite Rsum_0. symmetry. rewrite (Rsum_ext m _ (fun _ => 0)) by reflexivity.
    rewrite Rsum_const. Lra.lra.
  - rewrite Rsum_S, IH, <- Rsum_plus. apply Rsum_ext. intros j _.
    rewrite Rsum_S. reflexivity.
Qed.

(** Chebyshev's sum inequality for the pair ([exp x], [x]). *)
Lemma exp_weighted_sum n (x : nat -> R) :
  Rsum n (fun p => exp (x p)) * Rsum n x <= INR n * Rsum n (fun p => exp (x p) * x p).
Proof.
  assert (H : 0 <= Rsum n (fun p => Rsum n (fun q =>
                 (exp (x p) - exp (x q)) * (x p - x q)))).
  { apply Rsum_nonneg. intros p. apply Rsum_nonneg. intros q.
    destruct (Rlt_le_dec (x p) (x q)) as [Hlt | Hle].
    - pose proof (exp_increasing _ _ Hlt). Lra.nra.
    - destruct Hle as [Hlt | Heq].
      + pose proof (exp_increasing _ _ Hlt). Lra.nra.
      + rewrite Heq. Lra.lra. }
  rewrite (Rsum_ext n _ (fun p =>
             INR n * (exp (x p) * x p) + - (exp (x p) * Rsum n x)
             + (- (x p * Rsum n (fun q => exp (x q)))
                + Rsum n (fun q => exp (x q) * x q)))) in H.
  2:{ intros p _.
      rewrite (Rsum_ext n _ (fun q =>
                 (exp (x p) * x p + - (exp (x p) * x q))
                 + (- (x p * exp (x q)) + exp (x q) * x q))) by (intros; Lra.lra).
      rewrite !Rsum_plus, Rsum_const.
      rewrite (Rsum_ext n (fun q => - (exp (x p) * x q)) (fun q => (- exp (x p)) * x q))
        by (intros; Lra.lra).
      rewrite (Rsum_ext n (fun q => - (x p * exp (x q))) (fun q => (- x p) * exp (x q)))
        by (intros; Lra.lra).
      rewrite !Rsum_scal. Lra.lra. }
  rewrite !Rsum_plus, Rsum_const in H.
  rewrite (Rsum_ext n (fun p => - (exp (x p) * Rsum n x))
             (fun p => exp (x p) * (- Rsum n x))) in H by (intros; Lra.lra).
  rewrite (Rsum_ext n (fun p => - (x p * Rsum n (fun q => exp (x q))))
             (fun p => x p * (- Rsum n (fun q => exp (x q))))) in H by (intros; Lra.lra).
  rewrite !Rsum_scal_r, Rsum_scal in H. Lra.lra.
Qed.

(** One cell: the weighted sum is at least the plain mean. *)
Lemma weighted_mean_above n (x : nat -> R) :
  (0 < n)%nat ->
  Rsum n x / INR n
  <= Rsum n (fun p => exp (x p) / Rsum n (fun q => exp (x q)) * x p).
Proof.
  intros Hn.
  assert (HZ : 0 < Rsum n (fun q => exp (x q)))
    by (apply Rsum_pos; [exact Hn | intros; apply exp_pos]).
  assert (HN : 0 < INR n) by (apply lt_0_INR; exact Hn).
  set (Z := Rsum n (fun q => exp (x q))) in *.
  rewrite (Rsum_ext n (fun p => exp (x p) / Z * x p) (fun p => / Z * (exp (x p) * x p)))
    by (intros; cbv beta; unfold Rdiv; ring).
  rewrite Rsum_scal.
  pose proof (exp_weighted_sum n x) as H. fold Z in H.
  set (W := Rsum n (fun p => exp (x p) * x p)) in *.
  set (S := Rsum n x) in *.
  apply (Rmult_le_reg_r (INR n * Z)); [Lra.nra|].
  replace (S / INR n * (INR n * Z)) with (Z * S) by (field; Lra.lra).
  replace (/ Z * W * (INR n * Z)) with (INR n * W) by (field; Lra.lra).
  exact H.
Qed.

Lemma iwelbo_below_elbo (lr : tensor) P C :
  (0 < P)%nat -> (0 < C)%nat -> iwelbo_value P C lr <= elbo_value P C lr.
Proof.
  intros HP HC. unfold iwelbo_value, elbo_value, importance_weight.
  assert (HNP : 0 < INR P) by (apply lt_0_INR; exact HP).
  assert (HNC : 0 < INR C) by (apply lt_0_INR; exact HC).
  rewrite (Rsum_swap P C (fun p c => value (entry lr C p c))), mult_INR.
  set (M := Rsum C (fun c => Rsum P (fun p => value (entry lr C p c)))).
  set (W := Rsum C (fun c => Rsum P (fun p =>
              exp (value (entry lr C p c)) / Rsum P (fun q => exp (value (entry lr C q c)))
              * value (entry lr C p c)))).
  assert (HMW : M / INR P <= W).
  { unfold M, W. unfold Rdiv at 1. rewrite <- Rsum_scal_r. apply Rsum_le. intros c _.
    apply (weighted_mean_above P (fun p => value (entry lr C p c)) HP). }
  apply Ropp_le_contravar.
  assert (E : M / (INR P * INR C) = M / INR P * / INR C) by (field; Lra.lra).
  rewrite E. unfold Rdiv at 2. apply Rmult_le_compat_r; [|exact HMW].
  apply Rlt_le, Rinv_0_lt_compat. exact HNC.
Qed.

Lemma Rsum_1 f : Rsum 1 f = f 0%nat.
Proof. rewrite Rsum_S, Rsum_0. Lra.lra. Qed.

Lemma single_particle_same (lr : tensor) C :
  iwelbo_value 1 C lr = elbo_value 1 C lr /\ iwelbo_grad 1 C lr = elbo_grad 1 C lr.
Proof.
  unfold iwelbo_value, elbo_value, iwelbo_grad, elbo_grad, importance_weight.
  rewrite !Rsum_1, Nat.mul_1_l.
  split; f_equal; f_equal; apply Rsum_ext; intros c _; rewrite !Rsum_1;
    pose proof (exp_pos (value (entry lr C 0 c))); field; Lra.lra.
Qed.


Local Close Scope R_scope.

(** The loss tensor that [loss] returns in each mode, on a log-ratio matrix
    of shape (particles x cells). *)
Lemma loss_outcome self tensors inference_outputs generative_outputs kl_weight
    log_pjoint log_qjoint log_px_latents log_ratios P C :
  generative_outputs !! "log_pjoint" = Some log_pjoint ->
  inference_outputs !! "log_qjoint" = Some log_qjoint ->
  generative_outputs !! "log_px_latents" = Some log_px_latents ->
  sub log_pjoint log_qjoint = Ok log_ratios ->
  shape log_ratios = [P; C] ->
  wf log_ratios ->
  WVAE.loss_type self = "ELBO" \/ WVAE.loss_type self = "IWELBO" ->
  exists r,
    WVAE.loss self tensors inference_outputs generative_outputs kl_weight = Ok r
    /\ LossRecorder.loss r
       = if bool_decide (WVAE.loss_type self = "ELBO")
         then Tensor [] [Dual (elbo_value P C log_ratios) (elbo_grad P C log_ratios)]
         else Tensor [] [Dual (iwelbo_value P C log_ratios) (iwelbo_grad P C log_ratios)].
Proof.
  intros Hp Hq Hx Hsub Hshape Hwf Hmode. unfold WVAE.loss, getitem.
  rewrite Hp, Hq, Hx. cbn [mbind result_bind]. rewrite Hsub. cbn [mbind result_bind].
  rewrite (bool_decide_eq_true_2 (ndim log_ratios = 2))
    by (unfold ndim; rewrite Hshape; reflexivity).
  cbn [py_assert mbind result_bind].
  destruct Hmode as [Hmode | Hmode]; rewrite Hmode.
  - rewrite (bool_decide_eq_true_2 ("ELBO" = "ELBO")) by reflexivity.
    cbn [mbind result_bind]. eexists. split; [reflexivity|].
    cbn [LossRecorder.loss]. apply elbo_loss; assumption.
  - rewrite (bool_decide_eq_false_2 ("IWELBO" = "ELBO")) by discriminate.
    rewrite (bool_decide_eq_true_2 ("IWELBO" = "IWELBO")) by reflexivity.
    rewrite (weighted_tab log_ratios P C Hshape Hwf). cbn [mbind result_bind].
    eexists. split; [reflexivity|].
    cbn [LossRecorder.loss]. apply iwelbo_loss; assumption.
Qed.



(** X3.  With a single particle kept as a row (log-ratios of shape
    (1 x cells)) the two modes return the same loss, value and
    derivative: the only weight is 1. *)
Theorem single_particle_modes_agree self_iw self_elbo tensors inference_outputs
    generative_outputs kl_weight log_pjoint log_qjoint log_px_latents log_ratios C :
  WVAE.loss_type self_iw = "IWELBO" ->
  WVAE.loss_type self_elbo = "ELBO" ->
  generative_outputs !! "log_pjoint" = Some log_pjoint ->
  inference_outputs !! "log_qjoint" = Some log_qjoint ->
  generative_outputs !! "log_px_latents" = Some log_px_latents ->
  sub log_pjoint log_qjoint = Ok log_ratios ->
  shape log_ratios = [1; C] ->
  wf log_ratios ->
  exists r,
    WVAE.loss self_iw tensors inference_outputs generative_outputs kl_weight = Ok r
    /\ WVAE.loss self_elbo tensors inference_outputs generative_outputs kl_weight = Ok r.
Proof.
  intros Hiw Hel Hp Hq Hx Hsub Hshape Hwf.
  destruct (loss_outcome self_iw tensors inference_outputs generative_outputs kl_weight
              _ _ _ _ 1 C Hp Hq Hx Hsub Hshape Hwf (or_intror Hiw)) as (r1 & Hr1 & Hl1).
  destruct (loss_outcome self_elbo tensors inference_outputs generative_outputs kl_weight
              _ _ _ _ 1 C Hp Hq Hx Hsub Hshape Hwf (or_introl Hel)) as (r2 & Hr2 & Hl2).
  rewrite Hiw in Hl1. rewrite Hel in Hl2.
  rewrite (bool_decide_eq_false_2 ("IWELBO" = "ELBO")) in Hl1 by discriminate.
  rewrite (bool_decide_eq_true_2 ("ELBO" = "ELBO")) in Hl2 by reflexivity.
  destruct (single_particle_same log_ratios C) as [Ev Eg]. rewrite Ev, Eg in Hl1.
  exists r1. split; [exact Hr1|]. rewrite Hr2. f_equal.
  unfold WVAE.loss in Hr1, Hr2.
  step Hr1 pj1 Ha1. step Hr1 qj1 Hb1. step Hr1 lr1 Hc1. step Hr1 u1 Hu1. step Hr1 l1 Hll1.
  step Hr1 x1 Hx1. injection Hr1 as <-.
  step Hr2 pj2 Ha2. step Hr2 qj2 Hb2. step Hr2 lr2 Hc2. step Hr2 u2 Hu2. step Hr2 l2 Hll2.
  step Hr2 x2 Hx2. injection Hr2 as <-.
  cbn [LossRecorder.loss] in Hl1, Hl2. subst l1 l2.
  rewrite Hx1 in Hx2. injection Hx2 as <-. reflexivity.
Qed.

Lemma single_particle_modes_agree_witness :
  let t := Examples.matrix 1 2 [0; 1]%R in
  exists r,
    WVAE.loss (Examples.wvae "IWELBO" false) ∅ (Examples.outputs t).1 (Examples.outputs t).2 1
    = Ok r
    /\ WVAE.loss (Examples.wvae "ELBO" false) ∅ (Examples.outputs t).1 (Examples.outputs t).2 1
       = Ok r.
Proof.
  intros t.
  refine (single_particle_modes_agree (Examples.wvae "IWELBO" false)
            (Examples.wvae "ELBO" false) ∅ (Examples.outputs t).1 (Examples.outputs t).2
            1%R t t t
            (Tensor [1; 2] [dsub (dconst 0) (dconst 0); dsub (dconst 1) (dconst 1)]) 2
            _ _ _ _ _ _ _ _); reflexivity.
Defined.

End LossOrderProperties.

(** ** The forward pass returns ([WVAE.inference], [WVAE.generative]) *)

Section ForwardProperties.
Import Shape WVAE Forward Ready.

(** What [inference] returns on a batch of [C] cells whose covariates the
    encoders are configured for. *)
Lemma inference_returns self C cc ct ns :
  (cc = None \/ exists k, cc = Some [C; k]) ->
  (ct = None \/ exists m, ct = Some [C; m]) ->
  encoder_ready self cc ct ->
  let pd := particle_dims (particles self ns) in
  let observed := use_observed_lib_size self in
  inference self [C; n_input self] [C; 1] cc ct ns
  = Ok (list_to_map
          [("z", PyTensor (pd ++ [C; n_latent self]));
           ("qz", PyDist [C; n_latent self]);
           ("ql", if observed then PyNone else PyDist [C; 1]);
           ("library", PyTensor (if observed then [C; 1] else pd ++ [C; 1]));
           ("log_ql", if observed then PyFloat else PyTensor (pd ++ [C]));
           ("log_qz", PyTensor (pd ++ [C]));
           ("log_qjoint", PyTensor (pd ++ [C]));
           ("point_library", PyTensor [C; 1])]).
Proof.
  intros Hcc Hct Hready pd observed.
  rewrite (inference_run self C (n_input self) cc ct ns Hcc Hct).
  rewrite check_configured_intro; [reflexivity | |].
  - unfold n_input_encoder. unfold encoder_ready, covariates_ready in Hready.
    destruct (encode_covariates self).
    + destruct (Hready eq_refl) as [<- _]. destruct cc as [c|]; cbn.
      * reflexivity.
      * rewrite Nat.add_0_r. reflexivity.
    + rewrite Nat.add_0_r. destruct cc; reflexivity.
  - unfold n_cat_encoder. unfold encoder_ready, covariates_ready in Hready.
    destruct (encode_covariates self).
    + destruct (Hready eq_refl) as [_ <-]. destruct ct as [c|]; cbn.
      * apply length_replicate.
      * reflexivity.
    + destruct ct; reflexivity.
Qed.

Lemma check_configured_Raise width n_cat input categorical_input e :
  check_configured width n_cat input categorical_input = Raise e ->
  exists msg, e = RuntimeError msg.
Proof.
  unfold check_configured. case_bool_decide; [discriminate|]. intros [= <-]. eauto.
Qed.

Lemma expand_particles P C k : expand [1; C; k] [P; C; k] = Ok [P; C; k].
Proof.
  unfold expand. rewrite bool_decide_eq_true_2; [reflexivity|].
  split; [simpl; lia|]. cbn.
  constructor; [right; reflexivity|]. constructor; [left; reflexivity|].
  constructor; [left; reflexivity|]. constructor.
Qed.

Lemma cat_last_same s a b : cat_last (s ++ [a]) (s ++ [b]) = Ok (s ++ [a + b]).
Proof.
  unfold cat_last. rewrite !reverse_app. cbn [reverse app].
  change (reverse [a]) with [a]. change (reverse [b]) with [b]. cbn [app].
  rewrite bool_decide_eq_true_2 by reflexivity. rewrite reverse_involutive. reflexivity.
Qed.

Lemma generative_returns self C pd library cc ct y :
  (y = None \/ y = Some [C; 1]) ->
  dispersion_ready self y ->
  covariates_ready self cc ct ->
  library = (if use_observed_lib_size self then [C; 1] else pd ++ [C; 1]) ->
  (cc = None \/ exists P k, pd = [P] /\ cc = Some [C; k]) ->
  (ct = None \/ exists m, ct = Some [C; m]) ->
  is_Ok (generative self (pd ++ [C; n_latent self]) library [C; 1] [C; n_input self]
           cc ct None y None).
Proof.
  intros Hy Hdisp [Hcont Hcat] Hlib Hcc Hct. unfold generative.
  set (G := n_input self). set (L := n_latent self).
  (* the decoder input *)
  assert (Hdi : let L' := L + n_continuous_cov self in
    match cc with
    | Some c =>
        n_samples ← size0 (pd ++ [C; L]);
        '(n_obs, n_cont) ← unpack2 c;
        u ← unsqueeze 0 c;
        cont_covs_ ← expand u [n_samples; n_obs; n_cont];
        cat_last (pd ++ [C; L]) cont_covs_
    | None => Ok (pd ++ [C; L])
    end = Ok (pd ++ [C; L'])).
  { rewrite <- Hcont. clear Hcont.
    destruct Hcc as [-> | (P & k & -> & ->)]; cbn [n_columns last default].
    - cbv zeta. rewrite Nat.add_0_r. reflexivity.
    - cbn [app size0 unpack2 mbind result_bind].
      rewrite unsqueeze_0_rank2. cbn [mbind result_bind].
      rewrite expand_particles. cbn [mbind result_bind].
      exact (cat_last_same [P; C] L k). }
  cbv zeta in Hdi. rewrite Hdi. clear Hdi. set (L' := L + n_continuous_cov self).
  cbn [mbind result_bind].
  assert (Hci : exists ci, match ct with Some c => split1_dim1 c | None => Ok [] end = Ok ci
                           /\ length ci = n_cat_covs self).
  { rewrite <- Hcat. clear Hcat. destruct Hct as [-> | [m ->]]; eexists; split; try reflexivity.
    cbn. apply length_replicate. }
  destruct Hci as (ci & -> & Hlen). cbn [mbind result_bind].
  (* the decoder *)
  unfold decoder. rewrite check_configured_intro; [| |exact Hlen].
  2:{ unfold n_input_decoder. fold L. fold L'.
      replace (pd ++ [C; L']) with ((pd ++ [C]) ++ [L']) by (rewrite <- app_assoc; reflexivity).
      apply last_snoc. }
  cbn [mbind result_bind]. rewrite removelast_cells. fold G.
  rewrite <- app_assoc. cbn [app].
  assert (Hrate : Torch.broadcast_shapes library (pd ++ [C; G]) = Ok (pd ++ [C; G])).
  { rewrite Hlib. destruct (use_observed_lib_size self);
      [apply broadcast_unit_cells | apply broadcast_unit_particles]. }
  rewrite Hrate. cbn [mbind result_bind].
  (* the dispersion *)
  assert (Hr : exists px_r q,
    (if bool_decide (dispersion self = "gene-label")
     then yv ← from_option Ok (Raise (AttributeError "size")) y;
          oh ← one_hot yv (n_labels self);
          Some <$> linear oh (px_r_param self)
     else if bool_decide (dispersion self = "gene-batch")
     then oh ← one_hot [C; 1] (n_batch self);
          Some <$> linear oh (px_r_param self)
     else if bool_decide (dispersion self = "gene")
     then Ok (Some (px_r_param self))
     else Ok (if bool_decide (dispersion self = "gene-cell")
              then Some (pd ++ [C; G]) else None)) = Ok (Some px_r)
    /\ pd ++ [C; G] = q ++ px_r).
  { unfold px_r_param. destruct Hdisp as [Hd | [Hd | [Hd | [Hd Hyn]]]]; rewrite Hd.
    - rewrite !(bool_decide_eq_false_2 ("gene" = _)) by discriminate.
      rewrite bool_decide_eq_true_2 by reflexivity.
      exists [G], (pd ++ [C]). rewrite <- app_assoc. split; reflexivity.
    - rewrite (bool_decide_eq_false_2 ("gene-batch" = "gene-label")) by discriminate.
      rewrite !bool_decide_eq_true_2 by reflexivity.
      cbn [one_hot size0 mbind result_bind]. rewrite linear_one_hot.
      exists [C; G], pd. split; reflexivity.
    - rewrite (bool_decide_eq_false_2 ("gene-cell" = "gene-label")) by discriminate.
      rewrite (bool_decide_eq_false_2 ("gene-cell" = "gene-batch")) by discriminate.
      rewrite (bool_decide_eq_false_2 ("gene-cell" = "gene")) by discriminate.
      rewrite bool_decide_eq_true_2 by reflexivity.
      exists (pd ++ [C; G]), []. split; reflexivity.
    - destruct Hy as [-> | ->]; [contradiction|].
      rewrite (bool_decide_eq_true_2 ("gene-label" = "gene-label")) by reflexivity.
      rewrite (bool_decide_eq_false_2 ("gene-label" = "gene-batch")) by discriminate.
      cbn [from_option one_hot size0 mbind result_bind]. rewrite linear_one_hot.
      exists [C; G], pd. split; reflexivity. }
  destruct Hr as (px_r & q & -> & Hq). cbn [mbind result_bind from_option].
  (* the prior of z *)
  rewrite (broadcast_same (pd ++ [C; L]) : Normal (pd ++ [C; L]) (pd ++ [C; L]) = _).
  cbn [mbind result_bind].
  rewrite (broadcast_same (pd ++ [C; L]) : log_prob (pd ++ [C; L]) (pd ++ [C; L]) = _).
  cbn [mbind result_bind].
  rewrite sum_last_cells. cbn [mbind result_bind].
  (* the prior of the library size *)
  assert (Hpl : exists log_pl,
    (if use_observed_lib_size self then Ok PyFloat
     else '(local_library_log_means, local_library_log_vars) ←
            _compute_local_library_params self [C; 1];
          d ← Normal local_library_log_means local_library_log_vars;
          lp ← log_prob d library;
          PyTensor <$> Shape.sum (-1) lp) = Ok log_pl
    /\ (log_pl = PyFloat \/ log_pl = PyTensor (pd ++ [C]))).
  { rewrite Hlib. destruct (use_observed_lib_size self); [eexists; split; [reflexivity | auto]|].
    unfold _compute_local_library_params.
    cbn [one_hot size0 mbind result_bind]. rewrite linear_one_hot.
    cbn [mbind result_bind]. unfold Normal. rewrite broadcast_same. cbn [mbind result_bind].
    unfold log_prob. rewrite (broadcast_suffix_l pd [C; 1]). cbn [mbind result_bind].
    rewrite sum_last_cells. eexists; split; [reflexivity | auto]. }
  destruct Hpl as (log_pl & -> & Hlpl). cbn [mbind result_bind].
  (* the reconstruction term *)
  unfold get_reconstruction_loss.
  rewrite Hq at 1. rewrite broadcast_suffix_l. cbn [mbind result_bind].
  unfold log_prob. rewrite <- Hq. rewrite (broadcast_suffix_r pd [C; G]).
  cbn [mbind result_bind]. rewrite sum_last_cells. cbn [mbind result_bind add].
  rewrite broadcast_same. cbn [mbind result_bind fmap result_fmap].
  destruct Hlpl as [-> | ->]; cbn [add].
  - cbn [mbind result_bind]. eexists. reflexivity.
  - rewrite broadcast_same. cbn [mbind result_bind fmap result_fmap]. eexists. reflexivity.
Qed.


Lemma generative_flat_latents self a l library batch_index x n k cat_covs size_factor y tb :
  exists msg,
    generative self [a; l] library batch_index x (Some [n; k]) cat_covs size_factor y tb
    = Raise (RuntimeError msg).
Proof.
  unfold generative. cbn [size0 unpack2 mbind result_bind].
  rewrite unsqueeze_0_rank2. cbn [mbind result_bind]. rewrite expand_particles.
  cbn [mbind result_bind]. unfold cat_last. cbn [reverse rev_append].
  change (reverse [a; l]) with [l; a]. change (reverse [a; n; k]) with [k; n; a].
  cbv beta iota.
  rewrite (bool_decide_eq_false_2 ([a] = [n; a])) by discriminate.
  cbn [mbind result_bind]. eexists. reflexivity.
Qed.

(** X4.  The forward pass returns on every batch the module is configured
    for: for a batch of [C] cells with as many continuous and categorical
    covariates as the module is configured for, a dispersion setting that
    [generative] knows (with labels when the setting is per label), and
    either no continuous covariates or a particle count other than 1,
    [inference] followed by [generative] raises nothing. *)
Theorem forward_pass_returns self b C n_samples :
  batch_of self C b ->
  covariates_ready self (cont_covs b) (cat_covs b) ->
  dispersion_ready self (y b) ->
  (cont_covs b = None \/ particles self n_samples <> 1) ->
  is_Ok (inference_then_generative self b n_samples).
Proof.
  intros (Hx & Hbi & Hy & Hcc & Hct) Hcov Hdisp Hone.
  unfold inference_then_generative. rewrite Hx, Hbi.
  rewrite (inference_returns self C _ _ n_samples Hcc Hct (fun _ => Hcov)).
  cbn [mbind result_bind].
  set (pd := particle_dims (particles self n_samples)).
  replace (getitem _ "z") with (Ok (A := pyval) (PyTensor (pd ++ [C; n_latent self])))
    by reflexivity.
  cbn [mbind result_bind as_tensor].
  replace (getitem _ "library")
    with (Ok (A := pyval)
            (PyTensor (if use_observed_lib_size self then [C; 1] else pd ++ [C; 1])))
    by reflexivity.
  cbn [mbind result_bind as_tensor].
  destruct (generative_returns self C pd
              (if use_observed_lib_size self then [C; 1] else pd ++ [C; 1])
              (cont_covs b) (cat_covs b) (y b)) as [go Hgo]; auto.
  - destruct Hcc as [Hcc | [k Hcc]]; [left; exact Hcc|].
    destruct Hone as [Hone | Hone]; [left; exact Hone|].
    right. exists (particles self n_samples), k. split; [|exact Hcc].
    unfold pd, particle_dims. apply Nat.eqb_neq in Hone. rewrite Hone. reflexivity.
  - rewrite Hgo. cbn [mbind result_bind]. eexists. reflexivity.
Qed.

Lemma forward_pass_returns_witness :
  is_Ok (inference_then_generative Cases.wvae_covs Cases.batch3_covs (Some 2)).
Proof.
  apply (forward_pass_returns Cases.wvae_covs Cases.batch3_covs 3 (Some 2)).
  - repeat split; [auto | right; exists 2; reflexivity | auto].
  - split; reflexivity.
  - left. reflexivity.
  - right. simpl. lia.
Defined.



(** X6.  On every batch whose covariates the encoders are configured for
    (any covariates when covariate-encoding is disabled), [inference]
    returns a dictionary with exactly eight keys; [point_library] has shape
    (cells x 1) whatever the particle count; when the library size is
    observed [ql] is [None] and [log_ql] the float 0.0, otherwise [ql] is a
    distribution over (cells x 1) and [log_ql] has shape
    (particles x cells). *)
Theorem inference_outputs_by_library_mode self b C n_samples :
  batch_of self C b ->
  encoder_ready self (cont_covs b) (cat_covs b) ->
  exists io,
    inference self (x b) (batch_index b) (cont_covs b) (cat_covs b) n_samples = Ok io
    /\ dom io = list_to_set ["z"; "qz"; "ql"; "library"; "log_ql"; "log_qz";
                             "log_qjoint"; "point_library"]
    /\ io !! "point_library" = Some (PyTensor [C; 1])
    /\ io !! "qz" = Some (PyDist [C; n_latent self])
    /\ (use_observed_lib_size self = true ->
        io !! "ql" = Some PyNone /\ io !! "log_ql" = Some PyFloat)
    /\ (use_observed_lib_size self = false ->
        io !! "ql" = Some (PyDist [C; 1])
        /\ io !! "log_ql"
           = Some (PyTensor (particle_dims (particles self n_samples) ++ [C]))).
Proof.
  intros (Hx & Hbi & Hy & Hcc & Hct) Hready. rewrite Hx, Hbi.
  rewrite (inference_returns self C _ _ n_samples Hcc Hct Hready).
  eexists. split; [reflexivity|].
  split; [|split; [reflexivity|split; [reflexivity|]]].
  - rewrite dom_list_to_map_L. reflexivity.
  - split; intros ->; split; reflexivity.
Qed.

Lemma inference_outputs_by_library_mode_witness :
  exists io,
    inference (Examples.wvae "IWELBO" true) [3; 4] [3; 1] None None (Some 2) = Ok io
    /\ io !! "point_library" = Some (PyTensor [3; 1])
    /\ io !! "ql" = Some PyNone.
Proof.
  destruct (inference_outputs_by_library_mode (Examples.wvae "IWELBO" true)
              Examples.batch3 3 (Some 2)) as (io & Hrun & _ & Hpl & _ & Hobs & _).
  - repeat split; auto.
  - intros [=].
  - exists io. split; [exact Hrun|]. split; [exact Hpl|]. apply Hobs. reflexivity.
Defined.

End ForwardProperties.

(** ** The labels of the populations ([_prepare_obs]) *)

Section PrepareObsProperties.
Import Pandas Utils Masks Labels.

Lemma foldl_insert_miss (v : string) (pos : list nat) (a : list string) (i : nat) :
  i ∉ pos -> foldl (fun acc i => <[i := v]> acc) a pos !! i = a !! i.
Proof.
  revert a. induction pos as [|p pos IH]; simpl; intros a Hin; [reflexivity|].
  apply not_elem_of_cons in Hin as [Hne Hin].
  rewrite IH by exact Hin. apply list_lookup_insert_ne. congruence.
Qed.

Lemma np_setitem_unselected a ix v a' i :
  np_setitem a ix v = Ok a' -> ~ selects (length a) ix i -> a' !! i = a !! i.
Proof.
  destruct ix as [m|l]; simpl.
  - case_bool_decide as Hlen; [|discriminate]. intros [= <-] Hi.
    rewrite lookup_zip_with.
    destruct (m !! i) as [[|]|] eqn:Hm; [contradiction | |].
    + simpl. destruct (a !! i); reflexivity.
    + simpl. symmetry. apply lookup_ge_None_2. rewrite <- Hlen.
      apply lookup_ge_None_1. exact Hm.
  - intros H Hi. apply bind_Ok in H as (pos & Hpos & H). injection H as <-.
    apply foldl_insert_miss. intros Hin. apply Hi.
    apply mapM_Ok_Forall2 in Hpos.
    apply list_elem_of_lookup in Hin as [j Hj].
    destruct (Forall2_lookup_r _ _ _ _ _ Hpos Hj) as (z & Hz & Hf).
    exists z. split; [eapply list_elem_of_lookup_2; eauto | exact Hf].
Qed.

(** What a call of [_prepare_obs] that returned went through. *)
Lemma prepare_obs_steps query idx1 idx2 adata obs_col group1 group2 :
  _prepare_obs query idx1 idx2 adata = Ok (obs_col, group1, group2) ->
  exists ix1 col1,
    ravel_idx query idx1 (obs adata) = Ok ix1
    /\ np_setitem (replicate (n_obs adata) "None") ix1 "one" = Ok col1
    /\ group1 = ["one"]
    /\ match idx2 with
       | None => obs_col = col1 /\ group2 = None
       | Some i2 =>
           exists ix2, ravel_idx query i2 (obs adata) = Ok ix2
             /\ np_setitem col1 ix2 "two" = Ok obs_col /\ group2 = Some "two"
       end.
Proof.
  intros H. unfold _prepare_obs in H.
  step H ix1 H1. step H col1 Hc1. step H p Hp. destruct p as [col2 oix].
  step H n1 Hn1. step H emp He. destruct emp; [discriminate|].
  injection H as <- <- <-.
  exists ix1, col1. split; [exact H1|]. split; [exact Hc1|]. split; [reflexivity|].
  destruct idx2 as [i2|].
  - step Hp ix2 H2. step Hp col2' Hc2. injection Hp as <- <-.
    exists ix2. auto.
  - injection Hp as <- <-. auto.
Qed.

Lemma prepare_obs_length query idx1 idx2 adata obs_col group1 group2 :
  _prepare_obs query idx1 idx2 adata = Ok (obs_col, group1, group2) ->
  length obs_col = n_obs adata.
Proof.
  intros H. apply prepare_obs_steps in H as (ix1 & col1 & _ & Hc1 & _ & H2).
  apply np_setitem_length in Hc1. rewrite length_replicate in Hc1.
  destruct idx2 as [i2|].
  - destruct H2 as (ix2 & _ & Hc2 & _). apply np_setitem_length in Hc2. congruence.
  - destruct H2 as [-> _]. exact Hc1.
Qed.

(** X7.  The column [_prepare_obs] returns has one label per cell: "two"
    for a cell that [idx2] selects, "one" for a cell that only [idx1]
    selects, "None" for every other cell; [group1] is ["one"], and
    [group2] is "two" exactly when [idx2] is given. *)
Theorem prepare_obs_labels query idx1 idx2 adata obs_col group1 group2 :
  _prepare_obs query idx1 idx2 adata = Ok (obs_col, group1, group2) ->
  length obs_col = n_obs adata
  /\ group1 = ["one"]
  /\ group2 = match idx2 with Some _ => Some "two" | None => None end
  /\ forall i, i < n_obs adata ->
       (selected_by query adata idx2 i -> obs_col !! i = Some "two")
       /\ (~ selected_by query adata idx2 i ->
           selected_by query adata (Some idx1) i -> obs_col !! i = Some "one")
       /\ (~ selected_by query adata idx2 i ->
           ~ selected_by query adata (Some idx1) i -> obs_col !! i = Some "None").
Proof.
  intros H. split; [eapply prepare_obs_length; exact H|].
  apply prepare_obs_steps in H as (ix1 & col1 & H1 & Hc1 & Hg1 & H2).
  split; [exact Hg1|].
  assert (Hlen1 : length col1 = n_obs adata).
  { apply np_setitem_length in Hc1. rewrite length_replicate in Hc1. exact Hc1. }
  assert (Hone : forall i, selected_by query adata (Some idx1) i -> col1 !! i = Some "one").
  { intros i (ix & Hix & Hsel). rewrite H1 in Hix. injection Hix as <-.
    eapply np_setitem_selected; [exact Hc1|]. rewrite length_replicate. exact Hsel. }
  assert (Hnone : forall i, i < n_obs adata -> ~ selected_by query adata (Some idx1) i ->
                    col1 !! i = Some "None").
  { intros i Hi Hsel.
    rewrite (np_setitem_unselected _ _ _ _ i Hc1).
    - apply lookup_replicate_2. exact Hi.
    - rewrite length_replicate. intros Hs. apply Hsel. exists ix1. auto. }
  destruct idx2 as [i2|].
  - destruct H2 as (ix2 & Hr2 & Hc2 & ->). split; [reflexivity|].
    intros i Hi.
    assert (Hkeep : ~ selected_by query adata (Some i2) i -> obs_col !! i = col1 !! i).
    { intros Hsel. apply (np_setitem_unselected _ _ _ _ i Hc2).
      rewrite Hlen1. intros Hs. apply Hsel. exists ix2. auto. }
    split; [|split].
    + intros (ix & Hix & Hsel). rewrite Hr2 in Hix. injection Hix as <-.
      eapply np_setitem_selected; [exact Hc2|]. rewrite Hlen1. exact Hsel.
    + intros Hn2 Hs1. rewrite (Hkeep Hn2). apply Hone. exact Hs1.
    + intros Hn2 Hn1. rewrite (Hkeep Hn2). apply Hnone; assumption.
  - destruct H2 as [-> ->]. split; [reflexivity|].
    intros i Hi. split; [intros []|]. split; intros _ Hs; auto.
Qed.

Lemma prepare_obs_labels_witness :
  let adata := {| n_obs := 4; obs := ∅ |} in
  exists obs_col,
    _prepare_obs Examples.query (ByMask [true; true; false; false])
      (Some (ByIndices [1; -1]%Z)) adata
    = Ok (obs_col, ["one"], Some "two")
    /\ length obs_col = 4.
Proof.
  intros adata. exists ["one"; "two"; "None"; "two"]. split; [reflexivity|].
  exact (proj1 (prepare_obs_labels Examples.query (ByMask [true; true; false; false])
                  (Some (ByIndices [1; -1]%Z)) adata
                  ["one"; "two"; "None"; "two"] ["one"] (Some "two") eq_refl)).
Defined.


Lemma count_true_zero (m : list bool) :
  (length (filter (fun b : bool => b) m) =? 0) = bool_decide (true ∉ m).
Proof.
  induction m as [|[|] m IH].
  - rewrite bool_decide_eq_true_2; [reflexivity | apply not_elem_of_nil].
  - rewrite filter_cons_True by exact I. cbn [length Nat.eqb].
    rewrite bool_decide_eq_false_2; [reflexivity|].
    intros H. apply H. apply list_elem_of_here.
  - rewrite filter_cons_False by (intros []). rewrite IH.
    apply bool_decide_ext. rewrite not_elem_of_cons. intuition discriminate.
Qed.

Lemma prepare_obs_masks query m1 m2 adata :
  length m1 = n_obs adata -> length m2 = n_obs adata ->
  _prepare_obs query (ByMask m1) (Some (ByMask m2)) adata
  = if bool_decide (true ∉ m1) || bool_decide (true ∉ m2)
    then Raise (ValueError "One of idx1 or idx2 has size zero.")
    else Ok (zip_with (fun (b : bool) old => if b then "two" else old) m2
               (zip_with (fun (b : bool) old => if b then "one" else old) m1
                  (replicate (n_obs adata) "None")),
             ["one"], Some "two").
Proof.
  intros H1 H2. unfold _prepare_obs.
  assert (Hlen : forall f g : bool -> string -> string,
            length (zip_with g m2 (zip_with f m1 (replicate (n_obs adata) "None")))
            = n_obs adata).
  { intros f g. rewrite !length_zip_with, length_replicate. lia. }
  cbn [ravel_idx mbind result_bind np_setitem].
  rewrite length_replicate. rewrite (bool_decide_eq_true_2 _ H1).
  cbn [mbind result_bind].
  rewrite length_zip_with, length_replicate, H1, Nat.min_id.
  rewrite (bool_decide_eq_true_2 _ H2). cbn [mbind result_bind].
  unfold np_getitem_len. rewrite Hlen.
  rewrite (bool_decide_eq_true_2 _ H1), (bool_decide_eq_true_2 _ H2).
  cbn [mbind result_bind]. rewrite !count_true_zero.
  destruct (bool_decide (true ∉ m1)); [reflexivity|].
  cbn [mbind result_bind orb].
  destruct (bool_decide (true ∉ m2)); reflexivity.
Qed.

(** X8.  For two boolean masks over the cells, [_prepare_obs] returns
    when each mask selects at least one cell, and raises the size-zero
    [ValueError] when one of them selects none. *)
Theorem prepare_obs_size_check query m1 m2 adata :
  0 < n_obs adata ->
  length m1 = n_obs adata -> length m2 = n_obs adata ->
  (true ∈ m1 -> true ∈ m2 ->
   is_Ok (_prepare_obs query (ByMask m1) (Some (ByMask m2)) adata))
  /\ (true ∉ m1 \/ true ∉ m2 ->
      _prepare_obs query (ByMask m1) (Some (ByMask m2)) adata
      = Raise (ValueError "One of idx1 or idx2 has size zero.")).
Proof.
  intros _ H1 H2. rewrite (prepare_obs_masks query m1 m2 adata H1 H2). split.
  - intros Hm1 Hm2. rewrite !bool_decide_eq_false_2 by (intros H; contradiction).
    eexists. reflexivity.
  - intros [H | H].
    + rewrite (bool_decide_eq_true_2 _ H). reflexivity.
    + rewrite (bool_decide_eq_true_2 _ H), orb_true_r. reflexivity.
Qed.

Lemma prepare_obs_size_check_witness :
  _prepare_obs Examples.query (ByMask [true; false; false])
    (Some (ByMask [false; false; false])) {| n_obs := 3; obs := ∅ |}
  = Raise (ValueError "One of idx1 or idx2 has size zero.").
Proof.
  refine (proj2 (prepare_obs_size_check Examples.query [true; false; false]
                   [false; false; false] {| n_obs := 3; obs := ∅ |} _ _ _) _).
  - simpl. lia.
  - reflexivity.
  - reflexivity.
  - right. intros H. repeat (apply elem_of_cons in H as [H | H]; [discriminate|]).
    inversion H.
Defined.

(** X9.  The size check looks at the selections, not at the labels: when
    every cell of the first mask is also in the second, [_prepare_obs]
    returns normally although no cell is labelled "one", so the first
    population that [_de_core] derives from the column is empty. *)
Theorem prepare_obs_group_one_vanishes query m1 m2 adata :
  length m1 = n_obs adata -> length m2 = n_obs adata ->
  true ∈ m1 ->
  (forall i, m1 !! i = Some true -> m2 !! i = Some true) ->
  exists obs_col,
    _prepare_obs query (ByMask m1) (Some (ByMask m2)) adata
    = Ok (obs_col, ["one"], Some "two")
    /\ ("one" ∉ obs_col)
    /\ Forall (fun b => b = false) (eq_mask obs_col "one").
Proof.
  intros H1 H2 Hm1 Hsub.
  assert (Hm2 : true ∈ m2).
  { apply list_elem_of_lookup in Hm1 as [i Hi].
    eapply list_elem_of_lookup_2. apply Hsub. exact Hi. }
  rewrite (prepare_obs_masks query m1 m2 adata H1 H2).
  rewrite !bool_decide_eq_false_2 by (intros H; contradiction).
  eexists. split; [reflexivity|].
  assert (Hno : "one" ∉ zip_with (fun (b : bool) old => if b then "two" else old) m2
                  (zip_with (fun (b : bool) old => if b then "one" else old) m1
                     (replicate (n_obs adata) "None"))).
  { intros Hin. apply list_elem_of_lookup in Hin as [i Hi].
    apply lookup_zip_with_Some in Hi as (b2 & old & Hb & Hm2i & Hold).
    destruct b2; [discriminate|]. subst old.
    apply lookup_zip_with_Some in Hold as (b1 & old & Hb & Hm1i & Hold).
    destruct b1.
    - apply Hsub in Hm1i. congruence.
    - subst old. apply lookup_replicate in Hold as [Hold _]. discriminate. }
  split; [exact Hno|].
  unfold eq_mask. apply Forall_fmap, Forall_forall. intros c Hc. simpl.
  apply bool_decide_eq_false_2. intros ->. contradiction.
Qed.

Lemma prepare_obs_group_one_vanishes_witness :
  exists obs_col,
    _prepare_obs Examples.query (ByMask [true; false; false])
      (Some (ByMask [true; true; false])) {| n_obs := 3; obs := ∅ |}
    = Ok (obs_col, ["one"], Some "two")
    /\ ("one" ∉ obs_col).
Proof.
  destruct (prepare_obs_group_one_vanishes Examples.query [true; false; false]
              [true; true; false] {| n_obs := 3; obs := ∅ |})
    as (obs_col & Hrun & Hno & _).
  - reflexivity.
  - reflexivity.
  - apply list_elem_of_here.
  - intros [|[|[|i]]] H; try discriminate H; reflexivity.
  - exists obs_col. split; assumption.
Defined.

End PrepareObsProperties.

(** ** The [obs] table across a call ([_de_core]) *)

Section DECoreProperties.
Import Pandas Utils Masks.


Lemma readonly_bind_ret {A B} (a : A) (f : A -> de B) :
  readonly (f a) -> readonly (mret a ≫= f).
Proof. intros H s. exact (H s). Qed.

Ltac readonly_tac :=
  repeat match goal with
         | |- readonly (mret _ ≫= _) => apply readonly_bind_ret; cbv beta iota
         | |- readonly (_ ≫= _) => apply readonly_bind; [|intros]
         | |- readonly (mapM _ _) => apply readonly_mapM; intros
         | |- readonly (mret _) => apply readonly_ret
         | |- readonly (lift _) => apply readonly_lift
         | |- readonly get_adata => apply readonly_get_adata
         | |- readonly (obs_getitem _) => apply readonly_obs_getitem
         | |- readonly (match ?x with _ => _ end) => destruct x
         | |- readonly (if ?b then _ else _) => destruct b
         | |- readonly (let _ := _ in _) => cbv zeta
         end.

Lemma de_bind_Raise {A B} (m : de A) (f : A -> de B) s s' e :
  (m ≫= f) s = (s', Raise e) ->
  m s = (s', Raise e) \/ exists s1 a, m s = (s1, Ok a) /\ f a s1 = (s', Raise e).
Proof.
  unfold mbind, de_bind. destruct (m s) as [s1 [a|e']]; [eauto|].
  intros [= <- <-]. auto.
Qed.

Lemma de_mapM_length {A B} (f : A -> de B) l s s' k :
  mapM (M := de) f l s = (s', Ok k) -> length k = length l.
Proof.
  revert s k. induction l as [|a l IH]; intros s k H.
  - injection H as <- <-. reflexivity.
  - cbn [mapM] in H. apply de_bind_Ok in H as (s1 & b & _ & H).
    apply de_bind_Ok in H as (s2 & k' & Hk & H). injection H as <- <-.
    simpl. f_equal. eapply IH. exact Hk.
Qed.

Section Calls.
Variable query : gmap string obs_column -> string -> result (list bool).
Variable get_bayes_factors :
  AnnData -> list bool -> list bool -> string -> float ->
  option (list string) -> option (list string) -> bool ->
  result (gmap string (list float)).
Variable all_stats_fn :
  AnnData -> list bool -> list bool -> result (gmap string (list float)).
Variable repr_float : float -> string.

(** X10.  A call of [_de_core] by groups ([idx1] not given) never writes
    to [adata]: whatever it returns or raises, [adata] is left as it
    was. *)
Theorem de_core_groupby_readonly groupby group1 group2 idx2 all_stats col_names
    mode batchid1 batchid2 delta batch_correction fdr silent adata :
  (_de_core query get_bayes_factors all_stats_fn repr_float groupby group1 group2
     None idx2 all_stats col_names mode batchid1 batchid2 delta
     batch_correction fdr silent adata).1 = adata.
Proof.
  revert adata. change (readonly (_de_core query get_bayes_factors all_stats_fn repr_float
    groupby group1 group2 None idx2 all_stats col_names mode batchid1 batchid2 delta
    batch_correction fdr silent)).
  unfold _de_core. readonly_tac.
Qed.


(** X11.  The temporary column is not removed when a mask-based call
    fails after the populations were labelled: if [_prepare_obs] returned
    the column [obs_col] and [_de_core] raises, [adata.obs] is left with
    [obs_col] stored under "_scvi_temp_de". *)
Theorem de_core_error_keeps_temp_column groupby group1 group2 idx1 idx2 all_stats col_names
    mode batchid1 batchid2 delta batch_correction fdr silent adata adata' e obs_col g1 g2 :
  _prepare_obs query idx1 idx2 adata = Ok (obs_col, g1, g2) ->
  _de_core query get_bayes_factors all_stats_fn repr_float groupby group1 group2
    (Some idx1) idx2 all_stats col_names mode batchid1 batchid2 delta
    batch_correction fdr silent adata = (adata', Raise e) ->
  obs adata' = <["_scvi_temp_de" := of_array obs_col]> (obs adata)
  /\ n_obs adata' = n_obs adata.
Proof.
  intros Hprep H.
  assert (Hlen := prepare_obs_length _ _ _ _ _ _ _ Hprep).
  assert (Hg1 : g1 = ["one"]).
  { apply prepare_obs_steps in Hprep as (? & ? & _ & _ & Hg & _). exact Hg. }
  subst g1.
  unfold _de_core in H.
  apply de_bind_Raise in H as [H | (s1 & gl & H1 & H)].
  { destruct group1; discriminate H. }
  assert (s1 = adata) as ->.
  { eapply readonly_run; [|exact H1]. destruct group1; readonly_tac. }
  clear H1.
  set (written := {| n_obs := n_obs adata;
                     obs := <["_scvi_temp_de" := of_array obs_col]> (obs adata) |}).
  apply de_bind_Raise in H as [H | (s2 & t & H2 & H)].
  { unfold mbind, de_bind, get_adata, lift in H. rewrite Hprep in H.
    unfold obs_setitem in H. rewrite (bool_decide_eq_true_2 _ Hlen) in H.
    discriminate H. }
  unfold mbind, de_bind, get_adata, lift in H2. rewrite Hprep in H2.
  unfold obs_setitem in H2. rewrite (bool_decide_eq_true_2 _ Hlen) in H2.
  fold written in H2. injection H2 as <- <-.
  apply de_bind_Raise in H as [H | (s3 & dfs & Hloop & H)].
  { apply readonly_run in H; [subst adata'; split; reflexivity|]. readonly_tac. }
  exfalso.
  assert (Hn : length dfs = 1) by (apply de_mapM_length in Hloop; exact Hloop).
  apply readonly_run in Hloop; [|readonly_tac]. subst s3.
  apply de_bind_Raise in H as [H | (s4 & u & Hdel & H)].
  - unfold obs_delitem, written in H. cbn [obs] in H.
    rewrite lookup_insert_eq in H. discriminate H.
  - destruct dfs as [|df dfs]; [discriminate Hn|].
    unfold lift, concat_frames in H. discriminate H.
Qed.

Lemma remove_dups_constant (g : string) col :
  col <> [] -> Forall (fun c => c = g) col -> remove_dups col = [g].
Proof.
  induction col as [|c col IH]; intros Hne Hall; [contradiction|].
  apply Forall_cons in Hall as [-> Hall]. cbn [remove_dups].
  destruct (decide_rel elem_of g col) as [Hin | Hnin].
  - apply IH; [|exact Hall]. intros ->. inversion Hin.
  - destruct col as [|c' col]; [reflexivity|]. exfalso. apply Hnin.
    apply Forall_cons in Hall as [-> _]. apply list_elem_of_here.
Qed.

Lemma categories_constant (g : string) col :
  col <> [] -> Forall (fun c => c = g) col -> categories (of_array col) = [g].
Proof.
  intros Hne Hall. unfold categories. cbn [declared labels of_array].
  rewrite (remove_dups_constant g col Hne Hall). reflexivity.
Qed.

(** X12.  A call by groups without [group1] takes the groups from the
    column [groupby] of [obs]: it raises [KeyError] when [obs] has no such
    column, and the single-group [ValueError] when the column has one
    category: for a column that is not categorical, when every cell
    carries the same label; for a categorical column, when it declares one
    category.  A categorical column that declares any other number of
    categories is compared group by group for the categories it declares,
    as if they had been given as [group1].  [adata] is untouched where the
    call raises one of the two errors. *)
Theorem de_core_groupby_errors (groupby : string) group2 idx2 all_stats col_names
    mode batchid1 batchid2 delta batch_correction fdr silent adata :
  let run group1 :=
    _de_core query get_bayes_factors all_stats_fn repr_float (Some groupby)
      group1 group2 None idx2 all_stats col_names mode batchid1 batchid2
      delta batch_correction fdr silent adata in
  let single := ValueError "Only a single group in the data. Can't run DE on a single group." in
  (obs adata !! groupby = None -> run GNone = (adata, Raise (KeyError groupby)))
  /\ (forall col g,
        obs adata !! groupby = Some (of_array col) ->
        col <> [] -> Forall (fun c => c = g) col ->
        run GNone = (adata, Raise single))
  /\ (forall col cats,
        obs adata !! groupby = Some {| labels := col; declared := Some cats |} ->
        run GNone = if length cats =? 1 then (adata, Raise single) else run (GList cats)).
Proof.
  intros run single. subst run single. unfold _de_core. split; [|split].
  - intros Hcol. unfold mbind at 1. unfold de_bind at 1.
    unfold mbind at 1. unfold de_bind at 1.
    unfold obs_getitem, getitem. rewrite Hcol. reflexivity.
  - intros col g Hcol Hne Hall. unfold mbind at 1. unfold de_bind at 1.
    unfold mbind at 1. unfold de_bind at 1.
    unfold obs_getitem, getitem. rewrite Hcol.
    rewrite (categories_constant g col Hne Hall). reflexivity.
  - intros col cats Hcol. unfold mbind at 1. unfold de_bind at 1.
    unfold mbind at 1. unfold de_bind at 1.
    unfold obs_getitem, getitem. rewrite Hcol. unfold categories. cbn [declared].
    destruct (length cats =? 1); reflexivity.
Qed.

End Calls.

Lemma de_core_groupby_errors_witness :
  let adata := {| n_obs := 3; obs := {[ "cell_type" := of_array ["T"; "T"; "T"] ]} |} in
  _de_core Examples.query Examples.bayes_factors Examples.all_stats Examples.repr
    (Some "cell_type") GNone None None None false ["gene_a"; "gene_b"] "vanilla"
    None None 0.25%float true 0.05%float true adata
  = (adata, Raise (ValueError
       "Only a single group in the data. Can't run DE on a single group.")).
Proof.
  intros adata.
  refine (proj1 (proj2 (de_core_groupby_errors Examples.query Examples.bayes_factors
            Examples.all_stats Examples.repr "cell_type" None None false
            ["gene_a"; "gene_b"] "vanilla" None None 0.25%float true 0.05%float true adata))
          ["T"; "T"; "T"] "T" _ _ _).
  - reflexivity.
  - discriminate.
  - repeat constructor.
Defined.

Lemma de_core_error_keeps_temp_column_witness :
  let adata := {| n_obs := 3; obs := {[ "batch" := of_array ["u"; "v"; "w"] ]} |} in
  let run := _de_core Examples.query Failing.bayes_factors Examples.all_stats Examples.repr
               None GNone None
               (Some (ByMask [true; false; false])) (Some (ByMask [false; true; false]))
               false ["gene_a"; "gene_b"] "vanilla" None None 0.25%float true 0.05%float true adata in
  obs run.1 = <["_scvi_temp_de" := of_array ["one"; "two"; "None"]]> (obs adata).
Proof.
  intros adata run.
  assert (E : exists adata' e, run = (adata', Raise e)) by (eexists _, _; reflexivity).
  destruct E as (adata' & e & E). rewrite E.
  refine (proj1 (de_core_error_keeps_temp_column Examples.query Failing.bayes_factors
            Examples.all_stats Examples.repr None GNone None
            (ByMask [true; false; false]) (Some (ByMask [false; true; false]))
            false ["gene_a"; "gene_b"] "vanilla" None None 0.25%float true 0.05%float true
            adata adata' e ["one"; "two"; "None"] ["one"] (Some "two") _ E)).
  reflexivity.
Defined.

End DECoreProperties.

(** ** The rows of the result ([_de_core]) *)

Section DEResultProperties.
Import Pandas Utils Masks.

Lemma omap_lookup_seq {A} (pre l : list A) :
  omap (fun i => (pre ++ l) !! i) (seq (length pre) (length l)) = l.
Proof.
  revert pre. induction l as [|x l IH]; intros pre; [reflexivity|].
  cbn [length seq omap list_omap].
  rewrite lookup_app_r by lia. rewrite Nat.sub_diag. cbn [lookup list_lookup].
  f_equal. specialize (IH (pre ++ [x])).
  rewrite <- app_assoc, length_app in IH. cbn [app length] in IH.
  rewrite Nat.add_1_r in IH. exact IH.
Qed.

Lemma permute_rows {A} (l : list A) (order : list nat) :
  order ≡ₚ seq 0 (length l) -> omap (fun i => l !! i) order ≡ₚ l.
Proof.
  intros Horder. rewrite Horder.
  pose proof (omap_lookup_seq [] l) as E. cbn [app length] in E. rewrite E. reflexivity.
Qed.

Lemma mapM_result_length {A B} (f : A -> result B) l k :
  mapM (M := result) f l = Ok k -> length k = length l.
Proof.
  intros H. apply mapM_Ok_Forall2 in H. symmetry. eapply Forall2_length. exact H.
Qed.

Lemma DataFrame_of_dict_Ok d index df :
  DataFrame_of_dict d index = Ok df ->
  df_index df = index
  /\ forall key col, df_columns df !! key = Some col -> length col = length index.
Proof.
  unfold DataFrame_of_dict. case_bool_decide as Hall; [|discriminate].
  intros [= <-]. split; [reflexivity|]. cbn [df_columns]. intros key col Hcol.
  rewrite lookup_fmap in Hcol. destruct (d !! key) as [c0|] eqn:Hc0; [|discriminate].
  injection Hcol as <-. rewrite length_fmap. exact (Hall key c0 Hc0).
Qed.

Lemma sort_frame_desc_index df key df' :
  (forall col, df_columns df !! key = Some col -> length col = length (df_index df)) ->
  sort_frame_desc df key = Ok df' -> df_index df' ≡ₚ df_index df.
Proof.
  intros Hlen H. unfold sort_frame_desc in H.
  step H col Hcol. injection H as <-. cbn [df_index].
  unfold float_column in Hcol. step Hcol cells Hcells. step Hcol vals Hvals.
  injection Hcol as <-.
  unfold getitem in Hcells. destruct (df_columns df !! key) as [c0|] eqn:Hc0; [|discriminate].
  injection Hcells as <-. specialize (Hlen c0 eq_refl).
  apply mapM_result_length in Hvals.
  apply permute_rows.
  rewrite (fmap_Permutation fst _ _ (proj2 (sort_values_desc_sorted snd _))).
  rewrite snd_zip by lia. rewrite length_zip.
  replace (length (df_index df) `min` length vals) with (length (df_index df)) by lia.
  rewrite fst_zip by (rewrite length_seq; lia). reflexivity.
Qed.

Lemma set_column_index df key s df' :
  set_column df key s = Ok df' -> df_index df' = df_index df.
Proof.
  unfold set_column. repeat case_bool_decide; intros [= <-]; reflexivity.
Qed.

Lemma concat_frames_index dfs result :
  concat_frames dfs = Ok result -> df_index result = dfs ≫= df_index.
Proof.
  unfold concat_frames. destruct dfs; [discriminate|]. intros [= <-]. reflexivity.
Qed.

Lemma lift_Ok {A} (r : result A) s s' a : lift r s = (s', Ok a) -> r = Ok a.
Proof. unfold lift. intros [= <- ->]. reflexivity. Qed.

Lemma de_mapM_Forall {A B} (f : A -> de B) (P : B -> Prop) l s s' k :
  (forall a s s' b, f a s = (s', Ok b) -> P b) ->
  mapM (M := de) f l s = (s', Ok k) -> Forall P k.
Proof.
  intros Hf. revert s k. induction l as [|a l IH]; intros s k H.
  - injection H as <- <-. constructor.
  - cbn [mapM] in H. apply de_bind_Ok in H as (s1 & b & Hb & H).
    apply de_bind_Ok in H as (s2 & k' & Hk & H). injection H as <- <-.
    constructor; [eapply Hf; exact Hb | eapply IH; exact Hk].
Qed.

Lemma bind_rows (dfs : list DataFrame) (names : list string) :
  Forall (fun df => df_index df ≡ₚ names) dfs ->
  length (dfs ≫= df_index) = length dfs * length names.
Proof.
  induction 1 as [|df dfs Hdf _ IH]; [reflexivity|].
  cbn [mbind list_bind length]. rewrite length_app, IH, Hdf. simpl. lia.
Qed.

Section Calls.
Variable query : gmap string obs_column -> string -> result (list bool).
Variable get_bayes_factors :
  AnnData -> list bool -> list bool -> string -> float ->
  option (list string) -> option (list string) -> bool ->
  result (gmap string (list float)).
Variable all_stats_fn :
  AnnData -> list bool -> list bool -> result (gmap string (list float)).
Variable repr_float : float -> string.

(** X13.  The table that [_de_core] returns has, for every group compared, one
    row per name of [col_names]: a mask-based call returns a table whose
    index is a rearrangement of [col_names]; a call for a list of groups
    returns as many rows as groups times names. *)
Theorem de_core_result_rows groupby group1 group2 idx1 idx2 all_stats col_names
    mode batchid1 batchid2 delta batch_correction fdr silent adata adata' result :
  _de_core query get_bayes_factors all_stats_fn repr_float groupby group1 group2
    idx1 idx2 all_stats col_names mode batchid1 batchid2 delta
    batch_correction fdr silent adata = (adata', Ok result) ->
  (is_Some idx1 -> df_index result ≡ₚ col_names)
  /\ (forall l, idx1 = None -> group1 = GList l ->
        length (df_index result) = length l * length col_names).
Proof.
  intros H. unfold _de_core in H.
  apply de_bind_Ok in H as (s1 & gl & H1 & H).
  apply de_bind_Ok in H as (s2 & [[[gb groups] g2] tk] & H2 & H).
  apply de_bind_Ok in H as (s3 & dfs & Hloop & H).
  apply de_bind_Ok in H as (s4 & u & _ & H).
  apply lift_Ok in H. apply concat_frames_index in H.
  assert (Hlen : length dfs = length groups) by (eapply de_mapM_length; exact Hloop).
  assert (Hrows : Forall (fun df => df_index df ≡ₚ col_names) dfs).
  { eapply de_mapM_Forall; [|exact Hloop]. clear.
    intros g1 s s' res Hbody.
    apply de_bind_Ok in Hbody as (t1 & col1 & _ & Hbody).
    apply de_bind_Ok in Hbody as (t2 & cell_idx2 & _ & Hbody).
    apply de_bind_Ok in Hbody as (t3 & ad & _ & Hbody).
    apply de_bind_Ok in Hbody as (t4 & info & _ & Hbody).
    apply de_bind_Ok in Hbody as (t5 & info' & _ & Hbody).
    apply de_bind_Ok in Hbody as (t6 & df0 & Hdf0 & Hbody).
    apply de_bind_Ok in Hbody as (t7 & df1 & Hdf1 & Hbody).
    apply de_bind_Ok in Hbody as (t8 & df2 & Hdf2 & Hbody).
    apply lift_Ok in Hdf0. apply DataFrame_of_dict_Ok in Hdf0 as [Hidx0 Hcols0].
    apply lift_Ok in Hdf1. apply sort_frame_desc_index in Hdf1;
      [|intros col Hcol; rewrite Hidx0; eapply Hcols0; exact Hcol].
    assert (Hidx2 : df_index df2 = df_index df1).
    { destruct (bool_decide (mode = "change")).
      - apply de_bind_Ok in Hdf2 as (? & ? & _ & Hdf2).
        apply de_bind_Ok in Hdf2 as (? & ? & _ & Hdf2).
        apply lift_Ok in Hdf2. eapply set_column_index. exact Hdf2.
      - injection Hdf2 as _ <-. reflexivity. }
    injection Hbody as _ <-.
    assert (df_index (match idx1 with
                      | Some _ => df2
                      | None =>
                          set_column_const
                            (set_column_const
                               (set_column_const df2 "comparison"
                                  (CStr (String.append g1
                                     (String.append " vs " (default "Rest" g2)))))
                               "group1" (CStr g1))
                            "group2" (CStr (default "Rest" g2))
                      end) = df_index df2) as -> by (destruct idx1; reflexivity).
    rewrite Hidx2, Hdf1, Hidx0. reflexivity. }
  split.
  - intros [i1 ->].
    apply de_bind_Ok in H2 as (? & ? & _ & H2).
    apply de_bind_Ok in H2 as (? & [[oc g1'] g2'] & Hprep & H2).
    apply lift_Ok in Hprep. apply prepare_obs_steps in Hprep as (_ & _ & _ & _ & -> & _).
    apply de_bind_Ok in H2 as (? & ? & _ & H2). injection H2 as _ _ <- _ _.
    destruct dfs as [|df [|df' dfs]]; try discriminate Hlen.
    apply Forall_cons in Hrows as [Hdf _]. rewrite H. cbn [mbind list_bind].
    rewrite app_nil_r. exact Hdf.
  - intros l -> ->. injection H1 as _ <-. injection H2 as _ _ <- _ _.
    rewrite H, (bind_rows dfs col_names Hrows), Hlen. reflexivity.
Qed.

End Calls.

Lemma de_core_result_rows_witness :
  let adata := {| n_obs := 3; obs := {[ "batch" := of_array ["u"; "v"; "w"] ]} |} in
  exists result,
    (Examples.de_masks adata).2 = Ok result
    /\ df_index result ≡ₚ ["gene_a"; "gene_b"].
Proof.
  intros adata.
  assert (E : exists adata' result, Examples.de_masks adata = (adata', Ok result))
    by (eexists _, _; reflexivity).
  destruct E as (adata' & result & E). exists result. split; [rewrite E; reflexivity|].
  refine (proj1 (de_core_result_rows Examples.query Examples.bayes_factors Examples.all_stats
            Examples.repr None GNone None
            (Some (ByMask [true; false; false])) (Some (ByMask [false; true; false]))
            false ["gene_a"; "gene_b"] "vanilla" None None 0.25%float true 0.05%float true
            adata adata' result E) _).
  eexists. reflexivity.
Defined.

End DEResultProperties.

(** ** The flags and the probabilities ([_fdr_de_prediction]) *)

Section FDRFlagProperties.
Import Binary64 Pandas Utils FDR.

(** A label sits at one position of the sorted series. *)
Lemma sorted_position_unique (s : Series float) k k' l p p' :
  NoDup s.*1 ->
  sort_values_desc snd s !! k = Some (l, p) ->
  sort_values_desc snd s !! k' = Some (l, p') ->
  k = k'.
Proof.
  intros Hnd Hk Hk'.
  assert (Hnd' : NoDup (sort_values_desc snd s).*1).
  { rewrite (fmap_Permutation fst _ _ (proj2 (sort_values_desc_sorted snd s))). exact Hnd. }
  eapply NoDup_lookup; [exact Hnd'| |]; rewrite list_lookup_fmap.
  - rewrite Hk. reflexivity.
  - rewrite Hk'. reflexivity.
Qed.

Lemma n_within_mono (fdr fdr' : float) sorted :
  (fdr <=? fdr')%float = true -> n_within fdr sorted <= n_within fdr' sorted.
Proof.
  intros Hle. unfold n_within. generalize (seq 0 (length sorted)) as l.
  induction l as [|k l IH]; [reflexivity|].
  destruct (decide (within fdr sorted k)) as [Hk | Hk].
  - rewrite (filter_cons_True (within fdr sorted)) by exact Hk.
    rewrite (filter_cons_True (within fdr' sorted))
      by (unfold within in *; eapply leb_trans; eauto).
    cbn [length]. lia.
  - rewrite (filter_cons_False (within fdr sorted)) by exact Hk.
    destruct (decide (within fdr' sorted k)) as [Hk' | Hk'].
    + rewrite (filter_cons_True (within fdr' sorted)) by exact Hk'. cbn [length]. lia.
    + rewrite (filter_cons_False (within fdr' sorted)) by exact Hk'. exact IH.
Qed.

(** X14.  Raising the threshold never unflags a gene: every gene flagged
    at a threshold is flagged at every larger one. *)
Theorem fdr_flags_grow_with_threshold (s : Series float) (fdr fdr' : float) flags flags' l :
  NoDup s.*1 ->
  (fdr <=? fdr')%float = true ->
  _fdr_de_prediction (PdSeries s) fdr = Ok flags ->
  _fdr_de_prediction (PdSeries s) fdr' = Ok flags' ->
  (l, true) ∈ flags -> (l, true) ∈ flags'.
Proof.
  intros Hnd Hle Hrun Hrun' Hin.
  destruct (fdr_flag_by_position s fdr Hnd) as (f & Hf & _ & Hmem).
  destruct (fdr_flag_by_position s fdr' Hnd) as (f' & Hf' & _ & Hmem').
  rewrite Hrun in Hf. injection Hf as <-. rewrite Hrun' in Hf'. injection Hf' as <-.
  apply Hmem in Hin as (k & p & Hk & Hb). apply Hmem'. exists k, p. split; [exact Hk|].
  symmetry in Hb. apply bool_decide_eq_true in Hb. symmetry. apply bool_decide_eq_true.
  pose proof (n_within_mono fdr fdr' (sort_values_desc snd s) Hle).
  lia.
Qed.

Lemma fdr_flags_grow_with_threshold_witness :
  exists flags flags',
    _fdr_de_prediction (PdSeries Examples.probas) 0.1 = Ok flags
    /\ _fdr_de_prediction (PdSeries Examples.probas) 0.2 = Ok flags'
    /\ ("gene1", true) ∈ flags'.
Proof.
  assert (E : exists flags, _fdr_de_prediction (PdSeries Examples.probas) 0.1 = Ok flags
                            /\ ("gene1", true) ∈ flags).
  { eexists. split; [vm_compute; reflexivity | apply list_elem_of_here]. }
  assert (E' : exists flags', _fdr_de_prediction (PdSeries Examples.probas) 0.2 = Ok flags')
    by (eexists; vm_compute; reflexivity).
  destruct E as (flags & E & Hin), E' as (flags' & E').
  exists flags, flags'. split; [exact E|]. split; [exact E'|].
  refine (fdr_flags_grow_with_threshold Examples.probas 0.1 0.2 flags flags' "gene1"
            _ _ E E' Hin).
  - refine (@bool_decide_unpack (NoDup _) _ _). vm_compute. exact I.
  - vm_compute. reflexivity.
Defined.

(** X16.  The flags follow the probabilities: a gene with a strictly
    higher posterior probability than a flagged gene is flagged too. *)
Theorem fdr_flags_follow_probability (s : Series float) (fdr : float) flags la pa lb pb :
  NoDup s.*1 ->
  _fdr_de_prediction (PdSeries s) fdr = Ok flags ->
  (la, pa) ∈ s -> (lb, pb) ∈ s -> (pa <? pb)%float = true ->
  (la, true) ∈ flags -> (lb, true) ∈ flags.
Proof.
  intros Hnd Hrun Ha Hb Hlt Hflag.
  destruct (fdr_flag_by_position s fdr Hnd) as (f & Hf & _ & Hmem).
  rewrite Hrun in Hf. injection Hf as <-.
  destruct (sort_values_desc_sorted snd s) as [Hsort Hperm].
  apply Hmem in Hflag as (ka & pa' & Hka & Hd).
  symmetry in Hd. apply bool_decide_eq_true in Hd.
  assert (pa' = pa) as ->.
  { eapply (unique_key s la); [exact Hnd| |exact Ha].
    rewrite <- Hperm. eapply list_elem_of_lookup_2; eauto. }
  rewrite <- Hperm in Hb. apply list_elem_of_lookup in Hb as [kb Hkb].
  apply Hmem. exists kb, pb. split; [exact Hkb|].
  symmetry. apply bool_decide_eq_true.
  destruct (decide (kb <= ka)) as [Hle | Hgt]; [lia|]. exfalso.
  rewrite <- (take_drop kb (sort_values_desc snd s)) in Hsort.
  assert (Hq : desc_by snd (la, pa) (lb, pb)).
  { eapply (StronglySorted_app_1_elem_of (desc_by snd)); [exact Hsort | |].
    - apply list_elem_of_lookup. exists ka. rewrite lookup_take_lt by lia. exact Hka.
    - apply list_elem_of_lookup. exists 0. rewrite lookup_drop, Nat.add_0_r. exact Hkb. }
  unfold desc_by in Hq. cbn [snd] in Hq. congruence.
Qed.

Lemma fdr_flags_follow_probability_witness :
  exists flags,
    _fdr_de_prediction (PdSeries Examples.probas) 0.2 = Ok flags
    /\ ("gene1", true) ∈ flags.
Proof.
  assert (E : exists flags, _fdr_de_prediction (PdSeries Examples.probas) 0.2 = Ok flags
                            /\ ("gene2", true) ∈ flags).
  { eexists. split; [vm_compute; reflexivity|].
    apply list_elem_of_further, list_elem_of_here. }
  destruct E as (flags & E & Hin). exists flags. split; [exact E|].
  refine (fdr_flags_follow_probability Examples.probas 0.2 flags "gene2" 0.8%float
            "gene1" 0.9%float _ E _ _ _ Hin).
  - refine (@bool_decide_unpack (NoDup _) _ _). vm_compute. exact I.
  - apply list_elem_of_further, list_elem_of_here.
  - apply list_elem_of_here.
  - vm_compute. reflexivity.
Defined.

End FDRFlagProperties.

(** ** The index of the merged history ([TrainRunner._update_history]) *)

Section HistoryIndexProperties.
Import TrainRunner History Epochs.

Lemma length_arange a b : length (arange a b) = b - a.
Proof. unfold arange. rewrite length_fmap, length_seq. reflexivity. Qed.

Lemma arange_app a b c : a <= b -> b <= c -> arange a b ++ arange b c = arange a c.
Proof.
  intros Hab Hbc. unfold arange. rewrite <- fmap_app. f_equal.
  replace (c - a) with ((b - a) + (c - b)) by lia. rewrite seq_app. f_equal. f_equal. lia.
Qed.

Lemma merged_rows val new :
  rows (merged val new)
  = rows val ++ zip (arange (len val) (len val + len new)) (rows new).*2.
Proof. reflexivity. Qed.

Lemma merged_index val new :
  (rows (merged val new)).*1 = (rows val).*1 ++ arange (len val) (len val + len new).
Proof.
  rewrite merged_rows, fmap_app. f_equal. apply fst_zip.
  rewrite length_arange, length_fmap. unfold len. lia.
Qed.

Lemma merged_len val new : len (merged val new) = len val + len new.
Proof.
  unfold len at 1. rewrite merged_rows, length_app, length_zip, length_arange, length_fmap.
  unfold len. lia.
Qed.

Lemma merged_contiguous val new : contiguous val -> contiguous (merged val new).
Proof.
  unfold contiguous. intros Hval. rewrite merged_index, merged_len, Hval.
  apply arange_app; lia.
Qed.

(** X17.  The merge keeps the epochs numbered from 0: if every metric of
    the stored history has the index 0, 1, ..., so has every metric of the
    history after a second fit with a logger history of its own. *)
Theorem update_history_keeps_index_contiguous self self' warnings h new_history h' :
  model_is_trained_ self = true ->
  model_history_ self = HistDict h ->
  trainer_logger_history self = History new_history ->
  (forall key val, h !! key = Some val -> contiguous val) ->
  _update_history self = Ok (self', warnings) ->
  model_history_ self' = HistDict h' ->
  forall key val', h' !! key = Some val' -> contiguous val'.
Proof.
  intros Htr Hh Hlog Hcont H Hh' key val' Hval'.
  unfold _update_history in H. rewrite Htr, Hh, Hlog in H.
  destruct (foldl merge_step (h, new_history) (map_to_list h)) as [h1 n1] eqn:Hloop.
  injection H as <- <-. cbn [model_history_] in Hh'. injection Hh' as <-.
  assert (Hlk := merge_loop_lookup h new_history key). rewrite Hloop in Hlk. cbn [fst] in Hlk.
  rewrite Hlk in Hval'.
  destruct (h !! key) as [val|] eqn:Hval; [|discriminate].
  destruct (new_history !! key) as [new|].
  - injection Hval' as <-. apply merged_contiguous. eapply Hcont; eauto.
  - injection Hval' as <-. eapply Hcont; eauto.
Qed.

Lemma update_history_keeps_index_contiguous_witness :
  let new := Examples.history_frame [(0, 3#1); (1, 2#1)]%Z in
  exists self' warnings h' val',
    _update_history (Examples.trained (History {[ "elbo_train" := new ]}))
    = Ok (self', warnings)
    /\ model_history_ self' = HistDict h'
    /\ h' !! "elbo_train" = Some val'
    /\ contiguous val'.
Proof.
  intros new.
  assert (E : exists self' warnings h' val',
             _update_history (Examples.trained (History {[ "elbo_train" := new ]}))
             = Ok (self', warnings)
             /\ model_history_ self' = HistDict h'
             /\ h' !! "elbo_train" = Some val')
    by (eexists _, _, _, _; split; [reflexivity|]; split; reflexivity).
  destruct E as (self' & warnings & h' & val' & E & Hh' & Hval').
  exists self', warnings, h', val'. split; [exact E|]. split; [exact Hh'|].
  split; [exact Hval'|].
  refine (update_history_keeps_index_contiguous
            (Examples.trained (History {[ "elbo_train" := new ]})) self' warnings
            _ _ h' eq_refl eq_refl eq_refl _ E Hh' "elbo_train" val' Hval').
  intros key val Hkey.
  destruct (decide (key = "elbo_train")) as [-> | Hne1].
  - injection Hkey as <-. reflexivity.
  - destruct (decide (key = "elbo_validation")) as [-> | Hne2].
    + injection Hkey as <-. reflexivity.
    + exfalso. rewrite lookup_insert_ne in Hkey by congruence.
      rewrite lookup_singleton_ne in Hkey by congruence. discriminate.
Defined.


Lemma foldl_merge_step_logger (l : list (string * Frame)) (hist newh : gmap string Frame) key :
  NoDup l.*1 ->
  (foldl merge_step (hist, newh) l).2 !! key
  = match (list_to_map l : gmap string Frame) !! key, newh !! key with
    | Some val, Some new => Some (reindexed (len val) new)
    | _, _ => newh !! key
    end.
Proof.
  revert hist newh. induction l as [|[k0 v0] l IH]; intros hist newh Hnd.
  - simpl. rewrite lookup_empty. reflexivity.
  - apply NoDup_cons in Hnd as [Hk0 Hnd]. simpl in Hk0.
    assert (Hl0 : (list_to_map l : gmap string Frame) !! k0 = None)
      by (apply not_elem_of_list_to_map_1; exact Hk0).
    cbn [foldl list_to_map foldr]. unfold merge_step at 2.
    destruct (decide (key = k0)) as [->|Hne].
    + rewrite lookup_insert_eq.
      destruct (newh !! k0) as [new|] eqn:Hnew.
      * rewrite IH by exact Hnd. rewrite Hl0, lookup_insert_eq. reflexivity.
      * rewrite IH by exact Hnd. rewrite Hl0, Hnew. reflexivity.
    + rewrite (lookup_insert_ne _ k0 key) by congruence.
      destruct (newh !! k0) as [new|] eqn:Hnew.
      * rewrite IH by exact Hnd. rewrite !(lookup_insert_ne _ k0 key) by congruence.
        reflexivity.
      * rewrite IH by exact Hnd. reflexivity.
Qed.

(** X18.  The merge writes to the logger's history as well: after a
    second fit, every frame of the logger's history whose metric the
    stored history has carries the index that starts at the number of rows
    stored before, with its values kept; frames of other metrics are left
    as they were. *)
Theorem update_history_reindexes_logger self self' warnings h new_history :
  model_is_trained_ self = true ->
  model_history_ self = HistDict h ->
  trainer_logger_history self = History new_history ->
  _update_history self = Ok (self', warnings) ->
  exists n', trainer_logger_history self' = History n'
    /\ forall key new, new_history !! key = Some new ->
         match h !! key with
         | Some val =>
             exists new', n' !! key = Some new'
               /\ rows new' = rows (reindexed (len val) new)
         | None => n' !! key = Some new
         end.
Proof.
  intros Htr Hh Hlog H. unfold _update_history in H. rewrite Htr, Hh, Hlog in H.
  destruct (foldl merge_step (h, new_history) (map_to_list h)) as [h1 n1] eqn:Hloop.
  injection H as <- <-. exists n1. split; [reflexivity|]. intros key new Hnew.
  pose proof (foldl_merge_step_logger (map_to_list h) h new_history key
                (NoDup_fst_map_to_list h)) as Hlk.
  rewrite Hloop, list_to_map_to_list, Hnew in Hlk. cbn [snd] in Hlk.
  destruct (h !! key) as [val|]; [|exact Hlk].
  eexists. split; [exact Hlk | reflexivity].
Qed.

Lemma update_history_reindexes_logger_witness :
  let new := Examples.history_frame [(0, 3#1); (1, 2#1)]%Z in
  exists self' n' new',
    _update_history (Examples.trained (History {[ "elbo_train" := new ]})) = Ok (self', [])
    /\ trainer_logger_history self' = History n'
    /\ n' !! "elbo_train" = Some new'
    /\ rows new' = [(2, 3#1); (3, 2#1)]%Z.
Proof.
  intros new.
  assert (E : exists self',
             _update_history (Examples.trained (History {[ "elbo_train" := new ]}))
             = Ok (self', [])) by (eexists; reflexivity).
  destruct E as (self' & E).
  destruct (update_history_reindexes_logger
              (Examples.trained (History {[ "elbo_train" := new ]})) self' []
              _ _ eq_refl eq_refl eq_refl E) as (n' & Hn' & Hlk).
  destruct (Hlk "elbo_train" new eq_refl) as (new' & Hnew' & Hrows).
  exists self', n', new'. split; [exact E|]. split; [exact Hn'|].
  split; [exact Hnew' | exact Hrows].
Defined.

(** X19.  When the logger's history is the very dictionary the model
    holds (the same runner called again), the merge concatenates every
    metric with itself: each metric ends with twice its rows, all indexed
    from the old number of rows. *)
Theorem update_history_shared_doubles self h :
  model_is_trained_ self = true ->
  model_history_ self = HistDict h ->
  trainer_logger_history self = SharedWithModel ->
  exists self' h',
    _update_history self = Ok (self', [])
    /\ model_history_ self' = HistDict h'
    /\ forall key val, h !! key = Some val ->
         exists val', h' !! key = Some val'
           /\ rows val' = rows (reindexed (len val) val) ++ rows (reindexed (len val) val)
           /\ len val' = 2 * len val.
Proof.
  intros Htr Hh Hlog. unfold _update_history. rewrite Htr, Hh, Hlog.
  eexists _, _. split; [reflexivity|]. split; [reflexivity|].
  intros key val Hval. rewrite merge_loop_shared_lookup, Hval.
  eexists. split; [reflexivity|]. split; [reflexivity|].
  unfold len, merged_shared. cbn [rows set_index_name concat set_index].
  rewrite length_app, length_zip, length_arange, length_fmap. unfold len. lia.
Qed.

Lemma update_history_shared_doubles_witness :
  exists self' h',
    _update_history (Examples.trained SharedWithModel) = Ok (self', [])
    /\ model_history_ self' = HistDict h'
    /\ exists val', h' !! "elbo_validation" = Some val' /\ len val' = 2.
Proof.
  destruct (update_history_shared_doubles (Examples.trained SharedWithModel) _
              eq_refl eq_refl eq_refl) as (self' & h' & Hrun & Hh' & Hrows).
  exists self', h'. split; [exact Hrun|]. split; [exact Hh'|].
  destruct (Hrows "elbo_validation" _ eq_refl) as (val' & Hval' & _ & Hlen).
  exists val'. split; [exact Hval' | exact Hlen].
Defined.

(** X20.  On a first fit [_update_history] raises nothing and warns of
    nothing.  With a logger history the model's history becomes that
    dictionary itself; with a logger that has none, the model's history is
    left as it was: the [None] is stored on the runner. *)
Theorem update_history_first_fit self :
  model_is_trained_ self = false ->
  exists self',
    _update_history self = Ok (self', [])
    /\ model_is_trained_ self' = false
    /\ (forall d, trainer_logger_history self = History d ->
          model_history_ self' = HistDict d
          /\ trainer_logger_history self' = SharedWithModel
          /\ self_history_ self' = self_history_ self)
    /\ (trainer_logger_history self = NoHistoryAttr ->
          model_history_ self' = model_history_ self
          /\ self_history_ self' = Some HistNone).
Proof.
  intros Htr. unfold _update_history. rewrite Htr.
  destruct (trainer_logger_history self) as [|d|] eqn:Hlog.
  - eexists. split; [reflexivity|]. split; [reflexivity|].
    split; [intros d [=] | auto].
  - eexists. split; [reflexivity|]. split; [reflexivity|].
    split; [intros d' [= <-]; auto | intros [=]].
  - exists self. split; [reflexivity|]. split; [exact Htr|].
    split; [intros d [=] | intros [=]].
Qed.

Lemma update_history_first_fit_witness :
  let fresh := {| model_is_trained_ := false; model_history_ := HistOther;
                  trainer_logger_history := NoHistoryAttr; self_history_ := None |} in
  exists self',
    _update_history fresh = Ok (self', [])
    /\ model_history_ self' = HistOther
    /\ self_history_ self' = Some HistNone.
Proof.
  intros fresh.
  destruct (update_history_first_fit fresh eq_refl) as (self' & Hrun & _ & _ & Hnone).
  exists self'. split; [exact Hrun|]. exact (Hnone eq_refl).
Defined.

End HistoryIndexProperties.

(** ** Concatenating distributions ([DistributionsConcatenator]) *)

Section DictProperties.
Import PyDict.
Context {V : Type}.

Lemma get_absent (d : dict V) k : k ∉ d.*1 -> get d k = None.
Proof.
  induction d as [|[k' v] d IH]; intros Hk; [reflexivity|].
  cbn [fmap list_fmap fst] in Hk. apply not_elem_of_cons in Hk as [Hne Hk].
  cbn [get]. rewrite decide_False by congruence. apply IH. exact Hk.
Qed.

Lemma get_present (d : dict V) k : k ∈ d.*1 -> is_Some (get d k).
Proof.
  induction d as [|[k' v] d IH]; intros Hk; [inversion Hk|].
  cbn [get]. destruct (decide (k' = k)); [eauto|].
  apply IH. cbn [fmap list_fmap fst] in Hk. apply elem_of_cons in Hk as [->|Hk]; [congruence|auto].
Qed.

Lemma get_middle (pre post : dict V) k v :
  k ∉ pre.*1 -> get (pre ++ (k, v) :: post) k = Some v.
Proof.
  induction pre as [|[k' v'] pre IH]; intros Hk; cbn [app get].
  - rewrite decide_True by reflexivity. reflexivity.
  - cbn [fmap list_fmap fst] in Hk. apply not_elem_of_cons in Hk as [Hne Hk].
    rewrite decide_False by congruence. apply IH. exact Hk.
Qed.

Lemma set_middle (pre post : dict V) k v v' :
  k ∉ pre.*1 -> set (pre ++ (k, v) :: post) k v' = pre ++ (k, v') :: post.
Proof.
  induction pre as [|[k' w] pre IH]; intros Hk; cbn [app set].
  - rewrite decide_True by reflexivity. reflexivity.
  - cbn [fmap list_fmap fst] in Hk. apply not_elem_of_cons in Hk as [Hne Hk].
    rewrite decide_False by congruence. rewrite IH by exact Hk. reflexivity.
Qed.

Lemma set_absent (d : dict V) k v : k ∉ d.*1 -> set d k v = d ++ [(k, v)].
Proof.
  induction d as [|[k' w] d IH]; intros Hk; cbn [app set]; [reflexivity|].
  cbn [fmap list_fmap fst] in Hk. apply not_elem_of_cons in Hk as [Hne Hk].
  rewrite decide_False by congruence. rewrite IH by exact Hk. reflexivity.
Qed.

Lemma remove_keys (d : dict V) k k' : k' ∈ (remove d k).*1 -> k' ∈ d.*1.
Proof.
  induction d as [|[k0 v] d IH]; cbn [remove]; [auto|].
  destruct (decide (k0 = k)); cbn [fmap list_fmap fst]; intros H.
  - apply elem_of_cons. auto.
  - apply elem_of_cons in H as [->|H]; apply elem_of_cons; auto.
Qed.

Lemma get_remove (d : dict V) k : wf d -> get (remove d k) k = None.
Proof.
  unfold wf. induction d as [|[k' v] d IH]; intros Hnd; [reflexivity|].
  cbn [fmap list_fmap fst] in Hnd. apply NoDup_cons in Hnd as [Hk' Hnd].
  cbn [remove]. destruct (decide (k' = k)) as [->|Hne].
  - apply get_absent. exact Hk'.
  - cbn [get]. rewrite decide_False by exact Hne. apply IH. exact Hnd.
Qed.

Lemma wf_remove (d : dict V) k : wf d -> wf (remove d k).
Proof.
  unfold wf. induction d as [|[k' v] d IH]; intros Hnd; [exact Hnd|].
  cbn [fmap list_fmap fst] in Hnd. apply NoDup_cons in Hnd as [Hk' Hnd].
  cbn [remove]. destruct (decide (k' = k)); [exact Hnd|].
  cbn [fmap list_fmap fst]. apply NoDup_cons. split; [|apply IH; exact Hnd].
  intros H. apply Hk'. eapply remove_keys. exact H.
Qed.

Lemma pop_raises (d : dict V) k x : pop d k = Raise x -> x = KeyError k.
Proof. unfold pop. destruct (get d k); [discriminate | intros [= <-]; reflexivity]. Qed.

Lemma of_items_from (acc items : dict V) :
  NoDup (acc ++ items).*1 ->
  foldl (fun a kv => set a kv.1 kv.2) acc items = acc ++ items.
Proof.
  revert acc. induction items as [|[k v] items IH]; intros acc Hnd.
  - rewrite app_nil_r. reflexivity.
  - cbn [foldl fst snd]. rewrite set_absent.
    + rewrite IH; rewrite <- app_assoc; [reflexivity | exact Hnd].
    + rewrite fmap_app in Hnd. apply NoDup_app in Hnd as (_ & Hdis & _).
      intros Hin. apply (Hdis k Hin). apply list_elem_of_here.
Qed.

Lemma of_items_wf (items : dict V) : wf items -> of_items items = items.
Proof. intros Hnd. apply (of_items_from [] items). exact Hnd. Qed.

End DictProperties.

Section ConcatenatorProperties.
Import Shape PyDict Concatenator Minibatches.

(** X21.  [get_concatenated_distributions] can be called once: it pops
    "cls" from the entries it visits, so on a storage that is not empty
    every later call raises [KeyError] for "cls" and changes nothing,
    whether the first call returned or raised. *)
Theorem concatenated_distributions_once init (st : storage) :
  st <> [] ->
  Forall (fun e => wf e.2) st ->
  let st1 := (get_concatenated_distributions init st).1 in
  get_concatenated_distributions init st1 = (st1, Raise (KeyError "cls")).
Proof.
  intros Hne Hwf st1. subst st1.
  destruct st as [|[name props] rest]; [contradiction|].
  apply Forall_cons in Hwf as [Hw _]. cbn [snd] in Hw.
  cbn [get_concatenated_distributions].
  destruct (pop props "cls") as [[c props']|x] eqn:Hpop.
  - assert (Hnone : pop props' "cls" = Raise (KeyError "cls")).
    { unfold pop in Hpop. destruct (get props "cls"); [|discriminate].
      injection Hpop as <- <-. unfold pop. rewrite get_remove by exact Hw. reflexivity. }
    destruct (mapM concat_param props' ≫= _) as [dist|x].
    + destruct (get_concatenated_distributions init rest) as [rest' dists].
      cbn [fst get_concatenated_distributions]. rewrite Hnone. reflexivity.
    + cbn [fst get_concatenated_distributions]. rewrite Hnone. reflexivity.
  - cbn [fst get_concatenated_distributions]. rewrite Hpop.
    apply pop_raises in Hpop as ->. reflexivity.
Qed.


Lemma concatenated_distributions_once_witness :
  let st := [("px", [("cls", SlotCls "Normal"); ("loc", SlotList [[3; 4]]);
                     ("scale", SlotList [[3; 4]])])] in
  get_concatenated_distributions Classes.torch_init
    (get_concatenated_distributions Classes.torch_init st).1
  = ((get_concatenated_distributions Classes.torch_init st).1, Raise (KeyError "cls")).
Proof.
  intros st. apply (concatenated_distributions_once Classes.torch_init st).
  - discriminate.
  - repeat constructor; simpl; try (intros H; inversion H; subst;
      repeat match goal with
             | H : _ ∈ _ :: _ |- _ => apply elem_of_cons in H as [H|H]; [discriminate|]
             | H : _ ∈ [] |- _ => inversion H
             end).
Defined.

Lemma stored_keys lead template cells : (stored lead template cells).*1 = template.*1.
Proof.
  unfold stored. rewrite <- list_fmap_compose. reflexivity.
Qed.

Lemma append_all_aligned key (pre : dict slot) lead (template : list (string * nat)) cells n :
  NoDup template.*1 ->
  (forall name, name ∈ template.*1 -> name ∉ pre.*1) ->
  append_all [(key, pre ++ stored lead template cells)] key
    ((fun p => (p.1, lead ++ [n; p.2])) <$> template)
  = ([(key, pre ++ stored lead template (cells ++ [n]))], Ok tt).
Proof.
  revert pre. induction template as [|[name g] template IH]; intros pre Hnd Hdis.
  - reflexivity.
  - cbn [fmap list_fmap fst] in Hnd. apply NoDup_cons in Hnd as [Hname Hnd].
    assert (Hpre : name ∉ pre.*1) by (apply Hdis; apply list_elem_of_here).
    unfold stored. cbn [fmap list_fmap fst snd append_all get].
    rewrite decide_True by reflexivity.
    unfold append_param. rewrite get_middle by exact Hpre.
    rewrite set_middle by exact Hpre. cbn [set]. rewrite decide_True by reflexivity.
    fold (stored lead template cells).
    replace (pre ++ (name, SlotList (((fun n0 => lead ++ [n0; g]) <$> cells) ++ [lead ++ [n; g]]))
               :: stored lead template cells)
      with ((pre ++ [(name, SlotList ((fun n0 => lead ++ [n0; g]) <$> cells ++ [n]))])
              ++ stored lead template cells)
      by (rewrite <- app_assoc, fmap_app; reflexivity).
    rewrite IH.
    + rewrite <- app_assoc. reflexivity.
    + exact Hnd.
    + intros name' Hin. rewrite fmap_app. cbn [fmap list_fmap fst].
      rewrite elem_of_app, list_elem_of_singleton. intros [Hp | ->].
      * apply (Hdis name'); [apply list_elem_of_further; exact Hin | exact Hp].
      * contradiction.
Qed.

Lemma template_args_wf lead (template : list (string * nat)) n :
  NoDup template.*1 -> wf ((fun p : string * nat => (p.1, lead ++ [n; p.2])) <$> template).
Proof. intros Hnd. unfold wf. rewrite <- list_fmap_compose. exact Hnd. Qed.

Lemma add_batch key c lead template cells n :
  NoDup template.*1 -> "cls" ∉ template.*1 ->
  add_distributions [(key, ("cls", SlotCls c) :: stored lead template cells)]
    (batch_output key c lead template n)
  = ([(key, ("cls", SlotCls c) :: stored lead template (cells ++ [n]))], Ok tt).
Proof.
  intros Hnd Hcls. unfold batch_output. cbn [add_distributions add_item get].
  rewrite decide_True by reflexivity. cbn [dist_args].
  rewrite of_items_wf by (apply template_args_wf; exact Hnd).
  pose proof (append_all_aligned key [("cls", SlotCls c)] lead template cells n Hnd) as E.
  cbn [app] in E. rewrite E; [reflexivity|].
  intros name Hin Hp. cbn in Hp. apply list_elem_of_singleton in Hp as ->. contradiction.
Qed.

Lemma add_first_batch key c lead template n :
  NoDup template.*1 -> "cls" ∉ template.*1 ->
  add_distributions [] (batch_output key c lead template n)
  = ([(key, ("cls", SlotCls c) :: stored lead template [n])], Ok tt).
Proof.
  intros Hnd Hcls. unfold batch_output. cbn [add_distributions add_item get].
  unfold new_entry. cbn [dist_args dist_cls].
  assert (Hnames : ((fun p : string * nat => (p.1, lead ++ [n; p.2])) <$> template).*1
                   = template.*1) by (rewrite <- list_fmap_compose; reflexivity).
  rewrite Hnames.
  assert (Hempty : of_items ((fun name => (name, SlotList [])) <$> template.*1)
                   = stored lead template []).
  { rewrite of_items_wf.
    - unfold stored. rewrite <- list_fmap_compose. reflexivity.
    - unfold wf. rewrite <- list_fmap_compose.
      replace (fst ∘ (fun name : string => (name, SlotList []))) with (@Datatypes.id string)
        by reflexivity.
      rewrite list_fmap_id. exact Hnd. }
  rewrite Hempty, stored_keys.
  rewrite bool_decide_eq_false_2 by exact Hcls. cbn [mbind result_bind set].
  rewrite of_items_wf by (apply template_args_wf; exact Hnd).
  pose proof (append_all_aligned key [("cls", SlotCls c)] lead template [] n Hnd) as E.
  cbn [app] in E.
  match goal with
  | |- context [append_all ?a ?b ?d] =>
      replace (append_all a b d)
        with ([(key, ("cls", SlotCls c) :: stored lead template [n])], Ok tt)
  end; [reflexivity|].
  symmetry. apply E.
  intros name Hin Hp. cbn in Hp. apply list_elem_of_singleton in Hp as ->. contradiction.
Qed.

Lemma feed_batches key c lead template cells more :
  NoDup template.*1 -> "cls" ∉ template.*1 ->
  feed [(key, ("cls", SlotCls c) :: stored lead template cells)]
    (batch_output key c lead template <$> more)
  = ([(key, ("cls", SlotCls c) :: stored lead template (cells ++ more))], Ok tt).
Proof.
  intros Hnd Hcls. revert cells. induction more as [|n more IH]; intros cells.
  - rewrite app_nil_r. reflexivity.
  - cbn [fmap list_fmap feed]. rewrite add_batch by assumption.
    rewrite IH, <- app_assoc. reflexivity.
Qed.

Lemma cat_cells lead g (cells : list nat) :
  cells <> [] ->
  cat ((fun n => lead ++ [n; g]) <$> cells) (length lead)
  = Ok (lead ++ [sum_list cells; g]).
Proof.
  intros Hne. destruct cells as [|n0 cells]; [contradiction|]. clear Hne.
  assert (Hkeep : filter (fun t => t <> [0]) ((fun n => lead ++ [n; g]) <$> n0 :: cells)
                  = (fun n => lead ++ [n; g]) <$> n0 :: cells).
  { generalize (n0 :: cells) as l. intros l. induction l as [|n l IH]; [reflexivity|].
    cbn [fmap list_fmap]. rewrite filter_cons_True.
    - f_equal. exact IH.
    - intros E. apply (f_equal length) in E. rewrite length_app in E. simpl in E. lia. }
  unfold cat. cbn [fmap list_fmap] in *. rewrite Hkeep.
  rewrite bool_decide_eq_true_2.
  - f_equal. rewrite insert_app_r_alt by lia. rewrite Nat.sub_diag. cbn [insert list_insert].
    assert (Hat : forall n, default 0 ((lead ++ [n; g]) !! length lead) = n).
    { intros n. rewrite lookup_app_r by lia. rewrite Nat.sub_diag. reflexivity. }
    rewrite Hat, <- list_fmap_compose.
    rewrite (list_fmap_ext _ (@Datatypes.id nat) cells)
      by (intros i n _; unfold compose; apply Hat).
    rewrite list_fmap_id. reflexivity.
  - split; [rewrite length_app; simpl; lia|].
    apply Forall_fmap, Forall_forall. intros n _. simpl.
    rewrite !insert_app_r_alt by lia. rewrite Nat.sub_diag. reflexivity.
Qed.

Lemma concat_stored lead (template : list (string * nat)) cells :
  cells <> [] -> (lead = [] \/ exists P, lead = [P]) ->
  mapM (M := result) concat_param (stored lead template cells)
  = Ok ((fun p => (p.1, lead ++ [sum_list cells; p.2])) <$> template).
Proof.
  intros Hne Hlead. induction template as [|[name g] template IH]; [reflexivity|].
  unfold stored in *. cbn [fmap list_fmap mapM fst snd]. rewrite IH.
  unfold concat_param at 1. cbn [fst snd].
  assert (Hdim : _find_concat_dim ((fun n => lead ++ [n; g]) <$> cells) = Ok (length lead)).
  { destruct cells as [|n0 cells]; [contradiction|]. cbn [fmap list_fmap _find_concat_dim].
    destruct Hlead as [-> | [P ->]]; reflexivity. }
  rewrite Hdim. cbn [mbind result_bind]. rewrite cat_cells by exact Hne.
  reflexivity.
Qed.

(** X22.  Feeding the concatenator the forward outputs of several
    minibatches and asking for the concatenated distributions calls the
    class of the distributions once, with parameters that have the cells of
    all minibatches: shapes (cells x g) concatenate to (sum of cells x g),
    shapes (P x cells x g) to (P x sum of cells x g).  The call returns the
    object the class builds, under the key of the distributions, or raises
    what the class raises. *)
Theorem concatenation_adds_cells init key c lead (template : list (string * nat)) cells :
  NoDup template.*1 ->
  "cls" ∉ template.*1 ->
  cells <> [] ->
  lead = [] \/ (exists P, lead = [P]) ->
  exists st st',
    feed [] (batch_output key c lead template <$> cells) = (st, Ok tt)
    /\ get_concatenated_distributions init st
       = (st', (fun args => [(key, Distribution c args)])
                 <$> init c ((fun p => (p.1, lead ++ [sum_list cells; p.2])) <$> template)).
Proof.
  intros Hnd Hcls Hne Hlead.
  destruct cells as [|n cells]; [contradiction|].
  eexists _, _. split.
  - cbn [fmap list_fmap feed]. rewrite add_first_batch by assumption.
    apply feed_batches; assumption.
  - cbn [get_concatenated_distributions]. unfold pop. cbn [get].
    rewrite decide_True by reflexivity. cbn [remove].
    rewrite decide_True by reflexivity.
    rewrite concat_stored by (assumption || discriminate).
    cbn [mbind result_bind construct].
    rewrite of_items_wf by (unfold wf; rewrite <- list_fmap_compose; exact Hnd).
    destruct (init c _) as [args|x]; reflexivity.
Qed.

Lemma concatenation_adds_cells_witness :
  exists st st',
    feed [] (batch_output "px" "Normal" [] [("loc", 4); ("scale", 4)] <$> [3; 5])
    = (st, Ok tt)
    /\ get_concatenated_distributions Classes.torch_init st
       = (st', Ok [("px", Distribution "Normal" [("loc", [8; 4]); ("scale", [8; 4])])]).
Proof.
  apply (concatenation_adds_cells Classes.torch_init
           "px" "Normal" [] [("loc", 4); ("scale", 4)] [3; 5]).
  - refine (@bool_decide_unpack (NoDup _) _ _). vm_compute. exact I.
  - refine (@bool_decide_unpack (_ ∉ _) _ _). vm_compute. exact I.
  - discriminate.
  - left. reflexivity.
Defined.

End ConcatenatorProperties.

(** ** Loading a model ([_initialize_model]) *)


Section LoadingProperties.
Import PyDict Loading Keywords.

Lemma remove_absent {V} (d : dict V) k : wf d -> k ∉ (remove d k).*1.
Proof.
  unfold wf. induction d as [|[k' v] d IH]; intros Hnd; [apply not_elem_of_nil|].
  cbn [fmap list_fmap fst] in Hnd. apply NoDup_cons in Hnd as [Hk' Hnd].
  cbn [remove]. destruct (decide (k' = k)) as [->|Hne]; [exact Hk'|].
  cbn [fmap list_fmap fst]. apply not_elem_of_cons. split; [congruence | apply IH; exact Hnd].
Qed.

Lemma get_Some_key {V} (d : dict V) k v : get d k = Some v -> k ∈ d.*1.
Proof.
  induction d as [|[k' w] d IH]; [discriminate|].
  cbn [get fmap list_fmap fst]. destruct (decide (k' = k)) as [->|Hne]; intros H.
  - apply list_elem_of_here.
  - apply list_elem_of_further, IH. exact H.
Qed.

Lemma discard_absent (d : dict pyobj) k : wf d -> k ∉ (discard d k).*1.
Proof.
  intros Hwf. unfold discard. case_bool_decide as Hin; [apply remove_absent; exact Hwf | exact Hin].
Qed.

Lemma discard_keys (d : dict pyobj) k k' : k' ∈ (discard d k).*1 -> k' ∈ d.*1.
Proof. unfold discard. case_bool_decide; [apply remove_keys | auto]. Qed.

Lemma wf_discard (d : dict pyobj) k : wf d -> wf (discard d k).
Proof. unfold discard. case_bool_decide; [apply wf_remove | auto]. Qed.

Lemma wf_filter {V} (P : string * V -> Prop) `{!forall x, Decision (P x)}
    (d : list (string * V)) :
  wf d -> wf (filter P d).
Proof.
  unfold wf. induction d as [|kv d IH]; intros Hnd; [exact Hnd|].
  cbn [fmap list_fmap] in Hnd. apply NoDup_cons in Hnd as [Hk Hnd].
  destruct (decide (P kv)) as [Hp | Hp].
  - rewrite filter_cons_True by exact Hp. cbn [fmap list_fmap]. apply NoDup_cons.
    split; [|apply IH; exact Hnd]. intros Hin. apply Hk.
    apply list_elem_of_fmap in Hin as (x & -> & Hx). apply list_elem_of_fmap.
    exists x. split; [reflexivity|]. apply list_elem_of_filter in Hx as [_ Hx]. exact Hx.
  - rewrite filter_cons_False by exact Hp. apply IH. exact Hnd.
Qed.

Lemma filter_keys {V} (P : string * V -> Prop) `{!forall x, Decision (P x)}
    (d : list (string * V)) k :
  k ∈ (filter P d).*1 -> k ∈ d.*1.
Proof.
  intros Hin. apply list_elem_of_fmap in Hin as (x & -> & Hx). apply list_elem_of_fmap.
  exists x. split; [reflexivity|]. apply list_elem_of_filter in Hx as [_ Hx]. exact Hx.
Qed.

Lemma dicts_wf_get (d : dict pyobj) k v :
  dicts_wf (PyDictObj d) -> get d k = Some v -> dicts_wf v.
Proof.
  intros [_ Hall]. induction d as [|[k' w] d IH]; [discriminate|].
  destruct Hall as [Hw Hall]. cbn [get]. destruct (decide (k' = k)).
  - intros [= <-]. exact Hw.
  - apply IH. exact Hall.
Qed.

Lemma pop_Ok {V} (d : dict V) k v d' :
  pop d k = Ok (v, d') -> get d k = Some v /\ d' = remove d k.
Proof.
  unfold pop. destruct (get d k); [|discriminate]. intros [= <- <-]. auto.
Qed.

Lemma expand_dict_groups (d : list (string * pyobj)) :
  is_Ok (expand_kwargs (filter (fun kv => is_dict kv.2 = true) d)).
Proof.
  unfold expand_kwargs.
  assert (H : is_Ok (mapM (M := result) (fun ij : string * pyobj => as_dict "items" ij.2)
                       (filter (fun kv => is_dict kv.2 = true) d))).
  { induction d as [|[k [a|items]] d IH].
    - eexists. reflexivity.
    - rewrite filter_cons_False by (simpl; discriminate). exact IH.
    - rewrite filter_cons_True by reflexivity. destruct IH as [gs Hgs].
      cbn [mapM snd as_dict mbind result_bind]. rewrite Hgs. eexists. reflexivity. }
  destruct H as [gs ->]. eexists. reflexivity.
Qed.

Lemma filter_all {A} (P : A -> Prop) `{!forall x, Decision (P x)} (l : list A) :
  Forall P l -> filter P l = l.
Proof.
  induction 1 as [|x l Hx _ IH]; [reflexivity|].
  rewrite filter_cons_True by exact Hx. f_equal. exact IH.
Qed.

Lemma remove_filter {V} (d : list (string * V)) k :
  wf d -> remove d k = filter (fun kv => kv.1 <> k) d.
Proof.
  unfold wf. induction d as [|[k' v] d IH]; intros Hnd; [reflexivity|].
  cbn [fmap list_fmap fst] in Hnd. apply NoDup_cons in Hnd as [Hk' Hnd].
  cbn [remove]. destruct (decide (k' = k)) as [->|Hne].
  - rewrite filter_cons_False by (simpl; intros H; apply H; reflexivity).
    symmetry. apply filter_all.
    apply Forall_forall. intros [k0 v0] Hin. simpl. intros ->. apply Hk'.
    apply list_elem_of_fmap. exists (k, v0). auto.
  - rewrite filter_cons_True by (simpl; exact Hne). f_equal. apply IH. exact Hnd.
Qed.

Lemma discard_filter (d : dict pyobj) k :
  wf d -> discard d k = filter (fun kv => kv.1 <> k) d.
Proof.
  intros Hwf. unfold discard. case_bool_decide as Hin; [apply remove_filter; exact Hwf|].
  symmetry. apply filter_all. apply Forall_forall. intros [k0 v0] Hx. simpl. intros ->.
  apply Hin. apply list_elem_of_fmap. exists (k, v0). auto.
Qed.

Lemma without_one (d : dict pyobj) k :
  filter (fun kv : string * pyobj => kv.1 <> k) d = without [k] d.
Proof.
  unfold without. apply list_filter_iff. intros [k0 v0]. simpl.
  rewrite list_elem_of_singleton. reflexivity.
Qed.

Lemma discard_two (d : dict pyobj) a b :
  wf d -> discard (discard d a) b = without [a; b] d.
Proof.
  intros Hwf. rewrite (discard_filter _ b) by (apply wf_discard; exact Hwf).
  rewrite (discard_filter _ a) by exact Hwf. unfold without.
  rewrite (list_filter_filter (fun kv : string * pyobj => kv.1 <> b)
             (fun kv : string * pyobj => kv.1 <> a) d).
  apply list_filter_iff. intros [k0 v0]. simpl.
  rewrite !not_elem_of_cons. split; [intros [? ?]|intros (? & ? & _)]; repeat split; auto.
  apply not_elem_of_nil.
Qed.

Lemma expand_kwargs_Ok kwargs kw :
  expand_kwargs kwargs = Ok kw ->
  Forall (fun ij => is_dict ij.2 = true) kwargs /\ kw = of_items (group_items kwargs).
Proof.
  unfold expand_kwargs. intros H. step H groups Hg. injection H as <-.
  assert (Forall (fun ij : string * pyobj => is_dict ij.2 = true) kwargs
          /\ concat groups = group_items kwargs) as [Hall ->]; [|auto].
  revert groups Hg. induction kwargs as [|[i j] kwargs IH]; intros groups Hg.
  - injection Hg as <-. split; [constructor | reflexivity].
  - cbn [mapM] in Hg. step Hg d Hd. step Hg rest Hrest. injection Hg as <-.
    destruct j as [a|items]; [discriminate|]. injection Hd as <-.
    destruct (IH rest Hrest) as [Hall Hc]. split; [constructor; [reflexivity | exact Hall]|].
    cbn [concat]. rewrite Hc. reflexivity.
Qed.

Section Calls.
Context {Data Model : Type}.
Variable cls : Data -> dict pyobj -> result Model.
Variable setattr : Model -> string -> pyobj -> result Model.

(** X23.  [_initialize_model] needs "init_params_" in [attr_dict] and
    takes it out of the caller's dictionary: without the key it raises
    the [ValueError] and leaves the dictionary alone; and on the
    dictionary that any call leaves behind, a second call raises that
    [ValueError]. *)
Theorem initialize_model_consumes_init_params adata (attr_dict : dict pyobj) :
  wf attr_dict ->
  ("init_params_" ∉ attr_dict.*1 ->
   _initialize_model cls setattr adata attr_dict
   = (attr_dict, Raise (ValueError no_init_params)))
  /\ (let left := (_initialize_model cls setattr adata attr_dict).1 in
      _initialize_model cls setattr adata left
      = (left, Raise (ValueError no_init_params))).
Proof.
  intros Hwf.
  assert (Hmissing : forall d : dict pyobj, "init_params_" ∉ d.*1 ->
            _initialize_model cls setattr adata d = (d, Raise (ValueError no_init_params))).
  { intros d Hd. unfold _initialize_model. rewrite (bool_decide_eq_true_2 _ Hd). reflexivity. }
  split; [apply Hmissing|].
  intros left. apply Hmissing. subst left. unfold _initialize_model.
  case_bool_decide as Hin; [exact Hin|].
  destruct (pop attr_dict "init_params_") as [[ip d']|x] eqn:Hpop.
  - apply pop_Ok in Hpop as [_ ->]. cbn [fst]. apply remove_absent. exact Hwf.
  - exfalso. unfold pop in Hpop.
    destruct (get attr_dict "init_params_") as [v|] eqn:Hv; [discriminate|].
    destruct (get_present attr_dict "init_params_") as [v Hv']; [|congruence].
    destruct (decide ("init_params_" ∈ attr_dict.*1)) as [Hk | Hk]; [exact Hk|].
    contradiction.
Qed.

(** X24.  A dictionary saved in the legacy format (no "non_kwargs" among
    the initial parameters) must record "use_cuda": without it the call
    raises [KeyError] for "use_cuda", after taking "init_params_" out of
    the caller's dictionary. *)
Theorem initialize_model_legacy_needs_use_cuda adata (attr_dict init_params : dict pyobj) :
  get attr_dict "init_params_" = Some (PyDictObj init_params) ->
  "non_kwargs" ∉ init_params.*1 ->
  "use_cuda" ∉ init_params.*1 ->
  _initialize_model cls setattr adata attr_dict
  = (remove attr_dict "init_params_", Raise (KeyError "use_cuda")).
Proof.
  intros Hget Hfmt Hcuda. unfold _initialize_model.
  rewrite bool_decide_eq_false_2
    by (intros Hno; apply Hno; eapply get_Some_key; exact Hget).
  unfold pop at 1. rewrite Hget. cbn [as_dict mbind result_bind].
  rewrite (bool_decide_eq_false_2 _ Hfmt).
  destruct (expand_dict_groups init_params) as [kw ->]. cbn [mbind result_bind].
  unfold pop. rewrite get_absent; [reflexivity|].
  intros Hin. apply Hcuda. eapply filter_keys. exact Hin.
Qed.

(** X25.  When [_initialize_model] returns a model: "init_params_" has
    left the caller's dictionary and is not among the attributes set on
    the model; the class was called once, with the saved parameters passed
    by name, in their order, without "unlabeled_category" and
    "pretrained_model" (and without "use_cuda" in the legacy format),
    followed by the items of the saved keyword groups, a later item
    replacing an earlier one of the same name; no name was passed twice;
    and the attributes left in the dictionary were set on the model the
    class returned. *)
Theorem initialize_model_arguments adata (attr_dict attr_dict' : dict pyobj) model :
  dicts_wf (PyDictObj attr_dict) ->
  _initialize_model cls setattr adata attr_dict = (attr_dict', Ok model) ->
  attr_dict' = remove attr_dict "init_params_"
  /\ ("init_params_" ∉ attr_dict'.*1)
  /\ exists init_params non_kwargs groups m0,
       get attr_dict "init_params_" = Some (PyDictObj init_params)
       /\ saved_parameters init_params non_kwargs groups
       /\ Forall (fun ij => is_dict ij.2 = true) groups
       /\ (let passed := without ["unlabeled_category"; "pretrained_model"] non_kwargs in
           let kwargs := of_items (group_items groups) in
           (forall k, k ∈ passed.*1 -> k ∉ kwargs.*1)
           /\ cls adata (passed ++ kwargs) = Ok m0)
       /\ set_attributes setattr m0 attr_dict' = Ok model.
Proof.
  intros Hwf H. unfold _initialize_model in H.
  case_bool_decide as Hin; [discriminate|].
  destruct (pop attr_dict "init_params_") as [[ip d']|x] eqn:Hpop; [|discriminate].
  apply pop_Ok in Hpop as [Hget ->]. injection H as <- H.
  split; [reflexivity|]. split; [apply remove_absent; exact (proj1 Hwf)|].
  pose proof (dicts_wf_get _ _ _ Hwf Hget) as Hip.
  step H init_params Hd. destruct ip as [a|items]; [discriminate|]. injection Hd as <-.
  step H pr Hpair. destruct pr as [nk_obj kwargs].
  step H nk Hnk. destruct nk_obj as [a|nk0]; [discriminate|]. injection Hnk as <-.
  step H m0 Hcall.
  assert (Hsaved : exists groups,
             saved_parameters items nk0 groups
             /\ Forall (fun ij : string * pyobj => is_dict ij.2 = true) groups
             /\ kwargs = of_items (group_items groups)
             /\ wf nk0).
  { unfold saved_parameters. case_bool_decide as Hfmt.
    - step Hpair o Ho. step Hpair k1 Hk1. step Hpair k2 Hk2. step Hpair k3 Hk3.
      injection Hpair as -> <-. unfold item in Ho, Hk1.
      destruct (get items "non_kwargs") as [v|] eqn:Hv; [|discriminate].
      injection Ho as ->.
      destruct (get items "kwargs") as [w|] eqn:Hw; [|discriminate].
      injection Hk1 as ->. destruct k1 as [a|g]; [discriminate|]. injection Hk2 as <-.
      apply expand_kwargs_Ok in Hk3 as [Hall ->].
      exists g. repeat split; auto. exact (proj1 (dicts_wf_get _ _ _ Hip Hv)).
    - step Hpair k1 Hk1. step Hpair popped Hpop. injection Hpair as <- <-.
      destruct popped as [v nk1]. apply pop_Ok in Hpop as [Hcuda ->]. cbn [snd].
      apply expand_kwargs_Ok in Hk1 as [Hall ->].
      assert (Hwfnd : wf (filter (fun kv : string * pyobj => is_dict kv.2 = false) items))
        by (apply wf_filter; exact (proj1 Hip)).
      eexists. split; [|split; [exact Hall | split; [reflexivity | apply wf_remove; exact Hwfnd]]].
      split; [|split; [|reflexivity]].
      + eapply filter_keys. eapply get_Some_key. exact Hcuda.
      + rewrite remove_filter by exact Hwfnd. apply without_one. }
  destruct Hsaved as (groups & Hsaved & Hall & -> & Hwf0).
  unfold keyword_call in Hcall. case_bool_decide as Hdup; [discriminate|].
  rewrite discard_two in Hcall, Hdup by exact Hwf0.
  exists items, nk0, groups, m0. split; [exact Hget|]. split; [exact Hsaved|].
  split; [exact Hall|]. split; [|exact H]. split; [|exact Hcall].
  intros k Hk Hk'. apply Hdup. apply Exists_exists. exists k. auto.
Qed.

End Calls.

Lemma initialize_model_consumes_init_params_witness :
  let left := (_initialize_model Saved.record_cls Saved.record_setattr tt Saved.attr_dict).1 in
  _initialize_model Saved.record_cls Saved.record_setattr tt left
  = (left, Raise (ValueError no_init_params)).
Proof.
  refine (proj2 (initialize_model_consumes_init_params Saved.record_cls Saved.record_setattr
                   tt Saved.attr_dict _)).
  refine (@bool_decide_unpack (NoDup _) _ _). vm_compute. exact I.
Defined.

Lemma initialize_model_legacy_needs_use_cuda_witness :
  _initialize_model Saved.record_cls Saved.record_setattr tt Saved.legacy_attr_dict
  = ([("is_trained_", PyAtom "True")], Raise (KeyError "use_cuda")).
Proof.
  refine (initialize_model_legacy_needs_use_cuda Saved.record_cls Saved.record_setattr tt
            Saved.legacy_attr_dict _ eq_refl _ _).
  - refine (@bool_decide_unpack (_ ∉ _) _ _). vm_compute. exact I.
  - refine (@bool_decide_unpack (_ ∉ _) _ _). vm_compute. exact I.
Defined.

Lemma initialize_model_arguments_witness :
  exists model m0,
    _initialize_model Saved.record_cls Saved.record_setattr tt Saved.attr_dict
    = ([("is_trained_", PyAtom "True")], Ok model)
    /\ Saved.record_cls tt [("n_latent", PyAtom "10"); ("dropout_rate", PyAtom "0.1")] = Ok m0
    /\ set_attributes Saved.record_setattr m0 [("is_trained_", PyAtom "True")] = Ok model.
Proof.
  assert (E : exists model,
             _initialize_model Saved.record_cls Saved.record_setattr tt Saved.attr_dict
             = ([("is_trained_", PyAtom "True")], Ok model))
    by (eexists; reflexivity).
  destruct E as (model & E).
  destruct (initialize_model_arguments Saved.record_cls Saved.record_setattr tt
              Saved.attr_dict [("is_trained_", PyAtom "True")] model)
    as (_ & _ & ip & nk & groups & m0 & Hget & Hsaved & _ & [_ Hcall] & Hset).
  - repeat split; try exact I; refine (@bool_decide_unpack (NoDup _) _ _); vm_compute; exact I.
  - exact E.
  - injection Hget as <-. destruct Hsaved as [Hnk Hg].
    injection Hnk as <-. injection Hg as <-.
    exists model, m0. split; [exact E|]. split; [exact Hcall | exact Hset].
Defined.
End LoadingProperties.
